(** * Chatty: room membership and message fan-out

    A shallow embedding of the real-time core of the Chatty backend:
    the Socket.IO event handlers of [chatty/main.py], the create-message
    endpoint of [chatty/routers/messages.py], the request schema of
    [chatty/schemas/message.py] and the row constructor of
    [chatty/models/message.py].

    Strings are Rocq strings (the ASCII fragment of Python's [str]);
    dictionaries and sets are stdpp's [gmap] and [gset]. *)

From stdpp Require Import gmap strings list fin_maps fin_sets.

Set Warnings "-clear-no-such-hyp".

Open Scope string_scope.

(** ** The room registry and the connection sessions *)

Module Registry.

(** Modelled from the spec: the Room Registry and the Connection Session.
    The source delegates both to the Socket.IO server object
    ([sio.enter_room], [sio.leave_room], the clean-up on disconnect), whose
    code is not part of the repository.  The registry maps a room id to the
    set of connections joined to it, created lazily on first join and pruned
    when the set becomes empty; the session is the inverse index. *)
Record membership := Membership {
  registry : gmap string (gset string);
  session : gmap string (gset string)
}.

Definition empty : membership :=
  {| registry := ∅; session := ∅ |}.

(** [Members room_id]: the snapshot of connections currently in the room. *)
Definition Members (m : membership) (room_id : string) : gset string :=
  default ∅ (registry m !! room_id).

(** The rooms a connection has joined, [Session[connection_id]]. *)
Definition Rooms (m : membership) (connection_id : string) : gset string :=
  default ∅ (session m !! connection_id).

(** Remove one connection from one registry entry, pruning an entry that
    becomes empty. *)
Definition registry_remove (connection_id room_id : string)
    (reg : gmap string (gset string)) : gmap string (gset string) :=
  match reg !! room_id with
  | None => reg
  | Some members =>
      let members' := members ∖ {[connection_id]} in
      if decide (members' = ∅) then delete room_id reg
      else <[room_id := members']> reg
  end.

Definition session_remove (connection_id room_id : string)
    (ses : gmap string (gset string)) : gmap string (gset string) :=
  match ses !! connection_id with
  | None => ses
  | Some rooms => <[connection_id := rooms ∖ {[room_id]}]> ses
  end.

(** [Join]: adds the connection to [Registry[room_id]] and the room to
    [Session[connection_id]]. *)
Definition Join (connection_id room_id : string) (m : membership) : membership :=
  {| registry := <[room_id := {[connection_id]} ∪ Members m room_id]> (registry m);
     session := <[connection_id := {[room_id]} ∪ Rooms m connection_id]> (session m) |}.

(** [Leave]: removes from both indexes. *)
Definition Leave (connection_id room_id : string) (m : membership) : membership :=
  {| registry := registry_remove connection_id room_id (registry m);
     session := session_remove connection_id room_id (session m) |}.

(** [DropConnection]: removes the connection from every room in
    [Session[connection_id]], then clears [Session[connection_id]]. *)
Definition DropConnection (connection_id : string) (m : membership) : membership :=
  {| registry := foldr (registry_remove connection_id) (registry m)
                   (elements (Rooms m connection_id));
     session := delete connection_id (session m) |}.

(** The two indexes are exact inverses. *)
Definition inverse (m : membership) : Prop :=
  ∀ c r, c ∈ Members m r ↔ r ∈ Rooms m c.

(** Two membership states that answer every query alike. *)
Definition same_membership (m1 m2 : membership) : Prop :=
  (∀ r, Members m1 r = Members m2 r) ∧ (∀ c, Rooms m1 c = Rooms m2 c).

(** No registry entry is left empty. *)
Definition pruned (m : membership) : Prop :=
  ∀ r members, registry m !! r = Some members → members ≠ ∅.

(** A registry operation, and the run of a sequence of them. *)
Inductive op :=
| OpJoin (connection_id room_id : string)
| OpLeave (connection_id room_id : string)
| OpDrop (connection_id : string).

Definition apply_op (o : op) (m : membership) : membership :=
  match o with
  | OpJoin c r => Join c r m
  | OpLeave c r => Leave c r m
  | OpDrop c => DropConnection c m
  end.

Definition run_ops (ops : list op) (m : membership) : membership :=
  foldl (λ m o, apply_op o m) m ops.

End Registry.

(** ** Python values, exceptions and the effect monad *)

(** The values a JSON payload field or an [Optional[str]] attribute holds
    here: [None] or a string. *)
Inductive pyval :=
| PNone
| PStr (s : string).

Global Instance pyval_eq_dec : EqDecision pyval.
Proof. solve_decision. Defined.

(** Python truthiness: [None] and the empty string are falsy. *)
Definition truthy (v : pyval) : bool :=
  match v with
  | PNone => false
  | PStr s => bool_decide (s ≠ "")
  end.

(** [f"{v}"] *)
Definition py_format (v : pyval) : string :=
  match v with
  | PNone => "None"
  | PStr s => s
  end.

(** The string a truthy value holds. *)
Definition str_of (v : pyval) : string :=
  match v with
  | PNone => ""
  | PStr s => s
  end.

(** [data.get(key)] on a dict payload: [None] when the key is absent. *)
Definition dict_get (data : gmap string pyval) (key : string) : pyval :=
  default PNone (data !! key).

Inductive exn :=
| ValueError (msg : string)
| HTTPException (status_code : nat) (detail : string)
| RequestValidationError (msg : string)
| IntegrityError (msg : string)
| TransportError (msg : string).

Global Instance exn_eq_dec : EqDecision exn.
Proof. solve_decision. Defined.

(** [str(e)] *)
Definition exn_str (e : exn) : string :=
  match e with
  | ValueError msg => msg
  | HTTPException _ detail => detail
  | RequestValidationError msg => msg
  | IntegrityError msg => msg
  | TransportError msg => msg
  end.

(** [isinstance(e, ValueError)] *)
Definition is_ValueError (e : exn) : bool :=
  match e with
  | ValueError _ => true
  | _ => false
  end.

(** [isinstance(e, Exception)]: every exception modelled here. *)
Definition is_Exception (e : exn) : bool := true.

(** The status of the HTTP response an escaping exception turns into:
    [HTTPException] carries its own, a request that fails the schema is
    answered 422, anything else is a server error. *)
Definition http_status (e : exn) : nat :=
  match e with
  | HTTPException status_code _ => status_code
  | RequestValidationError _ => 422
  | _ => 500
  end.

Definition is_validation_error (e : exn) : bool :=
  bool_decide (http_status e = 400 ∨ http_status e = 422).

Definition is_not_found (e : exn) : bool :=
  bool_decide (http_status e = 404).

Inductive result (A : Type) :=
| Ok (a : A)
| Raise (e : exn).
Arguments Ok {A} a.
Arguments Raise {A} e.

(** ** Messages: request schema, row and response *)

(** A field of a JSON request body that has a default: left out, or
    supplied with a value (which may be [null]). *)
Inductive field (A : Type) :=
| Omitted
| Supplied (v : A).
Arguments Omitted {A}.
Arguments Supplied {A} v.

(** The JSON body of [POST /messages/]; the three required fields are
    present and [is_reply] has its default applied. *)
Module Body.
Record t := Make {
  message_text : string;
  user_id : string;
  chatroom_id : string;
  is_reply : bool;
  parent_message_id : field pyval
}.
End Body.

(** [schemas/message.py], class [MessageCreateRequest]. *)
Module MessageCreateRequest.
Record t := Make {
  message_text : string;
  user_id : string;
  chatroom_id : string;
  is_reply : bool;
  parent_message_id : pyval
}.
End MessageCreateRequest.

(** [models/message.py], class [Message], with the columns of [BaseModel].
    Before the flush the three defaulted columns are unset; they are
    written here as [""] and [0]. *)
Module Message.
Record t := Make {
  id : string;
  message_text : string;
  user_id : string;
  chatroom_id : string;
  is_reply : bool;
  parent_message_id : pyval;
  created_date : Z;
  last_updated_date : Z
}.
End Message.

(** [schemas/message.py], class [MessageResponse]. *)
Module MessageResponse.
Record t := Make {
  id : string;
  message_text : string;
  user_id : string;
  chatroom_id : string;
  is_reply : bool;
  parent_message_id : pyval;
  created_date : Z;
  last_updated_date : Z
}.

Definition from_orm (m : Message.t) : t :=
  {| id := Message.id m;
     message_text := Message.message_text m;
     user_id := Message.user_id m;
     chatroom_id := Message.chatroom_id m;
     is_reply := Message.is_reply m;
     parent_message_id := Message.parent_message_id m;
     created_date := Message.created_date m;
     last_updated_date := Message.last_updated_date m |}.
End MessageResponse.

(** [str.isspace] on the ASCII range. *)
Definition py_isspace (a : Ascii.ascii) : bool :=
  let n := Ascii.nat_of_ascii a in
  ((9 <=? n)%nat && (n <=? 13)%nat) || ((28 <=? n)%nat && (n <=? 32)%nat).

Fixpoint lstrip (s : string) : string :=
  match s with
  | EmptyString => EmptyString
  | String a s' => if py_isspace a then lstrip s' else s
  end.

Fixpoint rstrip (s : string) : string :=
  match s with
  | EmptyString => EmptyString
  | String a s' =>
      let r := rstrip s' in
      if bool_decide (r = "") && py_isspace a then EmptyString else String a r
  end.

(** [str.strip()]: leading and trailing whitespace removed. *)
Definition strip (s : string) : string := rstrip (lstrip s).

(** [MessageCreateRequest.validate_message_text] *)
Definition validate_message_text (v : string) : result string :=
  if bool_decide (v = "") || bool_decide (strip v = "") then
    Raise (ValueError "Message text cannot be empty or only whitespace")
  else Ok (strip v).

(** [MessageCreateRequest.validate_parent_message_id]; [is_reply] is
    [values.get('is_reply', False)]. *)
Definition validate_parent_message_id (v : pyval) (is_reply : bool) : result pyval :=
  if is_reply && negb (truthy v) then
    Raise (ValueError "parent_message_id is required when is_reply is True")
  else if negb is_reply && truthy v then
    Raise (ValueError "parent_message_id should only be set when is_reply is True")
  else Ok v.

(** Building a [MessageCreateRequest] from the body.  [message_text] is
    checked against [min_length=1, max_length=1024] and then by its
    validator.  The validator of [parent_message_id] is declared without
    [always=True], so it runs on a supplied value only: an omitted field
    takes its default [None] unchecked.  A failing field makes the request
    invalid. *)
Definition parse_request (b : Body.t) : result MessageCreateRequest.t :=
  if negb ((1 <=? String.length (Body.message_text b))%nat &&
           (String.length (Body.message_text b) <=? 1024)%nat) then
    Raise (RequestValidationError "message_text: length out of bounds")
  else
    match validate_message_text (Body.message_text b) with
    | Raise e => Raise (RequestValidationError (exn_str e))
    | Ok text =>
        match Body.parent_message_id b with
        | Omitted =>
            Ok (MessageCreateRequest.Make text (Body.user_id b)
                  (Body.chatroom_id b) (Body.is_reply b) PNone)
        | Supplied v =>
            match validate_parent_message_id v (Body.is_reply b) with
            | Raise e => Raise (RequestValidationError (exn_str e))
            | Ok v' =>
                Ok (MessageCreateRequest.Make text (Body.user_id b)
                      (Body.chatroom_id b) (Body.is_reply b) v')
            end
        end
    end.

(** [Message._validate_message_text] *)
Definition _validate_message_text (message_text : string) : result unit :=
  if bool_decide (message_text = "") then
    Raise (ValueError "Message text cannot be empty")
  else if bool_decide (strip message_text = "") then
    Raise (ValueError "Message text cannot be only whitespace")
  else if (1024 <? String.length message_text)%nat then
    Raise (ValueError "Message text cannot exceed 1024 characters")
  else Ok tt.

(** [Message.__init__] *)
Definition Message_init (message_text user_id chatroom_id : string)
    (is_reply : bool) (parent_message_id : pyval) : result Message.t :=
  match _validate_message_text message_text with
  | Raise e => Raise e
  | Ok _ =>
      if is_reply && negb (truthy parent_message_id) then
        Raise (ValueError "parent_message_id is required when is_reply is True")
      else if negb is_reply && truthy parent_message_id then
        Raise (ValueError "parent_message_id should only be set when is_reply is True")
      else
        Ok (Message.Make "" message_text user_id chatroom_id is_reply
              parent_message_id 0 0)
  end.

(** ** The world: store, membership, transport and observations *)

(** The levels the handlers log at. *)
Inductive level := INFO | ERROR.

(** What an emitted event carries. *)
Inductive wire :=
| WDict (items : list (string * pyval))
| WMessage (m : MessageResponse.t).

(** What the system is seen to do, newest first in [trace]. *)
Inductive obs :=
| ObsLog (lvl : level) (text : string)
| ObsSend (sid : string) (event : string) (data : wire)
| ObsQuery (table : string) (key : string)
| ObsCommit (row : Message.t)
| ObsRollback.

(** The state of the server: the live membership [mem], the identifiers of
    the users and chatrooms in the store and its message rows, whether the
    module global [messages.sio] holds the server object, the schedule of
    transport faults to come, and the trace of what has been observed. *)
Record world := World {
  mem : Registry.membership;
  users : gset string;
  chatrooms : gset string;
  messages : gmap string Message.t;
  sio : bool;
  faults : list (option exn);
  trace : list obs
}.

Definition set_mem (m : Registry.membership) (w : world) : world :=
  World m (users w) (chatrooms w) (messages w) (sio w) (faults w) (trace w).
Definition set_messages (ms : gmap string Message.t) (w : world) : world :=
  World (mem w) (users w) (chatrooms w) ms (sio w) (faults w) (trace w).
Definition set_faults (fs : list (option exn)) (w : world) : world :=
  World (mem w) (users w) (chatrooms w) (messages w) (sio w) fs (trace w).
Definition set_trace (tr : list obs) (w : world) : world :=
  World (mem w) (users w) (chatrooms w) (messages w) (sio w) (faults w) tr.

(** Handlers run in a state-and-exception monad over the world. *)
Definition M (A : Type) : Type := world → result A * world.

Definition ret {A} (a : A) : M A := λ w, (Ok a, w).

Definition bind {A B} (m : M A) (k : A → M B) : M B := λ w,
  match m w with
  | (Ok a, w') => k a w'
  | (Raise e, w') => (Raise e, w')
  end.

Declare Scope M_scope.
Delimit Scope M_scope with M.
Notation "x ← y ; z" := (bind y (λ x : _, z))
  (at level 20, y at level 100, z at level 200, only parsing) : M_scope.
Notation "x ;; z" := (bind x (λ _, z))
  (at level 100, z at level 200, only parsing, right associativity) : M_scope.
Open Scope M_scope.

Definition raise {A} (e : exn) : M A := λ w, (Raise e, w).

(** [try: body  except <catches> as e: handler e] *)
Definition try_except {A} (body : M A) (catches : exn → bool)
    (handler : exn → M A) : M A := λ w,
  match body w with
  | (Raise e, w') => if catches e then handler e w' else (Raise e, w')
  | r => r
  end.

Definition lift {A} (r : result A) : M A := λ w, (r, w).

Definition observe (o : obs) : M unit := λ w, (Ok tt, set_trace (o :: trace w) w).

Definition logger_info (text : string) : M unit := observe (ObsLog INFO text).
Definition logger_error (text : string) : M unit := observe (ObsLog ERROR text).

(** *** The persistence store *)

(** Modelled from the spec: the Persistence Store.  The source reaches it
    through a database session whose code is not part of the repository.
    It holds the rows by identifier, answers look-ups by identifier and
    enforces uniqueness of the primary key on commit. *)
Definition db_query_user (user_id : string) : M bool := λ w,
  (Ok (bool_decide (user_id ∈ users w)),
   set_trace (ObsQuery "users" user_id :: trace w) w).

Definition db_query_chatroom (chatroom_id : string) : M bool := λ w,
  (Ok (bool_decide (chatroom_id ∈ chatrooms w)),
   set_trace (ObsQuery "chatrooms" chatroom_id :: trace w) w).

Definition db_query_message (message_id : string) : M (option Message.t) := λ w,
  (Ok (messages w !! message_id),
   set_trace (ObsQuery "messages" message_id :: trace w) w).

(** [db.add(m); db.commit(); db.refresh(m)]: the flush fills the defaulted
    columns with the identifier and the clock reading drawn for it. *)
Definition db_add_commit_refresh (m : Message.t) (uuid4 : string) (utcnow : Z)
    : M Message.t := λ w,
  let row := Message.Make uuid4 (Message.message_text m) (Message.user_id m)
               (Message.chatroom_id m) (Message.is_reply m)
               (Message.parent_message_id m) utcnow utcnow in
  match messages w !! uuid4 with
  | Some _ => (Raise (IntegrityError "UNIQUE constraint failed: messages.id"), w)
  | None =>
      (Ok row, set_trace (ObsCommit row :: trace w)
                 (set_messages (<[uuid4 := row]> (messages w)) w))
  end.

Definition db_rollback : M unit := observe ObsRollback.

(** *** The Socket.IO server *)

(** Whom an emission addresses: the keyword [room=] names a room, be it
    [room=chatroom_id] or [room=sid], and the emission is for the
    connections that are in the room of that name. *)
Inductive target :=
| ToRoom (room_id : string).

Definition recipients (m : Registry.membership) (to : target) : list string :=
  match to with
  | ToRoom room_id => elements (Registry.Members m room_id)
  end.

(** Every call into the transport may fail: it takes the next entry of the
    fault schedule, and raises when that entry holds an exception. *)
Definition transport_call : M unit := λ w,
  match faults w with
  | [] => (Ok tt, w)
  | None :: fs => (Ok tt, set_faults fs w)
  | Some e :: fs => (Raise e, set_faults fs w)
  end.

(** Modelled from the spec: the Socket.IO server object [sio], whose code
    is not part of the repository.  An emission with [room=r] reaches
    every connection of the snapshot [Members(r)] taken at the call.  The
    rooms are one name space: [room=sid] names the room called after the
    connection, which the server enters the connection into when it
    accepts it (see [on_connect]), and which any connection enters that
    asks to join a room of that name. *)
Definition sio_emit (event : string) (data : wire) (to : target) : M unit :=
  transport_call ;;
  λ w, (Ok tt,
        set_trace (((λ sid, ObsSend sid event data) <$> recipients (mem w) to)
                   ++ trace w) w).

Definition sio_enter_room (sid room_id : string) : M unit :=
  transport_call ;;
  λ w, (Ok tt, set_mem (Registry.Join sid room_id (mem w)) w).

Definition sio_leave_room (sid room_id : string) : M unit :=
  transport_call ;;
  λ w, (Ok tt, set_mem (Registry.Leave sid room_id (mem w)) w).

(** The exception, if any, that the next call into the transport raises. *)
Definition next_fault (w : world) : option exn :=
  match faults w with
  | Some e :: _ => Some e
  | _ => None
  end.

(** None of the next [n] calls into the transport raises. *)
Definition no_fault (n : nat) (w : world) : Prop :=
  Forall (λ f, f = None) (take n (faults w)).

(** ** [chatty/main.py]: the Socket.IO event handlers *)

Definition connect (sid : string) : M unit :=
  logger_info ("Client " +:+ sid +:+ " connected").

Definition disconnect (sid : string) : M unit :=
  logger_info ("Client " +:+ sid +:+ " disconnected").

Definition join (sid : string) (data : gmap string pyval) : M unit :=
  try_except
    (let user_id := dict_get data "user_id" in
     let chatroom_id := dict_get data "chatroom_id" in
     if negb (truthy user_id) || negb (truthy chatroom_id) then
       sio_emit "error"
         (WDict [("message", PStr "user_id and chatroom_id are required")])
         (ToRoom sid)
     else
       sio_enter_room sid (str_of chatroom_id) ;;
       logger_info ("Client " +:+ sid +:+ " (user " +:+ py_format user_id
                    +:+ ") joined chatroom " +:+ py_format chatroom_id) ;;
       sio_emit "joined" (WDict [("chatroom_id", chatroom_id)])
         (ToRoom sid))
    is_Exception
    (λ e,
       logger_error ("Error in join event: " +:+ exn_str e) ;;
       sio_emit "error" (WDict [("message", PStr "An error occurred")])
         (ToRoom sid)).

Definition leave (sid : string) (data : gmap string pyval) : M unit :=
  try_except
    (let user_id := dict_get data "user_id" in
     let chatroom_id := dict_get data "chatroom_id" in
     if negb (truthy user_id) || negb (truthy chatroom_id) then
       sio_emit "error"
         (WDict [("message", PStr "user_id and chatroom_id are required")])
         (ToRoom sid)
     else
       sio_leave_room sid (str_of chatroom_id) ;;
       logger_info ("Client " +:+ sid +:+ " (user " +:+ py_format user_id
                    +:+ ") left chatroom " +:+ py_format chatroom_id) ;;
       sio_emit "left" (WDict [("chatroom_id", chatroom_id)])
         (ToRoom sid))
    is_Exception
    (λ e,
       logger_error ("Error in leave event: " +:+ exn_str e) ;;
       sio_emit "error" (WDict [("message", PStr "An error occurred")])
         (ToRoom sid)).

(** Modelled from the spec: what the server does when it accepts a
    connection.  The [connect] handler of the source only logs; before it
    runs, the server enters the connection into the room named by the
    connection's own identifier, the room that [room=sid] addresses.  The
    server's code is not part of the repository. *)
Definition on_connect (sid : string) : M unit :=
  (λ w, (Ok tt, set_mem (Registry.Join sid sid (mem w)) w)) ;;
  connect sid.

(** Modelled from the spec: what the server does when a connection goes
    away.  The [disconnect] handler of the source only logs; the removal of
    the connection from its rooms ([DropConnection]) is the server's own,
    and its code is not part of the repository. *)
Definition on_disconnect (sid : string) : M unit :=
  disconnect sid ;;
  λ w, (Ok tt, set_mem (Registry.DropConnection sid (mem w)) w).

(** ** [chatty/routers/messages.py]: the create-message endpoint *)

(** [uuid4] and [utcnow] are the identifier and the clock reading that the
    column defaults draw when the row is flushed. *)
Definition create_message (message_data : MessageCreateRequest.t)
    (uuid4 : string) (utcnow : Z) : M MessageResponse.t :=
  try_except
    (user ← db_query_user (MessageCreateRequest.user_id message_data);
     (if negb user then raise (HTTPException 404 "User not found")
      else ret tt) ;;
     chatroom ← db_query_chatroom (MessageCreateRequest.chatroom_id message_data);
     (if negb chatroom then raise (HTTPException 404 "Chatroom not found")
      else ret tt) ;;
     (if MessageCreateRequest.is_reply message_data
         && truthy (MessageCreateRequest.parent_message_id message_data) then
        parent_message ← db_query_message
          (str_of (MessageCreateRequest.parent_message_id message_data));
        match parent_message with
        | None => raise (HTTPException 404 "Parent message not found")
        | Some _ => ret tt
        end
      else ret tt) ;;
     db_message ← lift (Message_init
       (MessageCreateRequest.message_text message_data)
       (MessageCreateRequest.user_id message_data)
       (MessageCreateRequest.chatroom_id message_data)
       (MessageCreateRequest.is_reply message_data)
       (MessageCreateRequest.parent_message_id message_data));
     db_message ← db_add_commit_refresh db_message uuid4 utcnow;
     let message_response := MessageResponse.from_orm db_message in
     attached ← (λ w, (Ok (sio w), w));
     (if attached : bool then
        try_except
          (let serialized_message := message_response in
           sio_emit "new_message" (WMessage serialized_message)
             (ToRoom (MessageResponse.chatroom_id serialized_message)) ;;
           logger_info ("Emitted new_message event to chatroom "
                        +:+ MessageResponse.chatroom_id serialized_message))
          is_Exception
          (λ e, logger_error ("Error emitting new_message event: " +:+ exn_str e))
      else ret tt) ;;
     ret message_response)
    is_ValueError
    (λ e, db_rollback ;; raise (HTTPException 400 (exn_str e))).

(** The endpoint as a client reaches it: the body is parsed into the
    request schema first, and a body the schema rejects never reaches the
    handler. *)
Definition post_message (b : Body.t) (uuid4 : string) (utcnow : Z)
    : M MessageResponse.t :=
  match parse_request b with
  | Raise e => raise e
  | Ok message_data => create_message message_data uuid4 utcnow
  end.

(** A payload field that is absent, [null] or the empty string. *)
Definition absent_or_blank (data : gmap string pyval) (key : string) : Prop :=
  data !! key = None ∨ data !! key = Some PNone ∨ data !! key = Some (PStr "").

(** ** The system as a whole *)

Inductive event :=
| EvConnect (sid : string)
| EvDisconnect (sid : string)
| EvJoin (sid : string) (data : gmap string pyval)
| EvLeave (sid : string) (data : gmap string pyval)
| EvPostMessage (b : Body.t) (uuid4 : string) (utcnow : Z)
| EvFaults (schedule : list (option exn)).

(** One step of the system: an event is handled to completion.  The
    environment may replace the fault schedule at any time. *)
Definition step (ev : event) (w : world) : world :=
  match ev with
  | EvConnect sid => snd (on_connect sid w)
  | EvDisconnect sid => snd (on_disconnect sid w)
  | EvJoin sid data => snd (join sid data w)
  | EvLeave sid data => snd (leave sid data w)
  | EvPostMessage b uuid4 utcnow => snd (post_message b uuid4 utcnow w)
  | EvFaults schedule => set_faults schedule w
  end.

Definition run (evs : list event) (w : world) : world :=
  foldl (λ w ev, step ev w) w evs.

(** The state the server starts in: nobody joined, nothing observed,
    [messages.sio] wired to the server by [main.py], and whatever the store
    holds. *)
Definition init (us cs : gset string) (ms : gmap string Message.t) : world :=
  World Registry.empty us cs ms true [] [].

(** The observations an execution added to the trace. *)
Definition added (w w' : world) (new : list obs) : Prop :=
  trace w' = (new ++ trace w)%list.

(** The connections to which [new] delivers the event [event] with [data]. *)
Definition delivered_to (new : list obs) (event : string) (data : wire)
    (sid : string) : Prop :=
  ObsSend sid event data ∈ new.

Definition is_query (o : obs) : bool :=
  match o with
  | ObsQuery _ _ => true
  | _ => false
  end.

(** ** Properties of executions *)

(** A computation relates every world to the world it leaves behind. *)
Definition preserves {A} (R : relation world) (m : M A) : Prop :=
  ∀ w, R w (snd (m w)).

(** The execution only added observations that satisfy [P]. *)
Definition only_adds (P : obs → Prop) : relation world := λ w w',
  ∃ new, trace w' = (new ++ trace w)%list ∧ Forall P new.

Definition keeps_store : relation world := λ w w',
  users w' = users w ∧ chatrooms w' = chatrooms w ∧ messages w' = messages w.

Definition keeps_mem : relation world := λ w w', mem w' = mem w.

(** The membership changed by registry operations only. *)
Definition mem_by_ops : relation world := λ w w',
  ∃ ops, mem w' = Registry.run_ops ops (mem w).

(** In a trace (newest first), every delivery of a [new_message] event is
    older than no commit of the message it carries: the commit of that very
    message lies further down the trace. *)
Definition commit_precedes_delivery (tr : list obs) : Prop :=
  ∀ newer sid m older,
    tr = (newer ++ ObsSend sid "new_message" (WMessage m) :: older)%list →
    ∃ row, ObsCommit row ∈ older ∧ MessageResponse.from_orm row = m.

(** The look-ups [create_message] makes before it builds the row, newest
    first: the parent (for a reply that names one), the chatroom, the
    user. *)
Definition lookups (message_data : MessageCreateRequest.t) : list obs :=
  ((if MessageCreateRequest.is_reply message_data
       && truthy (MessageCreateRequest.parent_message_id message_data)
    then [ObsQuery "messages"
            (str_of (MessageCreateRequest.parent_message_id message_data))]
    else []) ++
   [ObsQuery "chatrooms" (MessageCreateRequest.chatroom_id message_data);
    ObsQuery "users" (MessageCreateRequest.user_id message_data)])%list.

(** The parent look-up of [create_message] lets the request through. *)
Definition parent_found (message_data : MessageCreateRequest.t) (w : world) : Prop :=
  MessageCreateRequest.is_reply message_data
    && truthy (MessageCreateRequest.parent_message_id message_data) = true →
  is_Some (messages w !! str_of (MessageCreateRequest.parent_message_id message_data)).

(** The row [create_message] commits. *)
Definition new_row (message_data : MessageCreateRequest.t) (uuid4 : string)
    (utcnow : Z) : Message.t :=
  Message.Make uuid4
    (MessageCreateRequest.message_text message_data)
    (MessageCreateRequest.user_id message_data)
    (MessageCreateRequest.chatroom_id message_data)
    (MessageCreateRequest.is_reply message_data)
    (MessageCreateRequest.parent_message_id message_data) utcnow utcnow.

(** The paths through [create_message], each with its result and the
    world it leaves. *)
Inductive create_outcome (message_data : MessageCreateRequest.t)
    (uuid4 : string) (utcnow : Z) (w : world)
    : result MessageResponse.t → world → Prop :=
| co_user_not_found :
    MessageCreateRequest.user_id message_data ∉ users w →
    create_outcome message_data uuid4 utcnow w
      (Raise (HTTPException 404 "User not found"))
      (set_trace (ObsQuery "users" (MessageCreateRequest.user_id message_data)
                  :: trace w) w)
| co_chatroom_not_found :
    MessageCreateRequest.user_id message_data ∈ users w →
    MessageCreateRequest.chatroom_id message_data ∉ chatrooms w →
    create_outcome message_data uuid4 utcnow w
      (Raise (HTTPException 404 "Chatroom not found"))
      (set_trace (ObsQuery "chatrooms" (MessageCreateRequest.chatroom_id message_data)
                  :: ObsQuery "users" (MessageCreateRequest.user_id message_data)
                  :: trace w) w)
| co_parent_not_found :
    MessageCreateRequest.user_id message_data ∈ users w →
    MessageCreateRequest.chatroom_id message_data ∈ chatrooms w →
    MessageCreateRequest.is_reply message_data = true →
    truthy (MessageCreateRequest.parent_message_id message_data) = true →
    messages w !! str_of (MessageCreateRequest.parent_message_id message_data) = None →
    create_outcome message_data uuid4 utcnow w
      (Raise (HTTPException 404 "Parent message not found"))
      (set_trace (lookups message_data ++ trace w) w)
| co_rejected msg :
    MessageCreateRequest.user_id message_data ∈ users w →
    MessageCreateRequest.chatroom_id message_data ∈ chatrooms w →
    parent_found message_data w →
    Message_init (MessageCreateRequest.message_text message_data)
      (MessageCreateRequest.user_id message_data)
      (MessageCreateRequest.chatroom_id message_data)
      (MessageCreateRequest.is_reply message_data)
      (MessageCreateRequest.parent_message_id message_data)
      = Raise (ValueError msg) →
    create_outcome message_data uuid4 utcnow w
      (Raise (HTTPException 400 msg))
      (set_trace (ObsRollback :: lookups message_data ++ trace w) w)
| co_duplicate_id db_message :
    MessageCreateRequest.user_id message_data ∈ users w →
    MessageCreateRequest.chatroom_id message_data ∈ chatrooms w →
    parent_found message_data w →
    Message_init (MessageCreateRequest.message_text message_data)
      (MessageCreateRequest.user_id message_data)
      (MessageCreateRequest.chatroom_id message_data)
      (MessageCreateRequest.is_reply message_data)
      (MessageCreateRequest.parent_message_id message_data)
      = Ok db_message →
    is_Some (messages w !! uuid4) →
    create_outcome message_data uuid4 utcnow w
      (Raise (IntegrityError "UNIQUE constraint failed: messages.id"))
      (set_trace (lookups message_data ++ trace w) w)
| co_created db_message emitted fs :
    MessageCreateRequest.user_id message_data ∈ users w →
    MessageCreateRequest.chatroom_id message_data ∈ chatrooms w →
    parent_found message_data w →
    Message_init (MessageCreateRequest.message_text message_data)
      (MessageCreateRequest.user_id message_data)
      (MessageCreateRequest.chatroom_id message_data)
      (MessageCreateRequest.is_reply message_data)
      (MessageCreateRequest.parent_message_id message_data)
      = Ok db_message →
    messages w !! uuid4 = None →
    emission message_data uuid4 utcnow w emitted fs →
    create_outcome message_data uuid4 utcnow w
      (Ok (MessageResponse.from_orm (new_row message_data uuid4 utcnow)))
      (set_trace (emitted ++ ObsCommit (new_row message_data uuid4 utcnow)
                  :: lookups message_data ++ trace w)
         (set_faults fs
            (set_messages (<[uuid4 := new_row message_data uuid4 utcnow]> (messages w)) w)))

(** What the emission step of [create_message] adds to the trace, and the
    fault schedule it leaves. *)
with emission (message_data : MessageCreateRequest.t)
    (uuid4 : string) (utcnow : Z) (w : world)
    : list obs → list (option exn) → Prop :=
| em_detached :
    sio w = false →
    emission message_data uuid4 utcnow w [] (faults w)
| em_delivered :
    sio w = true →
    next_fault w = None →
    emission message_data uuid4 utcnow w
      (ObsLog INFO ("Emitted new_message event to chatroom "
                    +:+ MessageCreateRequest.chatroom_id message_data)
       :: ((λ sid, ObsSend sid "new_message"
                     (WMessage (MessageResponse.from_orm
                                  (new_row message_data uuid4 utcnow))))
           <$> elements (Registry.Members (mem w)
                           (MessageCreateRequest.chatroom_id message_data))))
      (tail (faults w))
| em_failed e :
    sio w = true →
    next_fault w = Some e →
    emission message_data uuid4 utcnow w
      [ObsLog ERROR ("Error emitting new_message event: " +:+ exn_str e)]
      (tail (faults w)).

(** The same property, read off the trace entry by entry. *)
Fixpoint commits_first (tr : list obs) : Prop :=
  match tr with
  | [] => True
  | o :: older =>
      (∀ sid m, o = ObsSend sid "new_message" (WMessage m) →
         ∃ row, ObsCommit row ∈ older ∧ MessageResponse.from_orm row = m)
      ∧ commits_first older
  end.

(** An observation that is not the delivery of a [new_message]. *)
Definition not_delivery (o : obs) : Prop :=
  ∀ sid m, o ≠ ObsSend sid "new_message" (WMessage m).

(** The value of [parent_message_id] a body stands for. *)
Definition body_parent (b : Body.t) : pyval :=
  match Body.parent_message_id b with
  | Omitted => PNone
  | Supplied v => v
  end.

(** The reply flag and the parent reference of a body disagree. *)
Definition flag_mismatch (b : Body.t) : Prop :=
  (Body.is_reply b = true ∧ truthy (body_parent b) = false) ∨
  (Body.is_reply b = false ∧ truthy (body_parent b) = true).

(** A message text the schema lets through. *)
Definition text_accepted (v : string) : Prop :=
  (String.length v ≤ 1024)%nat ∧ strip v ≠ "".

(** ** Properties of one execution *)

(** The execution from [w] to [w'] delivered the event [new_message]
    carrying [response] to exactly the members of [room_id] in [w], it
    delivered nothing else to anybody, and it left the membership alone. *)
Definition delivered_exactly_to_members (w w' : world) (room_id : string)
    (response : MessageResponse.t) : Prop :=
  ∃ new,
    added w w' new ∧
    mem w' = mem w ∧
    (∀ sid, sid ∈ Registry.Members (mem w) room_id ↔
            delivered_to new "new_message" (WMessage response) sid) ∧
    (∀ sid event data, ObsSend sid event data ∈ new →
       event = "new_message" ∧ data = WMessage response ∧
       sid ∈ Registry.Members (mem w) room_id).

(** The emission of the execution from [w] to [w'] failed with [e] and the
    failure went no further: the call returned the created message, the
    row is in the store and was not rolled back, the failure is the last
    thing logged, nothing was delivered, and the transport was called
    once. *)
Definition emission_failure_swallowed (w w' : world) (uuid4 : string)
    (e : exn) (res : result MessageResponse.t) : Prop :=
  ∃ row new,
    res = Ok (MessageResponse.from_orm row) ∧
    messages w' !! uuid4 = Some row ∧
    added w w' new ∧
    head new = Some (ObsLog ERROR ("Error emitting new_message event: "
                                   +:+ exn_str e)) ∧
    ObsCommit row ∈ new ∧
    (ObsRollback ∉ new) ∧
    (∀ sid event data, ObsSend sid event data ∉ new) ∧
    faults w' = tail (faults w).

(** The payload of the error event for a request that lacks a field. *)
Definition fields_required : wire :=
  WDict [("message", PStr "user_id and chatroom_id are required")].

(** What one emission with [room=room_id] delivers in the membership
    [m]: the event, once to each connection that is in the room. *)
Definition deliveries (m : Registry.membership) (room_id event : string)
    (data : wire) : list obs :=
  (λ sid, ObsSend sid event data) <$> recipients m (ToRoom room_id).

(** The room named after the connection holds that connection and no
    other: the connection has been accepted, it has not left that room,
    and no connection has joined a room of that name. *)
Definition alone_in_own_room (sid : string) (m : Registry.membership) : Prop :=
  Registry.Members m sid = {[sid]}.

(** The handler answered the request with one emission of that error
    event to the room named after the issuing connection, and changed no
    membership. *)
Definition rejects (handler : string → gmap string pyval → M unit)
    (sid : string) (data : gmap string pyval) (w : world) : Prop :=
  ∃ w', handler sid data w = (Ok tt, w') ∧
        added w w' (deliveries (mem w) sid "error" fields_required) ∧
        mem w' = mem w.

(** The same, with the error event delivered to the issuing connection
    and to nobody else. *)
Definition rejects_issuer_only (handler : string → gmap string pyval → M unit)
    (sid : string) (data : gmap string pyval) (w : world) : Prop :=
  ∃ w', handler sid data w = (Ok tt, w') ∧
        added w w' [ObsSend sid "error" fields_required] ∧
        mem w' = mem w.

(** A payload field that holds a string of whitespace only. *)
Definition whitespace_only (data : gmap string pyval) (key : string) : Prop :=
  ∃ s, data !! key = Some (PStr s) ∧ s ≠ "" ∧ strip s = "".

(** The handler never looks anything up in the store, nor changes it. *)
Definition never_queries (handler : string → gmap string pyval → M unit) : Prop :=
  ∀ sid data w,
    only_adds (λ o, is_query o = false) w (snd (handler sid data w)) ∧
    keeps_store w (snd (handler sid data w)).

(** The handler ran to its end: it applied [op] to the membership, wrote
    a log line and made one emission of [event], carrying the requested
    room, to the room named after the issuing connection as it is once
    [op] is applied. *)
Definition acknowledges (handler : string → gmap string pyval → M unit)
    (event : string)
    (op : string → string → Registry.membership → Registry.membership)
    (sid : string) (data : gmap string pyval) (w : world) : Prop :=
  ∃ w' text,
    handler sid data w = (Ok tt, w') ∧
    mem w' = op sid (str_of (dict_get data "chatroom_id")) (mem w) ∧
    added w w'
      (deliveries (mem w') sid event
         (WDict [("chatroom_id", dict_get data "chatroom_id")])
       ++ [ObsLog INFO text]).

(** The same, with the event delivered to the issuing connection and to
    nobody else. *)
Definition acknowledges_issuer_only
    (handler : string → gmap string pyval → M unit) (event : string)
    (op : string → string → Registry.membership → Registry.membership)
    (sid : string) (data : gmap string pyval) (w : world) : Prop :=
  ∃ w' text,
    handler sid data w = (Ok tt, w') ∧
    added w w' [ObsSend sid event
                  (WDict [("chatroom_id", dict_get data "chatroom_id")]);
                ObsLog INFO text] ∧
    mem w' = op sid (str_of (dict_get data "chatroom_id")) (mem w).

(** An observation that reaches no connection but [sid] and the
    connections that are in the room named after [sid] in [m]. *)
Definition reaches_room_of (sid : string) (m : Registry.membership) (o : obs)
    : Prop :=
  ∀ sid' event data,
    o = ObsSend sid' event data → sid' = sid ∨ sid' ∈ Registry.Members m sid.

(** Whatever the handler sends reaches the issuing connection and the
    connections that were in the room named after it, and no other. *)
Definition answers_own_room_only (handler : string → gmap string pyval → M unit)
    : Prop :=
  ∀ sid data w, only_adds (reaches_room_of sid (mem w)) w (snd (handler sid data w)).

(** The creation failed with [e]: the exception escapes, nothing is
    persisted and nothing is delivered. *)
Definition creation_fails (w w' : world) (res : result MessageResponse.t)
    (e : exn) : Prop :=
  res = Raise e ∧
  messages w' = messages w ∧
  ∃ new, added w w' new ∧ ∀ sid event data, ObsSend sid event data ∉ new.

(** The row of a persisted message is a reply exactly when it names a
    parent that exists in the store [ms]. *)
Definition reply_iff_parent (ms : gmap string Message.t) (row : Message.t) : Prop :=
  Message.is_reply row = true ↔
  truthy (Message.parent_message_id row) = true ∧
  is_Some (ms !! str_of (Message.parent_message_id row)).

(** ** A scenario *)

(** The payload of a join or leave event. *)
Definition payload (user_id chatroom_id : string) : gmap string pyval :=
  <["user_id" := PStr user_id]> (<["chatroom_id" := PStr chatroom_id]> ∅).

(** Connections [A] and [B] joined to room [R1], connection [C] to room
    [R2]; users [u1] and [u2] and both chatrooms exist in the store. *)
Definition scenario : world :=
  run [EvConnect "A"; EvConnect "B"; EvConnect "C";
       EvJoin "A" (payload "u1" "R1");
       EvJoin "B" (payload "u2" "R1");
       EvJoin "C" (payload "u1" "R2")]
    (init {["u1"; "u2"]} {["R1"; "R2"]} ∅).

(** Connection [A] joined to the rooms [R1] and [R2], connection [B] to
    [R1]. *)
Definition two_rooms : world :=
  run [EvConnect "A"; EvConnect "B";
       EvJoin "A" (payload "u1" "R1");
       EvJoin "A" (payload "u1" "R2");
       EvJoin "B" (payload "u2" "R1")]
    (init {["u1"; "u2"]} {["R1"; "R2"]} ∅).

(** Connection [A] has been accepted, and nothing else has happened. *)
Definition connected : world := run [EvConnect "A"] (init ∅ ∅ ∅).

(** Connections [A] and [B] have been accepted, and [B] has asked to join
    the room named after [A]. *)
Definition overheard : world :=
  run [EvConnect "A"; EvConnect "B"; EvJoin "B" (payload "u2" "A")] (init ∅ ∅ ∅).

(** User [u1] says hello in room [R1]. *)
Definition hello : MessageCreateRequest.t :=
  MessageCreateRequest.Make "hello" "u1" "R1" false PNone.

Definition hello_body : Body.t :=
  Body.Make "hello" "u1" "R1" false Omitted.

(** A body flagged as a reply that names no parent, and a reply to a
    message that does not exist. *)
Definition flag_only_body : Body.t :=
  Body.Make "hi" "u1" "R1" true Omitted.

Definition lost_parent_body : Body.t :=
  Body.Make "hi" "u1" "R1" true (Supplied (PStr "nope")).

(** A reply by [u2], posted in room [R2], to the message [m1]. *)
Definition reply_body : Body.t :=
  Body.Make "re: hello" "u2" "R2" true (Supplied (PStr "m1")).

(** The same joins, followed by the post of the hello message. *)
Definition posted : world :=
  run [EvConnect "A"; EvConnect "B"; EvConnect "C";
       EvJoin "A" (payload "u1" "R1");
       EvJoin "B" (payload "u2" "R1");
       EvJoin "C" (payload "u1" "R2");
       EvPostMessage hello_body "m1" 0]
    (init {["u1"; "u2"]} {["R1"; "R2"]} ∅).

(** ** [chatty/routers/messages.py]: the other endpoints *)

(** [schemas/message.py], class [MessageListResponse]. *)
Module MessageListResponse.
Record t := Make {
  messages : list MessageResponse.t;
  total : nat
}.
End MessageListResponse.

(** [schemas/message.py], class [DeleteResponse]. *)
Module DeleteResponse.
Record t := Make {
  deleted : bool
}.
End DeleteResponse.

(** [set_socketio_server]: the module global [sio] takes the server object
    ([true]) or [None] ([false]). *)
Definition set_socketio_server (socketio_server : bool) : M unit := λ w,
  (Ok tt,
   World (mem w) (users w) (chatrooms w) (messages w) socketio_server
     (faults w) (trace w)).

(** [get_message] *)
Definition get_message (message_id : string) : M MessageResponse.t :=
  message ← db_query_message message_id;
  match message with
  | None => raise (HTTPException 404 "Message not found")
  | Some message => ret (MessageResponse.from_orm message)
  end.

(** The rows of a chatroom,
    [db.query(Message).filter(Message.chatroom_id == chatroom_id).all()].
    The query has no [ORDER BY]: the rows come in the order of the store,
    here the order of the map. *)
Definition db_query_messages_of (chatroom_id : string) : M (list Message.t) := λ w,
  (Ok ((map_to_list
          (filter (λ kv, Message.chatroom_id kv.2 = chatroom_id) (messages w))).*2),
   set_trace (ObsQuery "messages.chatroom_id" chatroom_id :: trace w) w).

(** [list_messages_by_chatroom] *)
Definition list_messages_by_chatroom (chatroom_id : string)
    : M MessageListResponse.t :=
  chatroom ← db_query_chatroom chatroom_id;
  (if negb chatroom then raise (HTTPException 404 "Chatroom not found")
   else ret tt) ;;
  messages ← db_query_messages_of chatroom_id;
  let message_responses := MessageResponse.from_orm <$> messages in
  ret (MessageListResponse.Make message_responses (length message_responses)).

(** [db.delete(message); db.commit()]: the row found leaves the store.
    Nothing is done for the rows that name it as their parent: the column
    declares no cascade, and the engine [core/database.py] creates for the
    default database adds no foreign-key enforcement. *)
Definition db_delete_commit (message_id : string) : M unit := λ w,
  (Ok tt, set_messages (delete message_id (messages w)) w).

(** [delete_message] *)
Definition delete_message (message_id : string) : M DeleteResponse.t :=
  message ← db_query_message message_id;
  match message with
  | None => raise (HTTPException 404 "Message not found")
  | Some message =>
      db_delete_commit message_id ;;
      ret (DeleteResponse.Make true)
  end.

(** *** The whole interface *)

(** A request to the server: a Socket.IO event or post (as before), or a
    call of one of the other message endpoints. *)
Inductive request :=
| ReqEvent (ev : event)
| ReqGetMessage (message_id : string)
| ReqListMessages (chatroom_id : string)
| ReqDeleteMessage (message_id : string)
| ReqSetSocketio (socketio_server : bool).

Definition serve (r : request) (w : world) : world :=
  match r with
  | ReqEvent ev => step ev w
  | ReqGetMessage message_id => snd (get_message message_id w)
  | ReqListMessages chatroom_id => snd (list_messages_by_chatroom chatroom_id w)
  | ReqDeleteMessage message_id => snd (delete_message message_id w)
  | ReqSetSocketio socketio_server => snd (set_socketio_server socketio_server w)
  end.

Definition serve_all (rs : list request) (w : world) : world :=
  foldl (λ w r, serve r w) w rs.

(** A stored row is well formed: it sits under its own identifier, its
    reply flag says whether it names a parent, and its text passes the row
    constructor's check. *)
Definition row_ok (key : string) (row : Message.t) : Prop :=
  Message.id row = key ∧
  Message.is_reply row = truthy (Message.parent_message_id row) ∧
  _validate_message_text (Message.message_text row) = Ok tt.

Definition rows_ok (w : world) : Prop :=
  ∀ key row, messages w !! key = Some row → row_ok key row.

(** The deliveries of one emission: the [new_message] event of a row, sent
    to each of [sids]. *)
Definition burst (row : Message.t) (sids : list string) : list obs :=
  (λ sid, ObsSend sid "new_message" (WMessage (MessageResponse.from_orm row)))
    <$> sids.

(** What one request adds to the trace: no delivery at all, or the
    deliveries of one row sitting directly on the commit of that row. *)
Definition quiet_or_burst : relation world := λ w w',
  ∃ new, added w w' new ∧
    (Forall not_delivery new ∨
     ∃ top row sids below,
       new = (top ++ burst row sids ++ ObsCommit row :: below)%list ∧
       Forall not_delivery top ∧ Forall not_delivery below).

(** The trace below a delivery of [m] starts with another delivery of [m]
    or with the commit of [m]. *)
Definition directly_after_commit (m : MessageResponse.t) (older : list obs) : Prop :=
  (∃ sid rest, older = ObsSend sid "new_message" (WMessage m) :: rest) ∨
  (∃ row rest, older = ObsCommit row :: rest ∧ MessageResponse.from_orm row = m).

(** Every delivery in the trace sits directly on its commit. *)
Fixpoint delivered_at_commit (tr : list obs) : Prop :=
  match tr with
  | [] => True
  | o :: older =>
      (∀ sid m, o = ObsSend sid "new_message" (WMessage m) →
                directly_after_commit m older)
      ∧ delivered_at_commit older
  end.

(** A store with a message and a reply to it. *)
Definition replied : world :=
  snd (post_message reply_body "m2" 1 posted).

(** The rows of the store that belong to a chatroom. *)
Definition rows_of (chatroom_id : string) (ms : gmap string Message.t)
    : gmap string Message.t :=
  filter (λ kv, Message.chatroom_id kv.2 = chatroom_id) ms.

(** The listing shows exactly the rows of the chatroom: each response in
    it is that of a stored row of the chatroom and each such row is shown,
    and [total] counts them. *)
Definition lists_exactly (w : world) (chatroom_id : string)
    (listing : MessageListResponse.t) : Prop :=
  (∀ r, r ∈ MessageListResponse.messages listing ↔
        ∃ key row, messages w !! key = Some row ∧
                   Message.chatroom_id row = chatroom_id ∧
                   r = MessageResponse.from_orm row) ∧
  MessageListResponse.total listing = length (MessageListResponse.messages listing) ∧
  MessageListResponse.total listing = size (rows_of chatroom_id (messages w)).

(** The payload of the error event of the [except] branches. *)
Definition error_occurred : wire :=
  WDict [("message", PStr "An error occurred")].

(** The handler called [name] let an exception out only after logging an
    earlier one, and without having delivered anything. *)
Definition escaped_after_logging (name : string) (w w' : world) : Prop :=
  ∃ first new,
    added w w' new ∧
    head new = Some (ObsLog ERROR ("Error in " +:+ name +:+ " event: "
                                   +:+ exn_str first)) ∧
    ∀ sid event data, ObsSend sid event data ∉ new.

(** [Message.update_message_text] *)
Definition update_message_text (self : Message.t) (new_text : string)
    : result Message.t :=
  match _validate_message_text new_text with
  | Raise e => Raise e
  | Ok _ =>
      Ok (Message.Make (Message.id self) new_text (Message.user_id self)
            (Message.chatroom_id self) (Message.is_reply self)
            (Message.parent_message_id self) (Message.created_date self)
            (Message.last_updated_date self))
  end.

(** A text with no whitespace at either end. *)
Definition trimmed (s : string) : Prop := strip s = s.

(** ** Users: [models/user.py], [schemas/user.py], [routers/users.py] *)

(** [str.lower] on the ASCII range. *)
Definition py_lower_char (a : Ascii.ascii) : Ascii.ascii :=
  let n := Ascii.nat_of_ascii a in
  if (65 <=? n)%nat && (n <=? 90)%nat then Ascii.ascii_of_nat (n + 32) else a.

Fixpoint py_lower (s : string) : string :=
  match s with
  | EmptyString => EmptyString
  | String a s' => String (py_lower_char a) (py_lower s')
  end.

(** The character class [[a-z0-9_]]. *)
Definition is_handle_char (a : Ascii.ascii) : bool :=
  let n := Ascii.nat_of_ascii a in
  ((97 <=? n)%nat && (n <=? 122)%nat) || ((48 <=? n)%nat && (n <=? 57)%nat)
  || (n =? 95)%nat.

Fixpoint all_chars (P : Ascii.ascii → bool) (s : string) : bool :=
  match s with
  | EmptyString => true
  | String a s' => P a && all_chars P s'
  end.

(** The string without its final newline, if it ends in one: where [$]
    matches. *)
Fixpoint chomp (s : string) : string :=
  match s with
  | EmptyString => EmptyString
  | String a s' =>
      match s' with
      | EmptyString => if (Ascii.nat_of_ascii a =? 10)%nat then EmptyString else s
      | _ => String a (chomp s')
      end
  end.

(** [re.match(r'^[a-z0-9_]+$', s)]: one or more characters of the class, up
    to the end of the string or to its final newline. *)
Definition re_match_handle (s : string) : bool :=
  negb (bool_decide (chomp s = "")) && all_chars is_handle_char (chomp s).

(** [User._validate_and_normalize_handle] *)
Definition _validate_and_normalize_handle (handle : string) : result string :=
  if bool_decide (handle = "") then
    Raise (ValueError "Handle cannot be empty")
  else
    let normalized_handle := strip (py_lower handle) in
    if negb (re_match_handle normalized_handle) then
      Raise (ValueError
               "Handle can only contain lowercase letters, numbers, and underscores")
    else if (50 <? String.length normalized_handle)%nat then
      Raise (ValueError "Handle cannot exceed 50 characters")
    else if (String.length normalized_handle <? 1)%nat then
      Raise (ValueError "Handle must be at least 1 character")
    else Ok normalized_handle.

(** [models/user.py], class [User], with the columns of [BaseModel]; the
    defaulted columns are [""] and [0] before the flush. *)
Module User.
Record t := Make {
  id : string;
  name : string;
  handle : string;
  created_date : Z;
  last_updated_date : Z
}.
End User.

(** [User.__init__] *)
Definition User_init (name handle : string) : result User.t :=
  match _validate_and_normalize_handle handle with
  | Raise e => Raise e
  | Ok normalized_handle => Ok (User.Make "" name normalized_handle 0 0)
  end.

(** [User.update_handle] *)
Definition update_handle (self : User.t) (new_handle : string) : result User.t :=
  match _validate_and_normalize_handle new_handle with
  | Raise e => Raise e
  | Ok handle =>
      Ok (User.Make (User.id self) (User.name self) handle
            (User.created_date self) (User.last_updated_date self))
  end.

(** [schemas/user.py], class [UserCreateRequest]. *)
Module UserCreateRequest.
Record t := Make {
  name : string;
  handle : string
}.
End UserCreateRequest.

(** [UserCreateRequest.validate_name] *)
Definition validate_name (v : string) : result string :=
  if bool_decide (v = "") || bool_decide (strip v = "") then
    Raise (ValueError "Name cannot be empty")
  else Ok (strip v).

(** [UserCreateRequest.validate_handle] *)
Definition validate_handle (v : string) : result string :=
  if bool_decide (v = "") || bool_decide (strip v = "") then
    Raise (ValueError "Handle cannot be empty")
  else
    let normalized := strip (py_lower v) in
    if negb (re_match_handle normalized) then
      Raise (ValueError
               "Handle can only contain lowercase letters, numbers, and underscores")
    else Ok normalized.

(** Building a [UserCreateRequest] from the two strings of the body: each
    field is checked against its length bounds ([name] 1 to 255, [handle]
    1 to 50), then by its validator. *)
Definition parse_user_create (name handle : string)
    : result UserCreateRequest.t :=
  if negb ((1 <=? String.length name)%nat && (String.length name <=? 255)%nat) then
    Raise (RequestValidationError "name: length out of bounds")
  else
    match validate_name name with
    | Raise e => Raise (RequestValidationError (exn_str e))
    | Ok name' =>
        if negb ((1 <=? String.length handle)%nat
                 && (String.length handle <=? 50)%nat) then
          Raise (RequestValidationError "handle: length out of bounds")
        else
          match validate_handle handle with
          | Raise e => Raise (RequestValidationError (exn_str e))
          | Ok handle' => Ok (UserCreateRequest.Make name' handle')
          end
    end.

(** [schemas/user.py], class [UserResponse]. *)
Module UserResponse.
Record t := Make {
  id : string;
  name : string;
  handle : string;
  created_date : Z;
  last_updated_date : Z
}.

Definition from_orm (u : User.t) : t :=
  {| id := User.id u;
     name := User.name u;
     handle := User.handle u;
     created_date := User.created_date u;
     last_updated_date := User.last_updated_date u |}.
End UserResponse.

(** Modelled from the spec: the users table of the Persistence Store, the
    rows by identifier.  The commit of a new row raises [IntegrityError]
    when the identifier is taken or when another row holds the handle (the
    column is declared [unique=True]); the flush fills the defaulted
    columns. *)
Definition handle_taken (handle : string) (except_id : string)
    (users : gmap string User.t) : Prop :=
  ∃ key row, users !! key = Some row ∧ key ≠ except_id ∧ User.handle row = handle.

Global Instance handle_taken_dec handle except_id users :
  Decision (handle_taken handle except_id users).
Proof.
  refine (cast_if (decide (Exists
            (λ kv : string * User.t, kv.1 ≠ except_id ∧ User.handle kv.2 = handle)
            (map_to_list users))));
    unfold handle_taken; rewrite Exists_exists in *.
  - destruct e as ([key row] & Hin & Hne & Hh).
    exists key, row. by apply elem_of_map_to_list in Hin.
  - intros (key & row & Hk & Hne & Hh). apply n.
    exists (key, row). by apply elem_of_map_to_list in Hk.
Defined.

Definition users_add_commit_refresh (u : User.t) (uuid4 : string) (utcnow : Z)
    (users : gmap string User.t) : result User.t * gmap string User.t :=
  let row := User.Make uuid4 (User.name u) (User.handle u) utcnow utcnow in
  if bool_decide (is_Some (users !! uuid4)) then
    (Raise (IntegrityError "UNIQUE constraint failed: users.id"), users)
  else if bool_decide (handle_taken (User.handle u) uuid4 users) then
    (Raise (IntegrityError "UNIQUE constraint failed: users.handle"), users)
  else (Ok row, <[uuid4 := row]> users).

(** [create_user].  The two [except] clauses are told apart by the class
    of the exception; both roll back, which leaves the table as it was. *)
Definition create_user (user_data : UserCreateRequest.t) (uuid4 : string)
    (utcnow : Z) (users : gmap string User.t)
    : result UserResponse.t * gmap string User.t :=
  match User_init (UserCreateRequest.name user_data)
          (UserCreateRequest.handle user_data) with
  | Raise (IntegrityError _) =>
      (Raise (HTTPException 409 "User with this handle already exists"), users)
  | Raise (ValueError msg) => (Raise (HTTPException 400 msg), users)
  | Raise e => (Raise e, users)
  | Ok db_user =>
      match users_add_commit_refresh db_user uuid4 utcnow users with
      | (Raise (IntegrityError _), _) =>
          (Raise (HTTPException 409 "User with this handle already exists"), users)
      | (Raise (ValueError msg), _) => (Raise (HTTPException 400 msg), users)
      | (Raise e, _) => (Raise e, users)
      | (Ok db_user, users') => (Ok (UserResponse.from_orm db_user), users')
      end
  end.

(** The endpoint as a client reaches it. *)
Definition post_user (name handle : string) (uuid4 : string) (utcnow : Z)
    (users : gmap string User.t)
    : result UserResponse.t * gmap string User.t :=
  match parse_user_create name handle with
  | Raise e => (Raise e, users)
  | Ok user_data => create_user user_data uuid4 utcnow users
  end.

(** [get_user] *)
Definition get_user (user_id : string) (users : gmap string User.t)
    : result UserResponse.t :=
  match users !! user_id with
  | None => Raise (HTTPException 404 "User not found")
  | Some user => Ok (UserResponse.from_orm user)
  end.

(** [delete_user].  The deletion is not inside a [try]: what the commit
    raises leaves the handler as it is, and the row stays.  [commit] is
    what the commit raises, if anything: the rows of
    [chatroom_participants] that name the user are not part of this table,
    and the relationship of [models/user.py] declares no cascade for
    them. *)
Definition delete_user (user_id : string) (commit : option exn)
    (users : gmap string User.t)
    : result DeleteResponse.t * gmap string User.t :=
  match users !! user_id with
  | None => (Raise (HTTPException 404 "User not found"), users)
  | Some user =>
      match commit with
      | Some e => (Raise e, users)
      | None => (Ok (DeleteResponse.Make true), delete user_id users)
      end
  end.

(** [schemas/user.py], class [UserUpdateRequest]: both fields default to
    [None]. *)
Module UserUpdateRequest.
Record t := Make {
  name : option string;
  handle : option string
}.

(** [UserUpdateRequest.validate_name] *)
Definition validate_name (v : option string) : result (option string) :=
  match v with
  | Some s =>
      if bool_decide (s = "") || bool_decide (strip s = "") then
        Raise (ValueError "Name cannot be empty")
      else Ok (Some (strip s))
  | None => Ok None
  end.

(** [UserUpdateRequest.validate_handle] *)
Definition validate_handle (v : option string) : result (option string) :=
  match v with
  | Some s =>
      if bool_decide (s = "") || bool_decide (strip s = "") then
        Raise (ValueError "Handle cannot be empty")
      else
        let normalized := strip (py_lower s) in
        if negb (re_match_handle normalized) then
          Raise (ValueError
                   "Handle can only contain lowercase letters, numbers, and underscores")
        else Ok (Some normalized)
  | None => Ok None
  end.
End UserUpdateRequest.

(** Building a [UserUpdateRequest] from the body: a field that is left
    out keeps its default [None], on which nothing runs; a field that is
    given a string is checked against its length bounds ([name] 1 to 255,
    [handle] 1 to 50), then by its validator. *)
Definition parse_user_update (name handle : option string)
    : result UserUpdateRequest.t :=
  let checked (field : string) (max_length : nat) (v : option string)
      (validate : option string → result (option string)) :=
    match v with
    | None => Ok None
    | Some s =>
        if negb ((1 <=? String.length s)%nat
                 && (String.length s <=? max_length)%nat) then
          Raise (RequestValidationError (field +:+ ": length out of bounds"))
        else
          match validate (Some s) with
          | Raise e => Raise (RequestValidationError (exn_str e))
          | Ok v' => Ok v'
          end
    end in
  match checked "name" 255%nat name UserUpdateRequest.validate_name with
  | Raise e => Raise e
  | Ok name' =>
      match checked "handle" 50%nat handle UserUpdateRequest.validate_handle with
      | Raise e => Raise e
      | Ok handle' => Ok (UserUpdateRequest.Make name' handle')
      end
  end.

(** [update_user].  The changes are made on the row in the session; the
    commit raises [IntegrityError] when the new handle is held by another
    row; [onupdate] stamps a row that has changed.  Either [except] clause
    rolls the session back, so a refused update changes nothing. *)
Definition update_user (user_id : string) (user_data : UserUpdateRequest.t)
    (utcnow : Z) (users : gmap string User.t)
    : result UserResponse.t * gmap string User.t :=
  match users !! user_id with
  | None => (Raise (HTTPException 404 "User not found"), users)
  | Some user =>
      let named :=
        match UserUpdateRequest.name user_data with
        | Some name =>
            User.Make (User.id user) name (User.handle user)
              (User.created_date user) (User.last_updated_date user)
        | None => user
        end in
      let handled :=
        match UserUpdateRequest.handle user_data with
        | Some handle => update_handle named handle
        | None => Ok named
        end in
      match handled with
      | Raise (IntegrityError _) =>
          (Raise (HTTPException 409 "User with this handle already exists"), users)
      | Raise (ValueError msg) => (Raise (HTTPException 400 msg), users)
      | Raise e => (Raise e, users)
      | Ok changed =>
          if bool_decide (handle_taken (User.handle changed) user_id users) then
            (Raise (HTTPException 409 "User with this handle already exists"), users)
          else
            let row :=
              if bool_decide (User.name changed = User.name user
                              ∧ User.handle changed = User.handle user)
              then user
              else User.Make (User.id changed) (User.name changed)
                     (User.handle changed) (User.created_date changed) utcnow in
            (Ok (UserResponse.from_orm row), <[user_id := row]> users)
      end
  end.

(** The endpoint as a client reaches it: the body is parsed into the
    update schema first, and a body the schema rejects never reaches the
    handler. *)
Definition put_user (user_id : string) (name handle : option string)
    (utcnow : Z) (users : gmap string User.t)
    : result UserResponse.t * gmap string User.t :=
  match parse_user_update name handle with
  | Raise e => (Raise e, users)
  | Ok user_data => update_user user_id user_data utcnow users
  end.

(** No two rows of the table hold the same handle. *)
Definition handles_unique (users : gmap string User.t) : Prop :=
  ∀ k1 k2 r1 r2, users !! k1 = Some r1 → users !! k2 = Some r2 →
                  User.handle r1 = User.handle r2 → k1 = k2.

(** A handle in its stored form: one to fifty characters, each a lower-case
    letter, a digit or an underscore. *)
Definition handle_shape (h : string) : Prop :=
  (1 ≤ String.length h ≤ 50)%nat ∧ all_chars is_handle_char h = true.

(** A request on the users table. *)
Inductive user_request :=
| UPost (name handle : string) (uuid4 : string) (utcnow : Z)
| UPut (user_id : string) (user_data : UserUpdateRequest.t) (utcnow : Z)
| UDelete (user_id : string) (commit : option exn).

Definition user_serve (r : user_request) (users : gmap string User.t)
    : gmap string User.t :=
  match r with
  | UPost name handle uuid4 utcnow => snd (post_user name handle uuid4 utcnow users)
  | UPut user_id user_data utcnow => snd (update_user user_id user_data utcnow users)
  | UDelete user_id commit => snd (delete_user user_id commit users)
  end.

Definition user_serve_all (rs : list user_request) (users : gmap string User.t)
    : gmap string User.t :=
  foldl (λ users r, user_serve r users) users rs.

(** The users table is well formed: every row sits under its own
    identifier with a handle in stored form, and no two rows share a
    handle. *)
Definition users_ok (users : gmap string User.t) : Prop :=
  (∀ key row, users !! key = Some row →
              User.id row = key ∧ handle_shape (User.handle row)) ∧
  handles_unique users.

(** The answer to a request that names a handle already in the table. *)
Definition handle_conflict : exn :=
  HTTPException 409 "User with this handle already exists".

(** ** Chatrooms: [models/chatroom.py], [schemas/chatroom.py],
    [routers/chatrooms.py] *)

(** [Chatroom._validate_and_normalize_name] *)
Definition _validate_and_normalize_name (name : string) : result string :=
  if bool_decide (name = "") then
    Raise (ValueError "Name cannot be empty")
  else
    let normalized_name := strip (py_lower name) in
    if negb (re_match_handle normalized_name) then
      Raise (ValueError
               "Name can only contain lowercase letters, numbers, and underscores")
    else if (100 <? String.length normalized_name)%nat then
      Raise (ValueError "Name cannot exceed 100 characters")
    else if (String.length normalized_name <? 1)%nat then
      Raise (ValueError "Name must be at least 1 character")
    else Ok normalized_name.

(** [models/chatroom.py], class [Chatroom], with the columns of
    [BaseModel]. *)
Module Chatroom.
Record t := Make {
  id : string;
  name : string;
  created_date : Z;
  last_updated_date : Z
}.
End Chatroom.

(** [Chatroom.__init__] *)
Definition Chatroom_init (name : string) : result Chatroom.t :=
  match _validate_and_normalize_name name with
  | Raise e => Raise e
  | Ok normalized_name => Ok (Chatroom.Make "" normalized_name 0 0)
  end.

(** [Chatroom.update_name] *)
Definition update_name (self : Chatroom.t) (new_name : string) : result Chatroom.t :=
  match _validate_and_normalize_name new_name with
  | Raise e => Raise e
  | Ok name =>
      Ok (Chatroom.Make (Chatroom.id self) name
            (Chatroom.created_date self) (Chatroom.last_updated_date self))
  end.

(** [schemas/chatroom.py], class [ChatroomCreateRequest]. *)
Module ChatroomCreateRequest.
Record t := Make {
  name : string
}.

(** [ChatroomCreateRequest.validate_name] *)
Definition validate_name (v : string) : result string :=
  if bool_decide (v = "") || bool_decide (strip v = "") then
    Raise (ValueError "Name cannot be empty")
  else
    let normalized := strip (py_lower v) in
    if negb (re_match_handle normalized) then
      Raise (ValueError
               "Name can only contain lowercase letters, numbers, and underscores")
    else Ok normalized.
End ChatroomCreateRequest.

(** Building a [ChatroomCreateRequest] from the string of the body: the
    length bounds (1 to 100), then the validator. *)
Definition parse_chatroom_create (name : string) : result ChatroomCreateRequest.t :=
  if negb ((1 <=? String.length name)%nat && (String.length name <=? 100)%nat) then
    Raise (RequestValidationError "name: length out of bounds")
  else
    match ChatroomCreateRequest.validate_name name with
    | Raise e => Raise (RequestValidationError (exn_str e))
    | Ok name' => Ok (ChatroomCreateRequest.Make name')
    end.

(** [schemas/chatroom.py], class [ChatroomResponse]. *)
Module ChatroomResponse.
Record t := Make {
  id : string;
  name : string;
  created_date : Z;
  last_updated_date : Z
}.

Definition from_orm (c : Chatroom.t) : t :=
  {| id := Chatroom.id c;
     name := Chatroom.name c;
     created_date := Chatroom.created_date c;
     last_updated_date := Chatroom.last_updated_date c |}.
End ChatroomResponse.

(** Modelled from the spec: the chatrooms table of the Persistence Store,
    the rows by identifier.  The commit of a row raises [IntegrityError]
    when the identifier is taken or when another row holds the name (the
    column is declared [unique=True]). *)
Definition name_taken (name : string) (except_id : string)
    (rooms : gmap string Chatroom.t) : Prop :=
  ∃ key row, rooms !! key = Some row ∧ key ≠ except_id ∧ Chatroom.name row = name.

Global Instance name_taken_dec name except_id rooms :
  Decision (name_taken name except_id rooms).
Proof.
  refine (cast_if (decide (Exists
            (λ kv : string * Chatroom.t, kv.1 ≠ except_id ∧ Chatroom.name kv.2 = name)
            (map_to_list rooms))));
    unfold name_taken; rewrite Exists_exists in *.
  - destruct e as ([key row] & Hin & Hne & Hh).
    exists key, row. by apply elem_of_map_to_list in Hin.
  - intros (key & row & Hk & Hne & Hh). apply n.
    exists (key, row). by apply elem_of_map_to_list in Hk.
Defined.

Definition chatrooms_add_commit_refresh (c : Chatroom.t) (uuid4 : string)
    (utcnow : Z) (rooms : gmap string Chatroom.t)
    : result Chatroom.t * gmap string Chatroom.t :=
  let row := Chatroom.Make uuid4 (Chatroom.name c) utcnow utcnow in
  if bool_decide (is_Some (rooms !! uuid4)) then
    (Raise (IntegrityError "UNIQUE constraint failed: chatrooms.id"), rooms)
  else if bool_decide (name_taken (Chatroom.name c) uuid4 rooms) then
    (Raise (IntegrityError "UNIQUE constraint failed: chatrooms.name"), rooms)
  else (Ok row, <[uuid4 := row]> rooms).

(** The answer to a request that names a chatroom name already in the
    table. *)
Definition name_conflict : exn :=
  HTTPException 409 "Chatroom with this name already exists".

(** [create_chatroom] *)
Definition create_chatroom (chatroom_data : ChatroomCreateRequest.t)
    (uuid4 : string) (utcnow : Z) (rooms : gmap string Chatroom.t)
    : result ChatroomResponse.t * gmap string Chatroom.t :=
  match Chatroom_init (ChatroomCreateRequest.name chatroom_data) with
  | Raise (IntegrityError _) => (Raise name_conflict, rooms)
  | Raise (ValueError msg) => (Raise (HTTPException 400 msg), rooms)
  | Raise e => (Raise e, rooms)
  | Ok db_chatroom =>
      match chatrooms_add_commit_refresh db_chatroom uuid4 utcnow rooms with
      | (Raise (IntegrityError _), _) => (Raise name_conflict, rooms)
      | (Raise (ValueError msg), _) => (Raise (HTTPException 400 msg), rooms)
      | (Raise e, _) => (Raise e, rooms)
      | (Ok db_chatroom, rooms') => (Ok (ChatroomResponse.from_orm db_chatroom), rooms')
      end
  end.

(** The endpoint as a client reaches it. *)
Definition post_chatroom (name : string) (uuid4 : string) (utcnow : Z)
    (rooms : gmap string Chatroom.t)
    : result ChatroomResponse.t * gmap string Chatroom.t :=
  match parse_chatroom_create name with
  | Raise e => (Raise e, rooms)
  | Ok chatroom_data => create_chatroom chatroom_data uuid4 utcnow rooms
  end.

(** [get_chatroom] *)
Definition get_chatroom (chatroom_id : string) (rooms : gmap string Chatroom.t)
    : result ChatroomResponse.t :=
  match rooms !! chatroom_id with
  | None => Raise (HTTPException 404 "Chatroom not found")
  | Some chatroom => Ok (ChatroomResponse.from_orm chatroom)
  end.

(** [schemas/chatroom.py], class [ChatroomUpdateRequest]: the field
    defaults to [None]. *)
Module ChatroomUpdateRequest.
Record t := Make {
  name : option string
}.
End ChatroomUpdateRequest.

(** [update_chatroom].  [onupdate] stamps a row that has changed. *)
Definition update_chatroom (chatroom_id : string)
    (chatroom_data : ChatroomUpdateRequest.t)
    (utcnow : Z) (rooms : gmap string Chatroom.t)
    : result ChatroomResponse.t * gmap string Chatroom.t :=
  match rooms !! chatroom_id with
  | None => (Raise (HTTPException 404 "Chatroom not found"), rooms)
  | Some chatroom =>
      let named :=
        match ChatroomUpdateRequest.name chatroom_data with
        | Some name => update_name chatroom name
        | None => Ok chatroom
        end in
      match named with
      | Raise (IntegrityError _) => (Raise name_conflict, rooms)
      | Raise (ValueError msg) => (Raise (HTTPException 400 msg), rooms)
      | Raise e => (Raise e, rooms)
      | Ok changed =>
          if bool_decide (name_taken (Chatroom.name changed) chatroom_id rooms) then
            (Raise name_conflict, rooms)
          else
            let row :=
              if bool_decide (Chatroom.name changed = Chatroom.name chatroom)
              then chatroom
              else Chatroom.Make (Chatroom.id changed) (Chatroom.name changed)
                     (Chatroom.created_date changed) utcnow in
            (Ok (ChatroomResponse.from_orm row), <[chatroom_id := row]> rooms)
      end
  end.

(** [delete_chatroom].  As in [delete_user], the deletion is not inside a
    [try]: what the commit raises ([commit]) leaves the handler as it is,
    and the row stays. *)
Definition delete_chatroom (chatroom_id : string) (commit : option exn)
    (rooms : gmap string Chatroom.t)
    : result DeleteResponse.t * gmap string Chatroom.t :=
  match rooms !! chatroom_id with
  | None => (Raise (HTTPException 404 "Chatroom not found"), rooms)
  | Some chatroom =>
      match commit with
      | Some e => (Raise e, rooms)
      | None => (Ok (DeleteResponse.Make true), delete chatroom_id rooms)
      end
  end.

(** A chatroom name in its stored form: one to a hundred characters, each
    a lower-case letter, a digit or an underscore. *)
Definition name_shape (n : string) : Prop :=
  (1 ≤ String.length n ≤ 100)%nat ∧ all_chars is_handle_char n = true.

(** The chatrooms table is well formed: every row sits under its own
    identifier with a name in stored form, and no two rows share a name. *)
Definition chatrooms_ok (rooms : gmap string Chatroom.t) : Prop :=
  (∀ key row, rooms !! key = Some row →
              Chatroom.id row = key ∧ name_shape (Chatroom.name row)) ∧
  (∀ k1 k2 r1 r2, rooms !! k1 = Some r1 → rooms !! k2 = Some r2 →
                  Chatroom.name r1 = Chatroom.name r2 → k1 = k2).

(** A request on the chatrooms table. *)
Inductive chatroom_request :=
| CPost (name : string) (uuid4 : string) (utcnow : Z)
| CPut (chatroom_id : string) (chatroom_data : ChatroomUpdateRequest.t) (utcnow : Z)
| CDelete (chatroom_id : string) (commit : option exn).

Definition chatroom_serve (r : chatroom_request) (rooms : gmap string Chatroom.t)
    : gmap string Chatroom.t :=
  match r with
  | CPost name uuid4 utcnow => snd (post_chatroom name uuid4 utcnow rooms)
  | CPut chatroom_id chatroom_data utcnow =>
      snd (update_chatroom chatroom_id chatroom_data utcnow rooms)
  | CDelete chatroom_id commit => snd (delete_chatroom chatroom_id commit rooms)
  end.

Definition chatroom_serve_all (rs : list chatroom_request)
    (rooms : gmap string Chatroom.t) : gmap string Chatroom.t :=
  foldl (λ rooms r, chatroom_serve r rooms) rooms rs.

(** ** Participants: [schemas/chatroom_participant.py] *)

(** The character class [[0-9a-f]]. *)
Definition is_hex_char (a : Ascii.ascii) : bool :=
  let n := Ascii.nat_of_ascii a in
  ((48 <=? n)%nat && (n <=? 57)%nat) || ((97 <=? n)%nat && (n <=? 102)%nat).

Definition is_dash (a : Ascii.ascii) : bool := (Ascii.nat_of_ascii a =? 45)%nat.

(** The pattern
    [[0-9a-f]{8}-[0-9a-f]{4}-[0-9a-f]{4}-[0-9a-f]{4}-[0-9a-f]{12}] from
    position [i] on: thirty-six characters, a dash at the positions 8, 13,
    18 and 23, a digit of the class at the others. *)
Fixpoint uuid_chars (i : nat) (s : string) : bool :=
  match s with
  | EmptyString => (i =? 36)%nat
  | String a s' =>
      (i <? 36)%nat
      && (if bool_decide (i ∈ [8; 13; 18; 23]%nat) then is_dash a else is_hex_char a)
      && uuid_chars (S i) s'
  end.

(** [re.match(uuid_pattern, s)]: the pattern up to the end of the string
    or to its final newline. *)
Definition re_match_uuid (s : string) : bool := uuid_chars 0 (chomp s).

(** [ChatroomParticipantCreateRequest.validate_uuids] *)
Definition validate_uuids (v : string) : result string :=
  if bool_decide (v = "") || bool_decide (strip v = "") then
    Raise (ValueError "UUID cannot be empty")
  else if negb (re_match_uuid (py_lower v)) then
    Raise (ValueError "Invalid UUID format")
  else Ok (strip v).

(** The line feed. *)
Definition newline : string := String (Ascii.ascii_of_nat 10) EmptyString.

(** A character that is no whitespace. *)
Definition not_space (a : Ascii.ascii) : bool := negb (py_isspace a).

(** ** Start-up: [core/config.py], [main.py] *)

(** [core/config.py], class [Settings]: the field the start-up reads. *)
Module Settings.
Record t := Make {
  app_env : string
}.

(** [Settings.validate_app_env] *)
Definition validate_app_env (v : string) : result string :=
  if bool_decide (v ∈ ["development"; "staging"; "production"]) then Ok v
  else Raise (ValueError
                "APP_ENV must be one of ['development', 'staging', 'production']").

(** The properties [is_production] and [is_development]. *)
Definition is_production (self : t) : bool :=
  bool_decide (app_env self = "production").

Definition is_development (self : t) : bool :=
  bool_decide (app_env self = "development").

(** [Settings()] with [APP_ENV] set to [v], or left to its default
    ["development"], on which the validator does not run.  A value the
    validator refuses makes the construction fail. *)
Definition load (v : option string) : result t :=
  match v with
  | None => Ok (Make "development")
  | Some v =>
      match validate_app_env v with
      | Raise e => Raise e
      | Ok v' => Ok (Make v')
      end
  end.
End Settings.

(** Modelled from the spec: [Base.metadata.drop_all] leaves the
    Persistence Store without a table, hence without a row;
    [create_tables] creates the tables that are missing and leaves the
    others as they are. *)
Definition drop_all : M unit := λ w,
  (Ok tt, World (mem w) ∅ ∅ ∅ (sio w) (faults w) (trace w)).

Definition create_tables : M unit := ret tt.

(** [startup_event]; the key-value pairs bound to the first log entry are
    not part of its text. *)
Definition startup_event (settings : Settings.t) : M unit :=
  logger_info "Starting up Chatty Backend application" ;;
  (if Settings.is_development settings then
     drop_all ;;
     logger_info "Existing database tables dropped (development mode)"
   else ret tt) ;;
  create_tables ;;
  logger_info "Database tables created/verified successfully".

(** The store of [w'] is that of [w]. *)
Definition same_store (w w' : world) : Prop :=
  users w' = users w ∧ chatrooms w' = chatrooms w ∧ messages w' = messages w.

(** The store holds nothing. *)
Definition empty_store (w : world) : Prop :=
  users w = ∅ ∧ chatrooms w = ∅ ∧ messages w = ∅.

(** ** Lemmas on the registry *)

Section registry_lemmas.
Import Registry.

(** Case analysis on every decision left in the goal. *)
Ltac split_decide :=
  repeat match goal with
         | |- context [decide ?P] => destruct (decide P); subst
         end.

Lemma lookup_registry_remove c r reg r' :
  default ∅ (registry_remove c r reg !! r') =
  if decide (r = r') then default ∅ (reg !! r') ∖ {[c]} else default ∅ (reg !! r').
Proof.
  unfold registry_remove.
  destruct (reg !! r) as [S|] eqn:Hr.
  - destruct (decide (S ∖ {[c]} = ∅)) as [He|He].
    + case_decide; subst.
      * rewrite lookup_delete_eq, Hr; simpl. by rewrite He.
      * by rewrite lookup_delete_ne.
    + case_decide; subst.
      * by rewrite lookup_insert_eq, Hr.
      * by rewrite lookup_insert_ne.
  - case_decide; subst; [|done].
    rewrite Hr; simpl. set_solver.
Qed.

Lemma Members_Join c r m r' :
  Members (Join c r m) r' =
  if decide (r = r') then {[c]} ∪ Members m r' else Members m r'.
Proof.
  unfold Members, Join; simpl.
  case_decide; subst; [by rewrite lookup_insert_eq | by rewrite lookup_insert_ne].
Qed.

Lemma Rooms_Join c r m c' :
  Rooms (Join c r m) c' =
  if decide (c = c') then {[r]} ∪ Rooms m c' else Rooms m c'.
Proof.
  unfold Rooms, Join; simpl.
  case_decide; subst; [by rewrite lookup_insert_eq | by rewrite lookup_insert_ne].
Qed.

Lemma Members_Leave c r m r' :
  Members (Leave c r m) r' =
  if decide (r = r') then Members m r' ∖ {[c]} else Members m r'.
Proof. unfold Members, Leave; simpl. apply lookup_registry_remove. Qed.

Lemma Rooms_Leave c r m c' :
  Rooms (Leave c r m) c' =
  if decide (c = c') then Rooms m c' ∖ {[r]} else Rooms m c'.
Proof.
  unfold Rooms, Leave, session_remove; simpl.
  destruct (session m !! c) as [R|] eqn:Hc.
  - case_decide; subst; [by rewrite lookup_insert_eq, Hc | by rewrite lookup_insert_ne].
  - case_decide; subst; [|done]. rewrite Hc; simpl. set_solver.
Qed.

Lemma lookup_foldr_registry_remove c (l : list string) reg r' :
  default ∅ (foldr (registry_remove c) reg l !! r') =
  if decide (r' ∈ l) then default ∅ (reg !! r') ∖ {[c]} else default ∅ (reg !! r').
Proof.
  induction l as [|r l IH]; cbn [foldr].
  - destruct (decide (r' ∈ [])) as [H|]; [set_solver | done].
  - rewrite lookup_registry_remove, IH.
    destruct (decide (r = r')) as [->|Hne].
    + rewrite (decide_True (P := r' ∈ r' :: l)) by set_solver.
      destruct (decide (r' ∈ l)); set_solver.
    + destruct (decide (r' ∈ l)).
      * by rewrite decide_True by set_solver.
      * by rewrite decide_False by set_solver.
Qed.

Lemma Members_DropConnection c m r' :
  Members (DropConnection c m) r' =
  if decide (r' ∈ Rooms m c) then Members m r' ∖ {[c]} else Members m r'.
Proof.
  unfold Members at 1, DropConnection; simpl.
  rewrite lookup_foldr_registry_remove.
  split_decide; try done; set_solver.
Qed.

Lemma Rooms_DropConnection c m c' :
  Rooms (DropConnection c m) c' =
  if decide (c = c') then ∅ else Rooms m c'.
Proof.
  unfold Rooms, DropConnection; simpl.
  case_decide; subst; [by rewrite lookup_delete_eq | by rewrite lookup_delete_ne].
Qed.

Lemma inverse_empty : inverse empty.
Proof. intros c r. unfold Members, Rooms; simpl. rewrite !lookup_empty; simpl. set_solver. Qed.

Lemma inverse_Join c r m : inverse m → inverse (Join c r m).
Proof.
  intros Hm c' r'. rewrite Members_Join, Rooms_Join.
  specialize (Hm c' r'). split_decide; set_solver.
Qed.

Lemma inverse_Leave c r m : inverse m → inverse (Leave c r m).
Proof.
  intros Hm c' r'. rewrite Members_Leave, Rooms_Leave.
  specialize (Hm c' r'). split_decide; set_solver.
Qed.

Lemma inverse_DropConnection c m : inverse m → inverse (DropConnection c m).
Proof.
  intros Hm c' r'. rewrite Members_DropConnection, Rooms_DropConnection.
  pose proof (Hm c' r'). pose proof (Hm c r').
  split_decide; set_solver.
Qed.

Lemma inverse_apply_op o m : inverse m → inverse (apply_op o m).
Proof.
  destruct o; simpl; auto using inverse_Join, inverse_Leave, inverse_DropConnection.
Qed.

Lemma inverse_run_ops ops m : inverse m → inverse (run_ops ops m).
Proof.
  revert m. induction ops as [|o ops IH]; intros m Hm; simpl; [done|].
  apply IH, inverse_apply_op, Hm.
Qed.

(** *** Idempotence *)

Lemma Join_idemp c r m : Join c r (Join c r m) = Join c r m.
Proof.
  unfold Join at 1. rewrite Members_Join, Rooms_Join.
  rewrite !decide_True by done.
  unfold Join; simpl. rewrite !insert_insert_eq.
  f_equal; f_equal; set_solver.
Qed.

Lemma registry_remove_idemp c r reg :
  registry_remove c r (registry_remove c r reg) = registry_remove c r reg.
Proof.
  destruct (reg !! r) as [S|] eqn:Hr.
  - destruct (decide (S ∖ {[c]} = ∅)) as [He|He].
    + assert (registry_remove c r reg = delete r reg) as ->.
      { unfold registry_remove. rewrite Hr. by rewrite decide_True. }
      unfold registry_remove. by rewrite lookup_delete_eq.
    + assert (registry_remove c r reg = <[r := S ∖ {[c]}]> reg) as ->.
      { unfold registry_remove. rewrite Hr. by rewrite decide_False. }
      unfold registry_remove. rewrite lookup_insert_eq.
      replace (S ∖ {[c]} ∖ {[c]}) with (S ∖ {[c]}) by set_solver.
      rewrite decide_False by done. by rewrite insert_insert_eq.
  - assert (registry_remove c r reg = reg) as ->.
    { unfold registry_remove. by rewrite Hr. }
    unfold registry_remove. by rewrite Hr.
Qed.

Lemma session_remove_idemp c r ses :
  session_remove c r (session_remove c r ses) = session_remove c r ses.
Proof.
  destruct (ses !! c) as [R|] eqn:Hc.
  - assert (session_remove c r ses = <[c := R ∖ {[r]}]> ses) as ->.
    { unfold session_remove. by rewrite Hc. }
    unfold session_remove. rewrite lookup_insert_eq, insert_insert_eq.
    f_equal. set_solver.
  - assert (session_remove c r ses = ses) as ->.
    { unfold session_remove. by rewrite Hc. }
    unfold session_remove. by rewrite Hc.
Qed.

Lemma Leave_idemp c r m : Leave c r (Leave c r m) = Leave c r m.
Proof.
  unfold Leave; simpl. by rewrite registry_remove_idemp, session_remove_idemp.
Qed.

Lemma DropConnection_no_session c m :
  session m !! c = None → DropConnection c m = m.
Proof.
  intros Hc. destruct m as [reg ses]; simpl in *.
  unfold DropConnection, Rooms; simpl. rewrite Hc; simpl.
  rewrite elements_empty; simpl. f_equal. by apply delete_id.
Qed.

Lemma DropConnection_idemp c m :
  DropConnection c (DropConnection c m) = DropConnection c m.
Proof.
  apply DropConnection_no_session. simpl. apply lookup_delete_eq.
Qed.

(** *** No-ops *)

Lemma pruned_empty : pruned empty.
Proof. intros r S. unfold empty; simpl. by rewrite lookup_empty. Qed.

Lemma registry_remove_pruned c r (reg : gmap string (gset string)) :
  (∀ r' S, reg !! r' = Some S → S ≠ ∅) →
  ∀ r' S, registry_remove c r reg !! r' = Some S → S ≠ ∅.
Proof.
  intros Hreg r' S. unfold registry_remove.
  destruct (reg !! r) as [S0|] eqn:Hr; [|by apply Hreg].
  destruct (decide (S0 ∖ {[c]} = ∅)) as [He|He].
  - destruct (decide (r = r')) as [->|Hne].
    + by rewrite lookup_delete_eq.
    + rewrite lookup_delete_ne by done. apply Hreg.
  - destruct (decide (r = r')) as [->|Hne].
    + rewrite lookup_insert_eq. by intros [= <-].
    + rewrite lookup_insert_ne by done. apply Hreg.
Qed.

Lemma pruned_Join c r m : pruned m → pruned (Join c r m).
Proof.
  intros Hm r' S. unfold Join; simpl.
  destruct (decide (r = r')) as [->|Hne].
  - rewrite lookup_insert_eq. intros [= <-]. set_solver.
  - rewrite lookup_insert_ne by done. apply Hm.
Qed.

Lemma pruned_Leave c r m : pruned m → pruned (Leave c r m).
Proof. intros Hm. unfold pruned, Leave; simpl. by apply registry_remove_pruned. Qed.

Lemma pruned_DropConnection c m : pruned m → pruned (DropConnection c m).
Proof.
  intros Hm. unfold pruned, DropConnection; simpl.
  induction (elements (Rooms m c)) as [|r l IH]; simpl; [apply Hm|].
  by apply registry_remove_pruned.
Qed.

Lemma pruned_run_ops ops m : pruned m → pruned (run_ops ops m).
Proof.
  revert m. induction ops as [|o ops IH]; intros m Hm; simpl; [done|].
  apply IH. destruct o; simpl;
    auto using pruned_Join, pruned_Leave, pruned_DropConnection.
Qed.

Lemma Join_member c r m :
  inverse m → c ∈ Members m r → Join c r m = m.
Proof.
  intros Hinv Hc. pose proof (proj1 (Hinv c r) Hc) as Hr.
  destruct m as [reg ses]. unfold Join, Members, Rooms in *; simpl in *.
  destruct (reg !! r) as [S|] eqn:HS; simpl in *; [|set_solver].
  destruct (ses !! c) as [R|] eqn:HR; simpl in *; [|set_solver].
  f_equal; apply insert_id.
  - rewrite HS. f_equal. set_solver.
  - rewrite HR. f_equal. set_solver.
Qed.

Lemma Leave_not_member c r m :
  inverse m → pruned m → c ∉ Members m r → Leave c r m = m.
Proof.
  intros Hinv Hpr Hc.
  assert (r ∉ Rooms m c) as Hr by (by rewrite <- (Hinv c r)).
  destruct m as [reg ses].
  unfold Leave, Members, Rooms, pruned, registry_remove, session_remove in *;
    simpl in *.
  f_equal.
  - destruct (reg !! r) as [S|] eqn:HS; simpl in *; [|done].
    replace (S ∖ {[c]}) with S by set_solver.
    rewrite decide_False by eauto. by apply insert_id.
  - destruct (ses !! c) as [R|] eqn:HR; simpl in *; [|done].
    replace (R ∖ {[r]}) with R by set_solver. by apply insert_id.
Qed.

Lemma DropConnection_no_rooms c m :
  Rooms m c = ∅ → same_membership (DropConnection c m) m.
Proof.
  intros Hc. split.
  - intros r. rewrite Members_DropConnection, Hc.
    by rewrite decide_False by set_solver.
  - intros c'. rewrite Rooms_DropConnection.
    destruct (decide (c = c')) as [<-|]; [by rewrite Hc | done].
Qed.

End registry_lemmas.

(** ** Lemmas on strings and on the message constructors *)

Section message_lemmas.

Lemma lstrip_length s : (String.length (lstrip s) ≤ String.length s)%nat.
Proof.
  induction s as [|a s IH]; simpl; [done|].
  destruct (py_isspace a); simpl; lia.
Qed.

Lemma rstrip_length s : (String.length (rstrip s) ≤ String.length s)%nat.
Proof.
  induction s as [|a s IH]; simpl; [done|].
  destruct (bool_decide (rstrip s = "") && py_isspace a); simpl; lia.
Qed.

Lemma strip_length s : (String.length (strip s) ≤ String.length s)%nat.
Proof.
  unfold strip. etrans; [apply rstrip_length | apply lstrip_length].
Qed.

Lemma lstrip_head s :
  lstrip s = "" ∨ ∃ a t, lstrip s = String a t ∧ py_isspace a = false.
Proof.
  induction s as [|a s IH]; simpl; [by left|].
  destruct (py_isspace a) eqn:Ha; [done|]. right; eauto.
Qed.

Lemma rstrip_idemp s : rstrip (rstrip s) = rstrip s.
Proof.
  induction s as [|a s IH]; simpl; [done|].
  destruct (bool_decide (rstrip s = "") && py_isspace a) eqn:E; simpl; [done|].
  by rewrite IH, E.
Qed.

Lemma lstrip_rstrip_lstrip s : lstrip (rstrip (lstrip s)) = rstrip (lstrip s).
Proof.
  destruct (lstrip_head s) as [->|(a & t & -> & Ha)]; [done|].
  simpl. rewrite Ha, andb_false_r. simpl. by rewrite Ha.
Qed.

Lemma strip_idemp s : strip (strip s) = strip s.
Proof.
  unfold strip. by rewrite lstrip_rstrip_lstrip, rstrip_idemp.
Qed.

Lemma validate_message_text_accepted v :
  text_accepted v → validate_message_text v = Ok (strip v).
Proof.
  intros [_ Hs]. unfold validate_message_text.
  assert (v ≠ "") as Hv by (intros ->; by apply Hs).
  by rewrite !bool_decide_eq_false_2.
Qed.

Lemma _validate_message_text_strip v :
  text_accepted v → _validate_message_text (strip v) = Ok tt.
Proof.
  intros [Hlen Hs]. unfold _validate_message_text.
  rewrite strip_idemp, !bool_decide_eq_false_2 by done.
  pose proof (strip_length v).
  destruct (1024 <? String.length (strip v))%nat eqn:E; [|done].
  apply Nat.ltb_lt in E. lia.
Qed.

Lemma Message_init_Raise text u c r p e :
  Message_init text u c r p = Raise e → ∃ msg, e = ValueError msg.
Proof.
  unfold Message_init, _validate_message_text.
  repeat case_match; intros; simplify_eq; eauto.
Qed.

Lemma Message_init_Ok text u c r p m :
  Message_init text u c r p = Ok m →
  m = Message.Make "" text u c r p 0 0 ∧ r = truthy p.
Proof.
  unfold Message_init.
  destruct (_validate_message_text text); [|done].
  destruct r, (truthy p); simpl; intros; by simplify_eq.
Qed.

End message_lemmas.

(** ** Frame rules for the effect monad *)

Section frame.
Context (R : relation world) `{!PreOrder R}.

Lemma preserves_ret {A} (a : A) : preserves R (ret a).
Proof. intros w. simpl. reflexivity. Qed.

Lemma preserves_raise {A} e : preserves R (raise (A := A) e).
Proof. intros w. simpl. reflexivity. Qed.

Lemma preserves_lift {A} (r : result A) : preserves R (lift r).
Proof. intros w. simpl. reflexivity. Qed.

Lemma preserves_bind {A B} (m : M A) (k : A → M B) :
  preserves R m → (∀ a, preserves R (k a)) → preserves R (bind m k).
Proof.
  intros Hm Hk w. unfold bind. specialize (Hm w).
  destruct (m w) as [[a|e] w']; simpl in *; [|done].
  etrans; [exact Hm | apply Hk].
Qed.

Lemma preserves_try_except {A} (body : M A) catches handler :
  preserves R body → (∀ e, preserves R (handler e)) →
  preserves R (try_except body catches handler).
Proof.
  intros Hb Hh w. unfold try_except. specialize (Hb w).
  destruct (body w) as [[a|e] w']; simpl in *; [done|].
  destruct (catches e); [|done].
  etrans; [exact Hb | apply Hh].
Qed.

Lemma preserves_if {A} (c : bool) (m1 m2 : M A) :
  preserves R m1 → preserves R m2 → preserves R (if c then m1 else m2).
Proof. by destruct c. Qed.

End frame.

Section relations.

Global Instance only_adds_preorder P : PreOrder (only_adds P).
Proof.
  split.
  - intros w. by exists [].
  - intros w1 w2 w3 (n1 & H1 & F1) (n2 & H2 & F2).
    exists (n2 ++ n1)%list. split.
    + by rewrite H2, H1, app_assoc.
    + by apply Forall_app.
Qed.

Global Instance keeps_store_preorder : PreOrder keeps_store.
Proof.
  split.
  - by intros w.
  - intros w1 w2 w3 (?&?&?) (?&?&?). repeat split; congruence.
Qed.

Global Instance keeps_mem_preorder : PreOrder keeps_mem.
Proof.
  split; [by intros w|]. intros w1 w2 w3. unfold keeps_mem. congruence.
Qed.

Global Instance mem_by_ops_preorder : PreOrder mem_by_ops.
Proof.
  split.
  - intros w. by exists [].
  - intros w1 w2 w3 (o1 & H1) (o2 & H2).
    exists (o1 ++ o2)%list. unfold Registry.run_ops in *.
    by rewrite foldl_app, <- H1.
Qed.

Lemma keeps_mem_by_ops w w' : keeps_mem w w' → mem_by_ops w w'.
Proof. intros H. by exists []. Qed.

(** What each primitive adds and what it leaves alone. *)

Lemma observe_adds P o : P o → preserves (only_adds P) (observe o).
Proof. intros Ho w. exists [o]. simpl. split; [done|]. by constructor. Qed.

Lemma observe_keeps_store o : preserves keeps_store (observe o).
Proof. by intros w. Qed.

Lemma observe_keeps_mem o : preserves keeps_mem (observe o).
Proof. by intros w. Qed.

Lemma transport_call_adds P : preserves (only_adds P) transport_call.
Proof.
  intros w. exists []. unfold transport_call.
  destruct (faults w) as [|[e|] fs]; simpl; by split.
Qed.

Lemma transport_call_keeps_store : preserves keeps_store transport_call.
Proof.
  intros w. unfold transport_call. by destruct (faults w) as [|[e|] fs].
Qed.

Lemma transport_call_keeps_mem : preserves keeps_mem transport_call.
Proof.
  intros w. unfold transport_call. by destruct (faults w) as [|[e|] fs].
Qed.

Lemma sio_emit_adds (P : obs → Prop) event data to :
  (∀ sid, P (ObsSend sid event data)) →
  preserves (only_adds P) (sio_emit event data to).
Proof.
  intros HP. apply preserves_bind; [apply _ | apply transport_call_adds |].
  intros _ w. eexists. simpl. split; [reflexivity|].
  apply Forall_fmap, Forall_forall. intros sid _. apply HP.
Qed.

Lemma sio_emit_keeps_store event data to :
  preserves keeps_store (sio_emit event data to).
Proof.
  apply preserves_bind; [apply _ | apply transport_call_keeps_store |].
  by intros _ w.
Qed.

Lemma sio_emit_keeps_mem event data to :
  preserves keeps_mem (sio_emit event data to).
Proof.
  apply preserves_bind; [apply _ | apply transport_call_keeps_mem |].
  by intros _ w.
Qed.

Lemma sio_enter_room_adds P sid room : preserves (only_adds P) (sio_enter_room sid room).
Proof.
  apply preserves_bind; [apply _ | apply transport_call_adds |].
  intros _ w. by exists [].
Qed.

Lemma sio_leave_room_adds P sid room : preserves (only_adds P) (sio_leave_room sid room).
Proof.
  apply preserves_bind; [apply _ | apply transport_call_adds |].
  intros _ w. by exists [].
Qed.

Lemma sio_enter_room_keeps_store sid room : preserves keeps_store (sio_enter_room sid room).
Proof.
  apply preserves_bind; [apply _ | apply transport_call_keeps_store |].
  by intros _ w.
Qed.

Lemma sio_leave_room_keeps_store sid room : preserves keeps_store (sio_leave_room sid room).
Proof.
  apply preserves_bind; [apply _ | apply transport_call_keeps_store |].
  by intros _ w.
Qed.

Lemma sio_enter_room_mem sid room : preserves mem_by_ops (sio_enter_room sid room).
Proof.
  apply preserves_bind; [apply _ | |].
  - intros w. apply keeps_mem_by_ops, transport_call_keeps_mem.
  - intros _ w. by exists [Registry.OpJoin sid room].
Qed.

Lemma sio_leave_room_mem sid room : preserves mem_by_ops (sio_leave_room sid room).
Proof.
  apply preserves_bind; [apply _ | |].
  - intros w. apply keeps_mem_by_ops, transport_call_keeps_mem.
  - intros _ w. by exists [Registry.OpLeave sid room].
Qed.

Lemma sio_emit_mem event data to : preserves mem_by_ops (sio_emit event data to).
Proof. intros w. apply keeps_mem_by_ops, sio_emit_keeps_mem. Qed.

Lemma observe_mem o : preserves mem_by_ops (observe o).
Proof. intros w. by exists []. Qed.

End relations.

(** ** Lemmas on the Socket.IO handlers *)

Section handler_lemmas.

(** Unfold the primitives of the monad down to functions on worlds. *)
Ltac unfold_M :=
  unfold try_except, bind, ret, raise, lift, observe, logger_info, logger_error,
    db_query_user, db_query_chatroom, db_query_message, db_add_commit_refresh,
    db_rollback, sio_emit, sio_enter_room, sio_leave_room, transport_call,
    set_mem, set_messages, set_faults, set_trace in *.

(** Walk through a handler with the frame rules. *)
Ltac frame prim :=
  repeat first
    [ prim
    | apply preserves_try_except; [apply _ | | intros ?]
    | apply preserves_bind; [apply _ | | intros ?]
    | apply preserves_if
    | apply preserves_ret; apply _ ].

Lemma absent_or_blank_falsy data key :
  absent_or_blank data key ↔ truthy (dict_get data key) = false.
Proof.
  unfold absent_or_blank, dict_get.
  destruct (data !! key) as [[|s]|] eqn:E; simpl.
  - naive_solver.
  - rewrite bool_decide_eq_false. split.
    + intros [?|[?|?]]; simplify_eq. intros H; by apply H.
    + intros H. right; right.
      destruct (decide (s = "")) as [->|]; [done|]. by destruct H.
  - naive_solver.
Qed.

Lemma join_only_adds (P : obs → Prop) sid data :
  (∀ sid' event items, P (ObsSend sid' event (WDict items))) →
  (∀ lvl text, P (ObsLog lvl text)) →
  preserves (only_adds P) (join sid data).
Proof.
  intros Hsend Hlog. unfold join; cbv zeta.
  frame ltac:(first [ by apply sio_emit_adds
                    | by apply sio_enter_room_adds
                    | by apply observe_adds ]).
Qed.

Lemma leave_only_adds (P : obs → Prop) sid data :
  (∀ sid' event items, P (ObsSend sid' event (WDict items))) →
  (∀ lvl text, P (ObsLog lvl text)) →
  preserves (only_adds P) (leave sid data).
Proof.
  intros Hsend Hlog. unfold leave; cbv zeta.
  frame ltac:(first [ by apply sio_emit_adds
                    | by apply sio_leave_room_adds
                    | by apply observe_adds ]).
Qed.

Lemma join_keeps_store sid data : preserves keeps_store (join sid data).
Proof.
  unfold join; cbv zeta.
  frame ltac:(first [ apply sio_emit_keeps_store
                    | apply sio_enter_room_keeps_store
                    | apply observe_keeps_store ]).
Qed.

Lemma leave_keeps_store sid data : preserves keeps_store (leave sid data).
Proof.
  unfold leave; cbv zeta.
  frame ltac:(first [ apply sio_emit_keeps_store
                    | apply sio_leave_room_keeps_store
                    | apply observe_keeps_store ]).
Qed.

Lemma join_mem_by_ops sid data : preserves mem_by_ops (join sid data).
Proof.
  unfold join; cbv zeta.
  frame ltac:(first [ apply sio_emit_mem | apply sio_enter_room_mem
                    | apply observe_mem ]).
Qed.

Lemma leave_mem_by_ops sid data : preserves mem_by_ops (leave sid data).
Proof.
  unfold leave; cbv zeta.
  frame ltac:(first [ apply sio_emit_mem | apply sio_leave_room_mem
                    | apply observe_mem ]).
Qed.

(** With a payload that lacks a field and a transport that answers, the
    handler takes the validation branch. *)
Lemma lacks_field data :
  absent_or_blank data "user_id" ∨ absent_or_blank data "chatroom_id" →
  negb (truthy (dict_get data "user_id"))
  || negb (truthy (dict_get data "chatroom_id")) = true.
Proof.
  intros [H|H]; apply absent_or_blank_falsy in H; rewrite H; simpl;
    [done | by rewrite orb_true_r].
Qed.

Lemma join_invalid sid data w :
  absent_or_blank data "user_id" ∨ absent_or_blank data "chatroom_id" →
  next_fault w = None →
  ∃ w', join sid data w = (Ok tt, w') ∧
    added w w' (deliveries (mem w) sid "error" fields_required) ∧
    mem w' = mem w.
Proof.
  intros Hc%lacks_field Hf.
  unfold join, added; cbv zeta. rewrite Hc. unfold next_fault in Hf.
  destruct w as [m us cs ms s fs tr]; simpl in *.
  unfold_M; simpl.
  destruct fs as [|[e|] fs]; simplify_eq/=; eauto.
Qed.

Lemma leave_invalid sid data w :
  absent_or_blank data "user_id" ∨ absent_or_blank data "chatroom_id" →
  next_fault w = None →
  ∃ w', leave sid data w = (Ok tt, w') ∧
    added w w' (deliveries (mem w) sid "error" fields_required) ∧
    mem w' = mem w.
Proof.
  intros Hc%lacks_field Hf.
  unfold leave, added; cbv zeta. rewrite Hc. unfold next_fault in Hf.
  destruct w as [m us cs ms s fs tr]; simpl in *.
  unfold_M; simpl.
  destruct fs as [|[e|] fs]; simplify_eq/=; eauto.
Qed.

(** With both fields given and a transport that answers twice, the handler
    runs to its acknowledgment. *)
Lemma join_valid sid data w :
  truthy (dict_get data "user_id") = true →
  truthy (dict_get data "chatroom_id") = true →
  no_fault 2 w →
  ∃ w', join sid data w = (Ok tt, w') ∧
    mem w' = Registry.Join sid (str_of (dict_get data "chatroom_id")) (mem w) ∧
    added w w'
      (deliveries (mem w') sid "joined"
         (WDict [("chatroom_id", dict_get data "chatroom_id")])
       ++ [ObsLog INFO ("Client " +:+ sid +:+ " (user "
                        +:+ py_format (dict_get data "user_id")
                        +:+ ") joined chatroom "
                        +:+ py_format (dict_get data "chatroom_id"))]).
Proof.
  intros Hu Hc Hf. unfold join, added, no_fault in *; cbv zeta.
  rewrite Hu, Hc; simpl.
  destruct w as [m us cs ms s fs tr]; simpl in *.
  unfold_M; simpl.
  destruct fs as [|[e|] [|[e'|] fs]]; simpl in *;
    repeat match goal with
           | H : Forall _ (_ :: _) |- _ => apply Forall_cons in H as [? H]
           end; try done;
    (eexists; split; [reflexivity|]; simpl; split; [done|];
     by rewrite <- app_assoc).
Qed.

Lemma leave_valid sid data w :
  truthy (dict_get data "user_id") = true →
  truthy (dict_get data "chatroom_id") = true →
  no_fault 2 w →
  ∃ w', leave sid data w = (Ok tt, w') ∧
    mem w' = Registry.Leave sid (str_of (dict_get data "chatroom_id")) (mem w) ∧
    added w w'
      (deliveries (mem w') sid "left"
         (WDict [("chatroom_id", dict_get data "chatroom_id")])
       ++ [ObsLog INFO ("Client " +:+ sid +:+ " (user "
                        +:+ py_format (dict_get data "user_id")
                        +:+ ") left chatroom "
                        +:+ py_format (dict_get data "chatroom_id"))]).
Proof.
  intros Hu Hc Hf. unfold leave, added, no_fault in *; cbv zeta.
  rewrite Hu, Hc; simpl.
  destruct w as [m us cs ms s fs tr]; simpl in *.
  unfold_M; simpl.
  destruct fs as [|[e|] [|[e'|] fs]]; simpl in *;
    repeat match goal with
           | H : Forall _ (_ :: _) |- _ => apply Forall_cons in H as [? H]
           end; try done;
    (eexists; split; [reflexivity|]; simpl; split; [done|];
     by rewrite <- app_assoc).
Qed.

(** *** The create-message endpoint *)

Lemma create_outcome_eq md u t w r w' r2 w2 :
  create_outcome md u t w r w' → r = r2 → w' = w2 → create_outcome md u t w r2 w2.
Proof. by intros ? <- <-. Qed.

Lemma create_message_outcome message_data uuid4 utcnow w :
  create_outcome message_data uuid4 utcnow w
    (fst (create_message message_data uuid4 utcnow w))
    (snd (create_message message_data uuid4 utcnow w)).
Proof.
  destruct message_data as [text u c r p], w as [m us cs ms s fs tr].
  set (md := MessageCreateRequest.Make text u c r p).
  set (w := World m us cs ms s fs tr).
  unfold create_message; unfold_M; simpl.
  destruct (bool_decide (u ∈ us)) eqn:Hu; simpl;
    [apply bool_decide_eq_true in Hu | apply bool_decide_eq_false in Hu].
  2:{ by apply co_user_not_found. }
  destruct (bool_decide (c ∈ cs)) eqn:Hc; simpl;
    [apply bool_decide_eq_true in Hc | apply bool_decide_eq_false in Hc].
  2:{ by apply co_chatroom_not_found. }
  assert (parent_found md w ∨ (r && truthy p = true ∧ ms !! str_of p = None))
    as [Hpf|[Hrp Hp]].
  { unfold parent_found; simpl. destruct (r && truthy p); [|by left].
    destruct (ms !! str_of p) eqn:E; [left; eauto | by right]. }
  2:{ rewrite Hrp; simpl. rewrite Hp; simpl.
      eapply create_outcome_eq;
        [apply co_parent_not_found; simpl; try done;
           by apply andb_true_iff in Hrp as [? ?]
        | done
        | unfold lookups, set_trace; simpl; by rewrite Hrp]. }
  pose proof Hpf as Hpf'. unfold parent_found in Hpf'; simpl in Hpf'.
  destruct (r && truthy p) eqn:Hrp; simpl;
    [destruct Hpf' as [parent Hparent]; [done|]; rewrite Hparent; simpl|];
  (destruct (Message_init text u c r p) as [db_message|e] eqn:Hinit; simpl;
   [ destruct (Message_init_Ok _ _ _ _ _ _ Hinit) as [-> Hr]; simpl;
     destruct (ms !! uuid4) as [old|] eqn:Hid; simpl;
     [ eapply create_outcome_eq;
         [by eapply (co_duplicate_id md uuid4 utcnow w) | done
         | unfold lookups, set_trace; simpl; by rewrite Hrp]
     | destruct s; simpl;
       [ destruct fs as [|[e|] fs]; simpl;
         (eapply create_outcome_eq;
           [eapply (co_created md uuid4 utcnow w); try done;
              first [by apply em_delivered | by apply (em_failed _ _ _ _ e)]
           | done
           | unfold lookups, set_trace, set_faults, set_messages; simpl;
               by rewrite Hrp])
       | eapply create_outcome_eq;
           [eapply (co_created md uuid4 utcnow w); try done; by apply em_detached
           | done
           | unfold lookups, set_trace, set_faults, set_messages; simpl;
               by rewrite Hrp] ] ]
   | destruct (Message_init_Raise _ _ _ _ _ _ Hinit) as [msg ->]; simpl;
     eapply create_outcome_eq;
       [by apply (co_rejected md uuid4 utcnow w msg) | done
       | unfold lookups, set_trace; simpl; by rewrite Hrp] ]).
Qed.

Lemma create_message_run message_data uuid4 utcnow w res w' :
  create_message message_data uuid4 utcnow w = (res, w') →
  create_outcome message_data uuid4 utcnow w res w'.
Proof.
  intros H. pose proof (create_message_outcome message_data uuid4 utcnow w) as Ho.
  by rewrite H in Ho.
Qed.

End handler_lemmas.

(** ** Lemmas on traces and on the system *)

Section system_lemmas.

Lemma commits_first_sound tr : commits_first tr → commit_precedes_delivery tr.
Proof.
  intros H newer. revert tr H.
  induction newer as [|o newer IH]; intros tr H sid m older ->; simpl in H.
  - destruct H as [H _]. by apply (H sid m).
  - destruct H as [_ H]. by apply (IH _ H sid m older).
Qed.

Lemma commits_first_app new tr :
  Forall not_delivery new → commits_first tr → commits_first (new ++ tr).
Proof.
  induction 1 as [|o new Ho _ IH]; intros Htr; simpl; [done|].
  split; [|by apply IH]. intros sid m ->. by destruct (Ho sid m).
Qed.

Lemma commits_first_deliveries row (sids : list string) tr :
  commits_first (ObsCommit row :: tr) →
  commits_first
    (((λ sid, ObsSend sid "new_message"
                (WMessage (MessageResponse.from_orm row))) <$> sids)
     ++ ObsCommit row :: tr).
Proof.
  intros Htr. induction sids as [|sid sids IH]; simpl; [done|].
  split; [|exact IH]. intros sid' m [= _ <-]. exists row. split; [|done].
  apply elem_of_app. right. apply list_elem_of_here.
Qed.

Lemma only_adds_commits_first w w' :
  only_adds not_delivery w w' →
  commits_first (trace w) → commits_first (trace w').
Proof. intros (new & -> & Hnew) Htr. by apply commits_first_app. Qed.

Lemma not_delivery_log lvl text : not_delivery (ObsLog lvl text).
Proof. by intros sid m. Qed.

Lemma not_delivery_dict sid event items : not_delivery (ObsSend sid event (WDict items)).
Proof. by intros sid' m. Qed.

Lemma lookups_not_delivery message_data : Forall not_delivery (lookups message_data).
Proof.
  unfold lookups. apply Forall_app. split.
  - destruct (_ && _); repeat constructor; by intros sid m.
  - repeat constructor; by intros sid m.
Qed.

Lemma create_outcome_added message_data uuid4 utcnow w res w' :
  create_outcome message_data uuid4 utcnow w res w' →
  ∃ new, added w w' new ∧ ∀ tr, commits_first tr → commits_first (new ++ tr).
Proof.
  intros Ho.
  assert (∀ tr, commits_first tr → commits_first (lookups message_data ++ tr))
    as Hl by (intros tr; apply commits_first_app, lookups_not_delivery).
  assert (∀ o tr, not_delivery o → commits_first tr → commits_first (o :: tr))
    as Hcons by (intros o tr Ho' Htr; by apply (commits_first_app [o]); [constructor|]).
  destruct Ho as [| | | | |db_message emitted fs ? ? ? ? ? Hem]; unfold added; simpl.
  - exists [ObsQuery "users" (MessageCreateRequest.user_id message_data)].
    split; [done|]. intros tr Htr. by apply Hcons.
  - exists [ObsQuery "chatrooms" (MessageCreateRequest.chatroom_id message_data);
            ObsQuery "users" (MessageCreateRequest.user_id message_data)].
    split; [done|]. intros tr Htr. by repeat apply Hcons.
  - exists (lookups message_data). split; [done|]. apply Hl.
  - exists (ObsRollback :: lookups message_data). split; [done|].
    intros tr Htr. by apply (Hcons ObsRollback), Hl.
  - exists (lookups message_data). split; [done|]. apply Hl.
  - exists (emitted ++ ObsCommit (new_row message_data uuid4 utcnow)
                      :: lookups message_data)%list.
    split; [by rewrite <- app_assoc|]. intros tr Htr.
    rewrite <- app_assoc; simpl.
    assert (commits_first (ObsCommit (new_row message_data uuid4 utcnow)
                           :: lookups message_data ++ tr)) as Hc
      by (by apply Hcons, Hl).
    destruct Hem; simpl.
    + done.
    + apply (Hcons (ObsLog _ _)); [done|]. by apply commits_first_deliveries.
    + by apply (Hcons (ObsLog _ _)).
Qed.

Lemma create_outcome_commits_first message_data uuid4 utcnow w res w' :
  create_outcome message_data uuid4 utcnow w res w' →
  commits_first (trace w) → commits_first (trace w').
Proof.
  intros Ho Htr. destruct (create_outcome_added _ _ _ _ _ _ Ho) as (new & -> & Hnew).
  by apply Hnew.
Qed.

Lemma create_outcome_keeps_mem message_data uuid4 utcnow w res w' :
  create_outcome message_data uuid4 utcnow w res w' → mem w' = mem w.
Proof. by destruct 1. Qed.

Lemma post_message_cases b uuid4 utcnow w :
  (∃ e, parse_request b = Raise e ∧
        post_message b uuid4 utcnow w = (Raise e, w)) ∨
  (∃ message_data, parse_request b = Ok message_data ∧
        post_message b uuid4 utcnow w = create_message message_data uuid4 utcnow w).
Proof.
  unfold post_message. destruct (parse_request b) as [md|e]; eauto.
Qed.

Lemma step_commits_first ev w :
  commits_first (trace w) → commits_first (trace (step ev w)).
Proof.
  intros Htr. destruct ev as [sid|sid|sid data|sid data|b uuid4 utcnow|fs]; simpl.
  - split; [by intros ? ? | done].
  - split; [by intros ? ? | done].
  - eapply only_adds_commits_first; [|done].
    apply join_only_adds; auto using not_delivery_log, not_delivery_dict.
  - eapply only_adds_commits_first; [|done].
    apply leave_only_adds; auto using not_delivery_log, not_delivery_dict.
  - destruct (post_message_cases b uuid4 utcnow w) as [(e & _ & ->)|(md & _ & ->)];
      [done|].
    eapply create_outcome_commits_first; [apply create_message_outcome | done].
  - done.
Qed.

Lemma step_mem_by_ops ev w : mem_by_ops w (step ev w).
Proof.
  destruct ev as [sid|sid|sid data|sid data|b uuid4 utcnow|fs]; simpl.
  - by exists [Registry.OpJoin sid sid].
  - by exists [Registry.OpDrop sid].
  - apply join_mem_by_ops.
  - apply leave_mem_by_ops.
  - destruct (post_message_cases b uuid4 utcnow w) as [(e & _ & ->)|(md & _ & ->)];
      [by exists []|].
    exists []. simpl.
    eapply create_outcome_keeps_mem, create_message_outcome.
  - by exists [].
Qed.

Lemma run_invariant (I : world → Prop) evs w :
  (∀ ev w, I w → I (step ev w)) → I w → I (run evs w).
Proof.
  intros Hstep. revert w. induction evs as [|ev evs IH]; intros w Hw; simpl;
    [done|]. by apply IH, Hstep.
Qed.

Lemma run_mem_by_ops evs w : mem_by_ops w (run evs w).
Proof.
  revert w. induction evs as [|ev evs IH]; intros w; simpl; [reflexivity|].
  etrans; [apply step_mem_by_ops | apply IH].
Qed.

Lemma run_init_ops evs us cs ms :
  ∃ ops, mem (run evs (init us cs ms)) = Registry.run_ops ops Registry.empty.
Proof. apply (run_mem_by_ops evs (init us cs ms)). Qed.

End system_lemmas.

(** ** The room registry: inverse indexes, idempotence, disconnect *)

Section registry_theorems.
Import Registry.

(** C6. After every finite sequence of Join, Leave and DropConnection
    operations from the empty state, a connection is in the registry entry
    of a room exactly when the room is in the session of the connection.
    The same holds in every state the server reaches by handling events. *)
Theorem C6_inverse_invariant :
  (∀ ops c r,
     c ∈ Members (run_ops ops empty) r ↔ r ∈ Rooms (run_ops ops empty) c) ∧
  (∀ us cs ms evs c r,
     c ∈ Members (mem (run evs (init us cs ms))) r ↔
     r ∈ Rooms (mem (run evs (init us cs ms))) c).
Proof.
  split.
  - intros ops. apply inverse_run_ops, inverse_empty.
  - intros us cs ms evs.
    destruct (run_init_ops evs us cs ms) as [ops ->].
    apply inverse_run_ops, inverse_empty.
Qed.

(** C7. Join, Leave and DropConnection are idempotent on the membership
    state: done twice from any state, each leaves the state it leaves when
    done once.  In a state reached by registry operations, a Join of a
    member and a Leave of a non-member change nothing. *)
Theorem C7_idempotent c r :
  (∀ m, Join c r (Join c r m) = Join c r m) ∧
  (∀ m, Leave c r (Leave c r m) = Leave c r m) ∧
  (∀ m, DropConnection c (DropConnection c m) = DropConnection c m) ∧
  (∀ ops, c ∈ Members (run_ops ops empty) r →
          Join c r (run_ops ops empty) = run_ops ops empty) ∧
  (∀ ops, c ∉ Members (run_ops ops empty) r →
          Leave c r (run_ops ops empty) = run_ops ops empty).
Proof.
  split_and!.
  - apply Join_idemp.
  - apply Leave_idemp.
  - apply DropConnection_idemp.
  - intros ops. apply Join_member, inverse_run_ops, inverse_empty.
  - intros ops. apply Leave_not_member.
    + apply inverse_run_ops, inverse_empty.
    + apply pruned_run_ops, pruned_empty.
Qed.

Lemma C7_idempotent_witness :
  Join "A" "R1" (run_ops [OpJoin "A" "R1"] empty) = run_ops [OpJoin "A" "R1"] empty ∧
  Leave "B" "R1" (run_ops [OpJoin "A" "R1"] empty) = run_ops [OpJoin "A" "R1"] empty.
Proof.
  split.
  - apply (proj1 (proj2 (proj2 (proj2 (C7_idempotent "A" "R1")))) [OpJoin "A" "R1"]).
    vm_compute. reflexivity.
  - apply (proj2 (proj2 (proj2 (proj2 (C7_idempotent "B" "R1")))) [OpJoin "A" "R1"]).
    vm_compute. intros H. discriminate H.
Defined.

(** C8. Handling the disconnect of a connection succeeds and drops the
    connection: it is removed from the registry entry of every room it had
    joined, so [Members] of none of them contains it any more, and its
    session room set is cleared.  For a connection that is in no room the
    membership is left as it was (the very same state when the connection
    never had a session), and a second disconnect changes nothing. *)
Theorem C8_disconnect_cleanup sid w :
  let w' := snd (on_disconnect sid w) in
  fst (on_disconnect sid w) = Ok tt ∧
  mem w' = DropConnection sid (mem w) ∧
  (∀ r, r ∈ Rooms (mem w) sid → sid ∉ Members (mem w') r) ∧
  Rooms (mem w') sid = ∅ ∧
  (inverse (mem w) → ∀ r, sid ∉ Members (mem w') r) ∧
  (Rooms (mem w) sid = ∅ → same_membership (mem w') (mem w)) ∧
  (session (mem w) !! sid = None → mem w' = mem w) ∧
  mem (snd (on_disconnect sid w')) = mem w'.
Proof.
  assert (∀ w0, mem (snd (on_disconnect sid w0)) = DropConnection sid (mem w0))
    as Hmem by done.
  cbv zeta. rewrite !Hmem. split_and!; try done.
  - intros r Hr. rewrite Members_DropConnection, decide_True by done. set_solver.
  - rewrite Rooms_DropConnection. by rewrite decide_True.
  - intros Hinv r. rewrite Members_DropConnection.
    destruct (decide (r ∈ Rooms (mem w) sid)) as [Hr|Hr]; [set_solver|].
    by rewrite (Hinv sid r).
  - apply DropConnection_no_rooms.
  - apply DropConnection_no_session.
  - apply DropConnection_idemp.
Qed.

Lemma C8_disconnect_cleanup_witness :
  ("A" ∉ Members (mem (snd (on_disconnect "A" two_rooms))) "R1") ∧
  ("A" ∉ Members (mem (snd (on_disconnect "A" two_rooms))) "R2") ∧
  same_membership (mem (snd (on_disconnect "Z" two_rooms))) (mem two_rooms) ∧
  mem (snd (on_disconnect "Z" two_rooms)) = mem two_rooms.
Proof.
  pose proof (C8_disconnect_cleanup "A" two_rooms) as (_ & _ & HA & _).
  pose proof (C8_disconnect_cleanup "Z" two_rooms) as (_ & _ & _ & _ & _ & HZ & HZ' & _).
  split_and!.
  - apply HA. vm_compute. reflexivity.
  - apply HA. vm_compute. reflexivity.
  - apply HZ. vm_compute. reflexivity.
  - apply HZ'. vm_compute. reflexivity.
Defined.

End registry_theorems.

(** ** The create-message endpoint *)

Section create_message_theorems.
Import Registry.

Lemma lookups_no_send message_data sid event data :
  ObsSend sid event data ∉ lookups message_data.
Proof.
  unfold lookups. intros H. apply elem_of_app in H as [H|H].
  - destruct (_ && _); [|by apply elem_of_nil in H].
    by apply list_elem_of_singleton in H.
  - apply elem_of_cons in H as [H|H]; [done|].
    by apply list_elem_of_singleton in H.
Qed.

(** C1. When create-message has persisted a message and emits it (the
    server object is attached and the emission does not fail), the
    [new_message] event is delivered to exactly the connections that are
    members of the message's room at that instant; no other connection
    receives anything, and the membership is not changed. *)
Theorem C1_delivery_targets_snapshot message_data uuid4 utcnow w response w' :
  create_message message_data uuid4 utcnow w = (Ok response, w') →
  sio w = true →
  next_fault w = None →
  messages w' !! uuid4 = Some (new_row message_data uuid4 utcnow) ∧
  response = MessageResponse.from_orm (new_row message_data uuid4 utcnow) ∧
  delivered_exactly_to_members w w'
    (MessageCreateRequest.chatroom_id message_data) response.
Proof.
  intros Hrun Hsio Hfault. apply create_message_run in Hrun.
  inversion Hrun as [| | | | |db_message emitted fs Hu Hc Hp Hinit Hid Hem];
    subst; clear Hrun.
  split; [by simpl; rewrite lookup_insert_eq|]. split; [done|].
  exists (emitted ++ ObsCommit (new_row message_data uuid4 utcnow)
                    :: lookups message_data)%list.
  split; [by unfold added; simpl; rewrite <- app_assoc|]. split; [done|].
  inversion Hem as [Hs|Hs Hf|e Hs Hf]; subst; clear Hem;
    [congruence | | congruence].
  split.
  - intros sid. unfold delivered_to.
    rewrite elem_of_app, !elem_of_cons, list_elem_of_fmap. split.
    + intros Hin. left. right. exists sid. split; [done|].
      by apply elem_of_elements.
    + intros [[H|(sid' & [= ->] & H)]|[H|H]]; try done.
      * by apply elem_of_elements.
      * by apply lookups_no_send in H.
  - intros sid event data.
    rewrite elem_of_app, !elem_of_cons, list_elem_of_fmap.
    intros [[H|(sid' & [= -> -> ->] & H)]|[H|H]]; try done.
    + split_and!; try done. by apply elem_of_elements.
    + by apply lookups_no_send in H.
Qed.

Lemma C1_delivery_targets_snapshot_witness :
  delivered_exactly_to_members scenario
    (snd (create_message hello "m1" 0 scenario)) "R1"
    (MessageResponse.from_orm (new_row hello "m1" 0)).
Proof.
  apply (C1_delivery_targets_snapshot hello "m1" 0 scenario
           (MessageResponse.from_orm (new_row hello "m1" 0))
           (snd (create_message hello "m1" 0 scenario))).
  - vm_compute. reflexivity.
  - reflexivity.
  - reflexivity.
Defined.

(** C2. The [new_message] event of a message is emitted only after the
    store has committed that message.  Within one execution of
    create-message, every delivery it adds to the trace has the commit of
    the delivered message below it; and in every state the server reaches
    by handling events, every delivery in the trace is preceded by the
    commit of the message it carries. *)
Theorem C2_commit_precedes_delivery :
  (∀ message_data uuid4 utcnow w,
     ∃ new, added w (snd (create_message message_data uuid4 utcnow w)) new ∧
            commit_precedes_delivery new) ∧
  (∀ us cs ms evs newer sid m older,
     trace (run evs (init us cs ms)) =
       (newer ++ ObsSend sid "new_message" (WMessage m) :: older)%list →
     ∃ row, ObsCommit row ∈ older ∧ MessageResponse.from_orm row = m).
Proof.
  split.
  - intros message_data uuid4 utcnow w.
    destruct (create_outcome_added _ _ _ _ _ _
                (create_message_outcome message_data uuid4 utcnow w))
      as (new & Hadd & Hnew).
    exists new. split; [done|]. apply commits_first_sound.
    specialize (Hnew [] I). by rewrite app_nil_r in Hnew.
  - intros us cs ms evs. apply commits_first_sound.
    apply (run_invariant (λ w, commits_first (trace w))); [|done].
    intros ev w. apply step_commits_first.
Qed.

Lemma C2_commit_precedes_delivery_witness :
  ∃ row, ObsCommit row ∈ drop 3 (trace posted) ∧
         MessageResponse.from_orm row = MessageResponse.from_orm (new_row hello "m1" 0).
Proof.
  apply (proj2 C2_commit_precedes_delivery {["u1"; "u2"]} {["R1"; "R2"]} ∅
           [EvConnect "A"; EvConnect "B"; EvConnect "C";
            EvJoin "A" (payload "u1" "R1");
            EvJoin "B" (payload "u2" "R1");
            EvJoin "C" (payload "u1" "R2");
            EvPostMessage hello_body "m1" 0]
           (take 2 (trace posted)) "B"
           (MessageResponse.from_orm (new_row hello "m1" 0))
           (drop 3 (trace posted))).
  vm_compute. reflexivity.
Defined.

Lemma lookups_no_rollback message_data : ObsRollback ∉ lookups message_data.
Proof.
  unfold lookups. intros H. apply elem_of_app in H as [H|H].
  - destruct (_ && _); [|by apply elem_of_nil in H].
    by apply list_elem_of_singleton in H.
  - apply elem_of_cons in H as [H|H]; [done|].
    by apply list_elem_of_singleton in H.
Qed.

(** C4. If the emission of [new_message] fails, for whatever reason, after
    the message has been committed, the failure is logged and
    create-message still returns the created message: the row stays in the
    store, nothing is rolled back, the emission is not tried again, and no
    exception reaches the caller. *)
Theorem C4_emission_failure_swallowed message_data uuid4 utcnow w e res w' :
  create_message message_data uuid4 utcnow w = (res, w') →
  sio w = true →
  next_fault w = Some e →
  messages w' ≠ messages w →
  emission_failure_swallowed w w' uuid4 e res.
Proof.
  intros Hrun Hsio Hfault Hcommitted. apply create_message_run in Hrun.
  inversion Hrun as [| | | | |db_message emitted fs Hu Hc Hp Hinit Hid Hem];
    subst; clear Hrun; try done.
  inversion Hem as [Hs|Hs Hf|e' Hs Hf]; subst; clear Hem; try congruence.
  assert (e' = e) as -> by congruence.
  exists (new_row message_data uuid4 utcnow),
    (ObsLog ERROR ("Error emitting new_message event: " +:+ exn_str e)
     :: ObsCommit (new_row message_data uuid4 utcnow) :: lookups message_data).
  split_and!; try done.
  - simpl. by rewrite lookup_insert_eq.
  - apply elem_of_cons. right. apply list_elem_of_here.
  - rewrite !elem_of_cons. intros [H|[H|H]]; try done.
    by apply lookups_no_rollback in H.
  - intros sid event data. rewrite !elem_of_cons. intros [H|[H|H]]; try done.
    by apply lookups_no_send in H.
Qed.

Lemma C4_emission_failure_swallowed_witness :
  emission_failure_swallowed
    (set_faults [Some (TransportError "connection reset")] scenario)
    (snd (create_message hello "m1" 0
            (set_faults [Some (TransportError "connection reset")] scenario)))
    "m1" (TransportError "connection reset")
    (Ok (MessageResponse.from_orm (new_row hello "m1" 0))).
Proof.
  apply (C4_emission_failure_swallowed hello "m1" 0
           (set_faults [Some (TransportError "connection reset")] scenario)).
  - vm_compute. reflexivity.
  - reflexivity.
  - reflexivity.
  - intros H. apply (f_equal (λ ms : gmap string Message.t, ms !! "m1")) in H.
    vm_compute in H. discriminate H.
Defined.

End create_message_theorems.

(** ** The join and leave handlers *)

Section join_leave_theorems.
Import Registry.

Lemma never_queries_join : never_queries join.
Proof.
  intros sid data w. split.
  - by apply join_only_adds.
  - apply join_keeps_store.
Qed.

Lemma never_queries_leave : never_queries leave.
Proof.
  intros sid data w. split.
  - by apply leave_only_adds.
  - apply leave_keeps_store.
Qed.

Lemma fmap_elements_alone {A} (f : string → A) sid m :
  alone_in_own_room sid m → f <$> elements (Members m sid) = [f sid].
Proof.
  unfold alone_in_own_room. intros ->. by rewrite elements_singleton.
Qed.

Lemma deliveries_alone sid m event data :
  alone_in_own_room sid m → deliveries m sid event data = [ObsSend sid event data].
Proof. apply (fmap_elements_alone (λ c, ObsSend c event data)). Qed.

Lemma alone_Join sid room_id m :
  alone_in_own_room sid m → alone_in_own_room sid (Join sid room_id m).
Proof.
  unfold alone_in_own_room. rewrite Members_Join. intros ->.
  case_decide; set_solver.
Qed.

Lemma alone_Leave sid room_id m :
  room_id ≠ sid → alone_in_own_room sid m → alone_in_own_room sid (Leave sid room_id m).
Proof.
  unfold alone_in_own_room. rewrite Members_Leave. intros Hne ->.
  by rewrite decide_False.
Qed.

(** The connections an emission to the room of [sid] reaches once [sid]
    has joined or left a room were in that room before, or are [sid]. *)
Lemma deliveries_reach sid m m' event data :
  (∀ c, c ∈ Members m' sid → c = sid ∨ c ∈ Members m sid) →
  Forall (reaches_room_of sid m) (deliveries m' sid event data).
Proof.
  intros Hsub. unfold deliveries, recipients.
  apply Forall_fmap, Forall_forall. intros c Hc%elem_of_elements.
  intros sid' event' data' [= <- _ _]. by apply Hsub.
Qed.

Lemma Members_Join_sub sid room_id m c :
  c ∈ Members (Join sid room_id m) sid → c = sid ∨ c ∈ Members m sid.
Proof. rewrite Members_Join. case_decide; set_solver. Qed.

Lemma Members_Leave_sub sid room_id m c :
  c ∈ Members (Leave sid room_id m) sid → c = sid ∨ c ∈ Members m sid.
Proof. rewrite Members_Leave. case_decide; set_solver. Qed.

Lemma reaches_room_of_log sid m lvl text : reaches_room_of sid m (ObsLog lvl text).
Proof. by intros ? ? ?. Qed.

(** Split the trace of a handler into what it added and what was there. *)
Ltac added_part :=
  first [ exists (@nil obs); split; [reflexivity|]
        | eexists [_]; split; [reflexivity|]
        | eexists [_; _]; split; [reflexivity|]
        | eexists; split; [reflexivity|]
        | eexists (_ ++ [_])%list; split; [by rewrite <- app_assoc|]
        | eexists (_ ++ [_; _])%list; split; [by rewrite <- app_assoc|] ].

Lemma join_own_room_only : answers_own_room_only join.
Proof.
  intros sid data w. unfold join, only_adds; cbv zeta.
  destruct (negb (truthy (dict_get data "user_id"))
            || negb (truthy (dict_get data "chatroom_id")));
    destruct w as [m us cs ms s fs tr];
    unfold try_except, bind, ret, raise, observe, logger_info, logger_error,
      sio_emit, sio_enter_room, transport_call, set_mem, set_faults, set_trace,
      is_Exception; simpl;
    destruct fs as [|[e1|] [|[e2|] [|[e3|] fs]]]; simpl; added_part;
    rewrite ?Forall_app, ?Forall_cons, ?Forall_nil;
    repeat split; auto using reaches_room_of_log;
    apply (deliveries_reach sid m); intros c;
    first [ apply Members_Join_sub | by right ].
Qed.

Lemma leave_own_room_only : answers_own_room_only leave.
Proof.
  intros sid data w. unfold leave, only_adds; cbv zeta.
  destruct (negb (truthy (dict_get data "user_id"))
            || negb (truthy (dict_get data "chatroom_id")));
    destruct w as [m us cs ms s fs tr];
    unfold try_except, bind, ret, raise, observe, logger_info, logger_error,
      sio_emit, sio_leave_room, transport_call, set_mem, set_faults, set_trace,
      is_Exception; simpl;
    destruct fs as [|[e1|] [|[e2|] [|[e3|] fs]]]; simpl; added_part;
    rewrite ?Forall_app, ?Forall_cons, ?Forall_nil;
    repeat split; auto using reaches_room_of_log;
    apply (deliveries_reach sid m); intros c;
    first [ apply Members_Leave_sub | by right ].
Qed.

(** C3.  A join or leave request whose [user_id] or [chatroom_id] is
    absent, null or the empty string is answered (by a transport that
    takes the call) with one emission of the [error] event saying that
    both fields are required, addressed to the room named after the
    issuing connection; it changes no membership.  The event reaches the
    issuing connection and nobody else when that room holds the issuing
    connection alone.  Whatever the request, neither handler looks
    anything up in the persistence store. *)
Theorem C3_invalid_request_rejected :
  (∀ sid data w,
     absent_or_blank data "user_id" ∨ absent_or_blank data "chatroom_id" →
     next_fault w = None →
     rejects join sid data w ∧ rejects leave sid data w) ∧
  (∀ sid data w,
     absent_or_blank data "user_id" ∨ absent_or_blank data "chatroom_id" →
     next_fault w = None →
     alone_in_own_room sid (mem w) →
     rejects_issuer_only join sid data w ∧ rejects_issuer_only leave sid data w) ∧
  never_queries join ∧ never_queries leave.
Proof.
  split_and!.
  - intros sid data w Hbad Hf. split.
    + by apply join_invalid.
    + by apply leave_invalid.
  - intros sid data w Hbad Hf Halone. split.
    + destruct (join_invalid sid data w Hbad Hf) as (w' & ? & Hadd & ?).
      exists w'. by rewrite deliveries_alone in Hadd.
    + destruct (leave_invalid sid data w Hbad Hf) as (w' & ? & Hadd & ?).
      exists w'. by rewrite deliveries_alone in Hadd.
  - apply never_queries_join.
  - apply never_queries_leave.
Qed.

Lemma C3_invalid_request_rejected_witness :
  (rejects join "A" (payload "" "room-xyz") overheard ∧
   rejects leave "A" (payload "" "room-xyz") overheard) ∧
  (rejects_issuer_only join "A" (payload "" "room-xyz") connected ∧
   rejects_issuer_only leave "A" (payload "" "room-xyz") connected).
Proof.
  split.
  - apply (proj1 C3_invalid_request_rejected).
    + left. right. right. vm_compute. reflexivity.
    + reflexivity.
  - apply (proj1 (proj2 C3_invalid_request_rejected)).
    + left. right. right. vm_compute. reflexivity.
    + reflexivity.
    + vm_compute. reflexivity.
Defined.

(** C3, as the spec states it, fails twice.  The error event is not for
    the issuing connection only: once [B] has joined the room named after
    [A], the error that answers a request of [A] with an empty [user_id]
    goes to [B] too.  And a blank field is not always refused: a
    [chatroom_id] of whitespace only is taken as given, and the connection
    is entered into the room of that name. *)
Lemma C3_counterexample :
  (absent_or_blank (payload "" "room-xyz") "user_id" ∧
   ¬ rejects_issuer_only join "A" (payload "" "room-xyz") overheard ∧
   ObsSend "B" "error" fields_required
     ∈ trace (snd (join "A" (payload "" "room-xyz") overheard))) ∧
  (whitespace_only (payload "u1" "  ") "chatroom_id" ∧
   ¬ rejects_issuer_only join "A" (payload "u1" "  ") connected ∧
   "A" ∈ Members (mem (snd (join "A" (payload "u1" "  ") connected))) "  ").
Proof.
  split; split_and!.
  - right. right. vm_compute. reflexivity.
  - intros (w' & Hrun & Hadd & _).
    assert (w' = snd (join "A" (payload "" "room-xyz") overheard)) as ->
      by (by rewrite Hrun).
    unfold added in Hadd. vm_compute in Hadd. discriminate Hadd.
  - vm_compute. repeat constructor.
  - exists "  ". split_and!; [vm_compute; reflexivity|discriminate|reflexivity].
  - intros (w' & Hrun & _ & Hmem).
    assert (w' = snd (join "A" (payload "u1" "  ") connected)) as ->
      by (by rewrite Hrun).
    vm_compute in Hmem. discriminate Hmem.
  - vm_compute. reflexivity.
Qed.

(** C5.  A join request that succeeds (both fields given, the transport
    takes both calls) enters the room and makes exactly one emission of
    the [joined] event, carrying the requested [chatroom_id], to the room
    named after the issuing connection as it is once the join is applied;
    a leave request that succeeds does the same with [left].  The event
    reaches the issuing connection and nobody else when that room held the
    issuing connection alone (and, for a leave, is not the room that is
    left).  Nothing either handler ever sends reaches a connection other
    than the issuing one and those that were in the room named after
    it. *)
Theorem C5_ack_to_issuer_only :
  (∀ sid data w,
     truthy (dict_get data "user_id") = true →
     truthy (dict_get data "chatroom_id") = true →
     no_fault 2 w →
     acknowledges join "joined" Join sid data w ∧
     acknowledges leave "left" Leave sid data w) ∧
  (∀ sid data w,
     truthy (dict_get data "user_id") = true →
     truthy (dict_get data "chatroom_id") = true →
     no_fault 2 w →
     alone_in_own_room sid (mem w) →
     acknowledges_issuer_only join "joined" Join sid data w ∧
     (str_of (dict_get data "chatroom_id") ≠ sid →
      acknowledges_issuer_only leave "left" Leave sid data w)) ∧
  answers_own_room_only join ∧ answers_own_room_only leave.
Proof.
  split_and!.
  - intros sid data w Hu Hc Hf. split.
    + destruct (join_valid sid data w Hu Hc Hf) as (w' & ? & ? & ?).
      exists w'. eexists. split_and!; eauto.
    + destruct (leave_valid sid data w Hu Hc Hf) as (w' & ? & ? & ?).
      exists w'. eexists. split_and!; eauto.
  - intros sid data w Hu Hc Hf Halone. split.
    + destruct (join_valid sid data w Hu Hc Hf) as (w' & ? & Hmem & Hadd).
      exists w'. eexists. split_and!; [done| |done].
      rewrite deliveries_alone in Hadd; [exact Hadd|].
      rewrite Hmem. by apply alone_Join.
    + intros Hne.
      destruct (leave_valid sid data w Hu Hc Hf) as (w' & ? & Hmem & Hadd).
      exists w'. eexists. split_and!; [done| |done].
      rewrite deliveries_alone in Hadd; [exact Hadd|].
      rewrite Hmem. by apply alone_Leave.
  - apply join_own_room_only.
  - apply leave_own_room_only.
Qed.

Lemma C5_ack_to_issuer_only_witness :
  (acknowledges join "joined" Join "A" (payload "u1" "R1") overheard ∧
   acknowledges leave "left" Leave "A" (payload "u1" "R1") overheard) ∧
  (acknowledges_issuer_only join "joined" Join "A" (payload "u1" "R1") connected ∧
   acknowledges_issuer_only leave "left" Leave "A" (payload "u1" "R1") connected).
Proof.
  split.
  - apply (proj1 C5_ack_to_issuer_only).
    + vm_compute. reflexivity.
    + vm_compute. reflexivity.
    + constructor.
  - assert (truthy (dict_get (payload "u1" "R1") "user_id") = true) as Hu
      by (vm_compute; reflexivity).
    assert (truthy (dict_get (payload "u1" "R1") "chatroom_id") = true) as Hc
      by (vm_compute; reflexivity).
    assert (no_fault 2 connected) as Hf by constructor.
    assert (alone_in_own_room "A" (mem connected)) as Ha
      by (vm_compute; reflexivity).
    destruct (proj1 (proj2 C5_ack_to_issuer_only) "A" (payload "u1" "R1") connected
                Hu Hc Hf Ha) as [Hjoin Hleave].
    split; [exact Hjoin|]. apply Hleave. vm_compute. discriminate.
Defined.

(** C5, as the spec states it, fails: the acknowledgment is not for the
    issuing connection only.  Once [B] has joined the room named after
    [A], the [joined] event that answers a join of [A] goes to [B] too;
    and when [A] leaves the room named after itself, the [left] event
    reaches nobody. *)
Lemma C5_counterexample :
  (¬ acknowledges_issuer_only join "joined" Join "A" (payload "u1" "R1") overheard ∧
   ObsSend "B" "joined" (WDict [("chatroom_id", PStr "R1")])
     ∈ trace (snd (join "A" (payload "u1" "R1") overheard))) ∧
  (¬ acknowledges_issuer_only leave "left" Leave "A" (payload "u1" "A") connected ∧
   ∀ sid, ObsSend sid "left" (WDict [("chatroom_id", PStr "A")])
            ∉ trace (snd (leave "A" (payload "u1" "A") connected))).
Proof.
  split; split.
  - intros (w' & text & Hrun & Hadd & _).
    assert (w' = snd (join "A" (payload "u1" "R1") overheard)) as ->
      by (by rewrite Hrun).
    unfold added in Hadd. vm_compute in Hadd. discriminate Hadd.
  - vm_compute. repeat constructor.
  - intros (w' & text & Hrun & Hadd & _).
    assert (w' = snd (leave "A" (payload "u1" "A") connected)) as ->
      by (by rewrite Hrun).
    unfold added in Hadd. vm_compute in Hadd. discriminate Hadd.
  - intros sid.
    assert (trace (snd (leave "A" (payload "u1" "A") connected))
            = [ObsLog INFO "Client A (user u1) left chatroom A";
               ObsLog INFO "Client A connected"]) as ->
      by (vm_compute; reflexivity).
    rewrite !elem_of_cons, elem_of_nil. intros H; decompose [or] H; done.
Qed.

End join_leave_theorems.

(** ** Replies and their parents *)

Section reply_theorems.

Lemma text_accepted_length v : text_accepted v → (1 ≤ String.length v ≤ 1024)%nat.
Proof.
  intros [Hlen Hs]. split; [|done].
  destruct v; [by destruct Hs | simpl; lia].
Qed.

(** A body whose text is accepted and whose supplied parent agrees with
    the reply flag becomes a request. *)
Lemma parse_request_accepted b :
  text_accepted (Body.message_text b) →
  (∀ v, Body.parent_message_id b = Supplied v → Body.is_reply b = truthy v) →
  parse_request b =
    Ok (MessageCreateRequest.Make (strip (Body.message_text b)) (Body.user_id b)
          (Body.chatroom_id b) (Body.is_reply b) (body_parent b)).
Proof.
  intros Htext Hflag. unfold parse_request, body_parent.
  destruct (text_accepted_length _ Htext) as [H1 H2].
  apply Nat.leb_le in H1, H2. rewrite H1, H2; simpl.
  rewrite validate_message_text_accepted by done.
  destruct (Body.parent_message_id b) as [|v]; [done|].
  unfold validate_parent_message_id. rewrite (Hflag v eq_refl).
  by destruct (truthy v).
Qed.

(** A body whose text is not accepted is turned down by the schema. *)
Lemma parse_request_text_rejected b :
  ¬ text_accepted (Body.message_text b) →
  ∃ msg, parse_request b = Raise (RequestValidationError msg).
Proof.
  intros Htext. unfold parse_request.
  destruct (negb _) eqn:Hlen; [eauto|].
  apply negb_false_iff, andb_true_iff in Hlen as [H1 H2].
  apply Nat.leb_le in H1, H2.
  unfold validate_message_text.
  destruct (bool_decide (Body.message_text b = "") ||
            bool_decide (strip (Body.message_text b) = "")) eqn:E; [eauto|].
  apply orb_false_iff in E as [_ E]. apply bool_decide_eq_false in E.
  destruct Htext. by split.
Qed.

(** A supplied parent that disagrees with the reply flag is turned down by
    the schema. *)
Lemma parse_request_mismatch b v :
  Body.parent_message_id b = Supplied v →
  Body.is_reply b ≠ truthy v →
  ∃ msg, parse_request b = Raise (RequestValidationError msg).
Proof.
  intros Hv Hflag. unfold parse_request.
  destruct (negb _); [eauto|].
  destruct (validate_message_text _); [|eauto].
  rewrite Hv. unfold validate_parent_message_id.
  destruct (Body.is_reply b), (truthy v); simpl; eauto; done.
Qed.

(** What the schema lets through keeps the fields of the body. *)
Lemma parse_request_Ok b message_data :
  parse_request b = Ok message_data →
  MessageCreateRequest.user_id message_data = Body.user_id b ∧
  MessageCreateRequest.chatroom_id message_data = Body.chatroom_id b ∧
  MessageCreateRequest.is_reply message_data = Body.is_reply b ∧
  MessageCreateRequest.parent_message_id message_data = body_parent b.
Proof.
  unfold parse_request, body_parent.
  destruct (negb _); [done|].
  destruct (validate_message_text _); [|done].
  destruct (Body.parent_message_id b) as [|v].
  - by intros [= <-].
  - unfold validate_parent_message_id.
    destruct (_ && _); [done|]. destruct (_ && _); [done|]. by intros [= <-].
Qed.

Lemma parse_request_Raise b e :
  parse_request b = Raise e → ∃ msg, e = RequestValidationError msg.
Proof.
  unfold parse_request. repeat case_match; intros; simplify_eq; eauto.
Qed.

Lemma Message_init_accepted v u c r p :
  text_accepted v → r = truthy p →
  Message_init (strip v) u c r p = Ok (Message.Make "" (strip v) u c r p 0 0).
Proof.
  intros Htext ->. unfold Message_init.
  rewrite _validate_message_text_strip by done.
  by destruct (truthy p).
Qed.

(** A failed execution of create-message leaves the store as it was and
    delivers nothing. *)
Lemma create_outcome_Raise message_data uuid4 utcnow w e w' :
  create_outcome message_data uuid4 utcnow w (Raise e) w' →
  messages w' = messages w ∧
  ∃ new, added w w' new ∧ ∀ sid event data, ObsSend sid event data ∉ new.
Proof.
  intros Ho. inversion Ho; subst; simpl; (split; [done|]); unfold added; simpl.
  - eexists [_]. split; [done|]. intros ???. by rewrite list_elem_of_singleton.
  - eexists [_; _]. split; [done|]. intros ???.
    rewrite elem_of_cons, list_elem_of_singleton. by intros [?|?].
  - exists (lookups message_data). split; [done|]. intros ???.
    apply lookups_no_send.
  - exists (ObsRollback :: lookups message_data). split; [done|]. intros ???.
    rewrite elem_of_cons. intros [?|H']; [done|]. by apply lookups_no_send in H'.
  - exists (lookups message_data). split; [done|]. intros ???.
    apply lookups_no_send.
Qed.

(** C9.  Every message that create-message accepts and persists is a
    reply exactly when its parent reference is set and names a message
    that exists.  A body whose reply flag and parent reference disagree is
    always refused, and nothing is persisted or delivered; the refusal is
    a validation error whenever the parent reference is supplied, and
    whenever the user and the chatroom of the body exist.  A reply whose
    parent does not exist is always refused, and nothing is persisted or
    delivered; the refusal is a not-found error whenever the text of the
    body passes the schema, and it is the error of the parent look-up
    whenever the user and the chatroom exist as well. *)
Theorem C9_reply_consistency b uuid4 utcnow w :
  let res := fst (post_message b uuid4 utcnow w) in
  let w' := snd (post_message b uuid4 utcnow w) in
  (∀ response, res = Ok response →
     ∃ row, messages w !! uuid4 = None ∧
            messages w' !! uuid4 = Some row ∧
            response = MessageResponse.from_orm row ∧
            reply_iff_parent (messages w) row) ∧
  (flag_mismatch b →
     ∃ e, creation_fails w w' res e ∧
          (Body.parent_message_id b ≠ Omitted → is_validation_error e = true) ∧
          (Body.user_id b ∈ users w → Body.chatroom_id b ∈ chatrooms w →
           is_validation_error e = true)) ∧
  (∀ p, Body.is_reply b = true → body_parent b = PStr p → p ≠ "" →
        messages w !! p = None →
     ∃ e, creation_fails w w' res e ∧
          (text_accepted (Body.message_text b) → is_not_found e = true) ∧
          (text_accepted (Body.message_text b) →
           Body.user_id b ∈ users w → Body.chatroom_id b ∈ chatrooms w →
           e = HTTPException 404 "Parent message not found")).
Proof.
  cbv zeta.
  destruct (post_message_cases b uuid4 utcnow w)
    as [(e & Hparse & ->)|(md & Hparse & ->)]; simpl.
  - (* the schema refuses the body *)
    destruct (parse_request_Raise _ _ Hparse) as [msg ->].
    assert (creation_fails w w (Raise (RequestValidationError msg))
              (RequestValidationError msg)) as Hfail.
    { split_and!; try done. exists []. split; [done|]. intros ???.
      apply not_elem_of_nil. }
    assert (∀ p, Body.is_reply b = true → body_parent b = PStr p → p ≠ "" →
                 ¬ text_accepted (Body.message_text b)) as Htext.
    { intros p Hr Hp Hne Htext.
      rewrite parse_request_accepted in Hparse; [done..|].
      intros v Hv. unfold body_parent in Hp. rewrite Hv in Hp. subst v.
      rewrite Hr. simpl. by rewrite bool_decide_eq_true_2. }
    split_and!.
    + done.
    + intros _. eexists. split_and!; eauto.
    + intros p Hr Hp Hne Hnone. eexists. split_and!; [done|..].
      * intros H. by destruct (Htext p).
      * intros H. by destruct (Htext p).
  - (* the handler runs *)
    pose proof (create_message_outcome md uuid4 utcnow w) as Ho.
    destruct (parse_request_Ok _ _ Hparse) as (Hu & Hc & Hr & Hp).
    destruct (create_message md uuid4 utcnow w) as [res w'] eqn:Hrun; simpl in *.
    split_and!.
    + intros response ->.
      inversion Ho as [| | | | |db_message emitted fs ? ? Hpf Hinit Hid Hem]; subst.
      exists (new_row md uuid4 utcnow). split_and!; try done.
      { simpl. by rewrite lookup_insert_eq. }
      apply Message_init_Ok in Hinit as [_ Hflag].
      unfold reply_iff_parent, parent_found in *; simpl. split.
      * intros Hrep. rewrite Hrep in *. split; [done|]. apply Hpf.
        by rewrite <- Hflag.
      * intros [Ht _]. by rewrite Hflag.
    + intros Hmis.
      assert (Body.parent_message_id b = Omitted) as Hom.
      { destruct (Body.parent_message_id b) as [|v] eqn:Hv; [done|].
        destruct (parse_request_mismatch b v Hv) as [msg Hmsg]; [|congruence].
        unfold flag_mismatch, body_parent in Hmis. rewrite Hv in Hmis.
        destruct Hmis as [[-> ->]|[-> ->]]; done. }
      assert (MessageCreateRequest.is_reply md = true ∧
              MessageCreateRequest.parent_message_id md = PNone) as [Hrep Hpar].
      { unfold flag_mismatch, body_parent in *. rewrite Hom in *.
        destruct Hmis as [[? _]|[_ ?]]; [|done]. split; congruence. }
      inversion Ho as [Hnu|? Hnc|? ? ? Ht|msg ? ? ? Hinit
                      |db_message ? ? ? Hinit|db_message ? ? ? ? ? Hinit];
        subst;
        try (apply Message_init_Ok in Hinit as [_ Hflag];
             rewrite Hrep, Hpar in Hflag; done);
        try (rewrite Hpar in Ht; done);
        (eexists; split_and!;
          [split; [done|]; by eapply create_outcome_Raise
          |done|]).
      * intros ? _. by rewrite Hu in Hnu.
      * intros _ ?. by rewrite Hc in Hnc.
      * done.
    + intros p Hrep Hpar Hne Hnone.
      rewrite <- Hr in Hrep. rewrite <- Hp in Hpar.
      assert (¬ parent_found md w) as Hnf.
      { unfold parent_found. rewrite Hrep, Hpar; simpl.
        rewrite bool_decide_eq_true_2 by done. intros Hpf.
        destruct (Hpf eq_refl) as [x Hx]. congruence. }
      inversion Ho as [Hnu|? Hnc| | | |]; subst; try done;
        (eexists; split_and!;
          [split; [done|]; by eapply create_outcome_Raise
          |done|]).
      * intros _ ? _. by rewrite Hu in Hnu.
      * intros _ _ ?. by rewrite Hc in Hnc.
      * done.
Qed.

Lemma C9_reply_consistency_witness :
  (∃ e, creation_fails scenario
          (snd (post_message flag_only_body "m1" 0 scenario))
          (fst (post_message flag_only_body "m1" 0 scenario)) e ∧
        (Body.parent_message_id flag_only_body ≠ Omitted →
         is_validation_error e = true) ∧
        (Body.user_id flag_only_body ∈ users scenario →
         Body.chatroom_id flag_only_body ∈ chatrooms scenario →
         is_validation_error e = true)) ∧
  (∃ e, creation_fails scenario
          (snd (post_message lost_parent_body "m1" 0 scenario))
          (fst (post_message lost_parent_body "m1" 0 scenario)) e ∧
        (text_accepted (Body.message_text lost_parent_body) →
         is_not_found e = true) ∧
        (text_accepted (Body.message_text lost_parent_body) →
         Body.user_id lost_parent_body ∈ users scenario →
         Body.chatroom_id lost_parent_body ∈ chatrooms scenario →
         e = HTTPException 404 "Parent message not found")).
Proof.
  split.
  - apply (proj1 (proj2 (C9_reply_consistency flag_only_body "m1" 0 scenario))).
    left. split; reflexivity.
  - apply (proj2 (proj2 (C9_reply_consistency lost_parent_body "m1" 0 scenario))
             "nope").
    + reflexivity.
    + reflexivity.
    + intros H. discriminate H.
    + vm_compute. reflexivity.
Defined.

(** C10. The parent look-up of create-message is not scoped to the target
    chatroom: a reply whose parent exists in another chatroom than the one
    the reply is posted to is created, and its chatroom differs from its
    parent's. *)
Theorem C10_parent_check_is_global b uuid4 utcnow w p parent :
  Body.is_reply b = true →
  Body.parent_message_id b = Supplied (PStr p) →
  p ≠ "" →
  messages w !! p = Some parent →
  Message.chatroom_id parent ≠ Body.chatroom_id b →
  Body.user_id b ∈ users w →
  Body.chatroom_id b ∈ chatrooms w →
  text_accepted (Body.message_text b) →
  messages w !! uuid4 = None →
  ∃ response w' row,
    post_message b uuid4 utcnow w = (Ok response, w') ∧
    messages w' !! uuid4 = Some row ∧
    response = MessageResponse.from_orm row ∧
    Message.is_reply row = true ∧
    Message.parent_message_id row = PStr p ∧
    messages w' !! p = Some parent ∧
    Message.chatroom_id row = Body.chatroom_id b ∧
    Message.chatroom_id row ≠ Message.chatroom_id parent.
Proof.
  intros Hrep Hpar Hne Hparent Hroom Hu Hc Htext Hid.
  assert (truthy (PStr p) = true) as Htruthy
    by (simpl; by rewrite bool_decide_eq_true_2).
  assert (parse_request b =
            Ok (MessageCreateRequest.Make (strip (Body.message_text b))
                  (Body.user_id b) (Body.chatroom_id b) true (PStr p))) as Hparse.
  { rewrite parse_request_accepted; [|done|].
    - unfold body_parent. by rewrite Hpar, Hrep.
    - intros v Hv. rewrite Hpar in Hv. injection Hv as <-. by rewrite Hrep. }
  unfold post_message. rewrite Hparse.
  set (md := MessageCreateRequest.Make _ _ _ _ _).
  pose proof (create_message_outcome md uuid4 utcnow w) as Ho.
  destruct (create_message md uuid4 utcnow w) as [res w'] eqn:Hrun; simpl in Ho.
  assert (Message_init (strip (Body.message_text b)) (Body.user_id b)
            (Body.chatroom_id b) true (PStr p) =
          Ok (Message.Make "" (strip (Body.message_text b)) (Body.user_id b)
                (Body.chatroom_id b) true (PStr p) 0 0)) as Hinit
    by (by apply Message_init_accepted).
  inversion Ho as [| |? ? ? ? Hnone|msg ? ? ? Hinit'|db_message ? ? ? ? Hdup
                  |db_message emitted fs ? ? ? ? ? Hem];
    subst; simpl in *; try done; try congruence.
  - destruct Hdup as [x Hx]. congruence.
  - do 2 eexists. exists (new_row md uuid4 utcnow).
    split; [reflexivity|]. simpl. split_and!; try done.
    + by rewrite lookup_insert_eq.
    + rewrite lookup_insert_ne; [done|]. intros ->. congruence.
Qed.

Lemma C10_parent_check_is_global_witness :
  ∃ response w' row,
    post_message reply_body "m2" 1 posted = (Ok response, w') ∧
    messages w' !! "m2" = Some row ∧
    response = MessageResponse.from_orm row ∧
    Message.is_reply row = true ∧
    Message.parent_message_id row = PStr "m1" ∧
    messages w' !! "m1" = Some (new_row hello "m1" 0) ∧
    Message.chatroom_id row = "R2" ∧
    Message.chatroom_id row ≠ "R1".
Proof.
  apply (C10_parent_check_is_global reply_body "m2" 1 posted "m1"
           (new_row hello "m1" 0)).
  - reflexivity.
  - reflexivity.
  - intros H. discriminate H.
  - vm_compute. reflexivity.
  - intros H. discriminate H.
  - vm_compute. reflexivity.
  - vm_compute. reflexivity.
  - split; [simpl; lia | vm_compute; intros H; discriminate H].
  - vm_compute. reflexivity.
Defined.

End reply_theorems.

(** ** The scenarios, run *)

Section scenarios.
Import Registry.

(** Delivery targeting: with [A] and [B] in [R1] and [C] in [R2], the post
    of the hello message to [R1] is delivered to [A] and [B] and committed
    before; [C] gets nothing. *)
Example posted_trace :
  take 6 (trace posted) =
    [ObsLog INFO "Emitted new_message event to chatroom R1";
     ObsSend "A" "new_message"
       (WMessage (MessageResponse.from_orm (new_row hello "m1" 0)));
     ObsSend "B" "new_message"
       (WMessage (MessageResponse.from_orm (new_row hello "m1" 0)));
     ObsCommit (new_row hello "m1" 0);
     ObsQuery "chatrooms" "R1";
     ObsQuery "users" "u1"].
Proof. vm_compute. reflexivity. Qed.

Example scenario_members :
  elements (Members (mem scenario) "R1") = ["A"; "B"] ∧
  elements (Members (mem scenario) "R2") = ["C"].
Proof. vm_compute. done. Qed.

(** Validation: a join with an empty [user_id] is answered with the error
    event and joins nothing. *)
Example join_blank_user :
  join "A" (payload "" "room-xyz") connected =
    (Ok tt,
     set_trace (ObsSend "A" "error" fields_required :: trace connected) connected).
Proof. vm_compute. reflexivity. Qed.

(** The room named after a connection is a room like any other: [B] has
    joined it, and hears what is meant for [A]. *)
Example overheard_members :
  elements (Members (mem overheard) "A") = ["A"; "B"] ∧
  elements (Members (mem overheard) "B") = ["B"].
Proof. vm_compute. done. Qed.

(** Disconnect cleanup: after [A] has gone, [R1] holds [B] only and [R2]
    has no entry left. *)
Example disconnect_two_rooms :
  elements (Members (mem (snd (on_disconnect "A" two_rooms))) "R1") = ["B"] ∧
  registry (mem (snd (on_disconnect "A" two_rooms))) !! "R2" = None.
Proof. vm_compute. done. Qed.

(** A reply flagged without a parent, by an existing user in an existing
    chatroom, is refused by the row constructor. *)
Example flag_only_refused :
  fst (post_message flag_only_body "m1" 0 scenario) =
    Raise (HTTPException 400 "parent_message_id is required when is_reply is True").
Proof. vm_compute. reflexivity. Qed.

End scenarios.

(** ** The message endpoints together *)

Section message_endpoints.
Import Registry.

(** What a successful post has done. *)
Lemma post_message_Ok b uuid4 utcnow w response w' :
  post_message b uuid4 utcnow w = (Ok response, w') →
  ∃ message_data,
    parse_request b = Ok message_data ∧
    create_outcome message_data uuid4 utcnow w (Ok response) w' ∧
    response = MessageResponse.from_orm (new_row message_data uuid4 utcnow) ∧
    messages w !! uuid4 = None ∧
    messages w' = <[uuid4 := new_row message_data uuid4 utcnow]> (messages w) ∧
    users w' = users w ∧ chatrooms w' = chatrooms w.
Proof.
  intros Hrun.
  destruct (post_message_cases b uuid4 utcnow w)
    as [(e & _ & He)|(md & Hparse & Hmd)]; [congruence|].
  rewrite Hmd in Hrun. apply create_message_run in Hrun.
  exists md. split; [done|]. split; [done|].
  inversion Hrun; subst. by simpl.
Qed.

(** X1.  What create-message returns can be read back: after a successful
    post, [get_message] of the returned identifier answers with the very
    response of the post, and that identifier is the one drawn for the
    row. *)
Theorem post_then_get b uuid4 utcnow w response w' :
  post_message b uuid4 utcnow w = (Ok response, w') →
  MessageResponse.id response = uuid4 ∧
  fst (get_message (MessageResponse.id response) w') = Ok response.
Proof.
  intros Hrun.
  destruct (post_message_Ok _ _ _ _ _ _ Hrun) as (md & _ & _ & -> & _ & Hms & _).
  split; [done|]. simpl.
  unfold get_message, bind, db_query_message, ret; simpl.
  by rewrite Hms, lookup_insert_eq.
Qed.

Lemma post_then_get_witness :
  MessageResponse.id (MessageResponse.from_orm (new_row hello "m1" 0)) = "m1" ∧
  fst (get_message
         (MessageResponse.id (MessageResponse.from_orm (new_row hello "m1" 0)))
         (snd (post_message hello_body "m1" 0 scenario)))
    = Ok (MessageResponse.from_orm (new_row hello "m1" 0)).
Proof.
  apply (post_then_get hello_body "m1" 0 scenario).
  vm_compute. reflexivity.
Defined.

Lemma list_messages_found chatroom_id w :
  chatroom_id ∈ chatrooms w →
  fst (list_messages_by_chatroom chatroom_id w) =
    Ok (MessageListResponse.Make
          (MessageResponse.from_orm <$>
             (map_to_list (rows_of chatroom_id (messages w))).*2)
          (size (rows_of chatroom_id (messages w)))).
Proof.
  intros Hc. unfold list_messages_by_chatroom, bind, db_query_chatroom,
    db_query_messages_of, ret, raise; simpl.
  rewrite bool_decide_eq_true_2 by done; simpl.
  by rewrite !length_fmap, length_map_to_list.
Qed.

(** X2.  [list_messages_by_chatroom] answers not-found for a chatroom that
    is not in the store, whatever rows carry its identifier; for a chatroom
    in the store it lists exactly the stored rows of that chatroom, and
    [total] is their number. *)
Theorem list_messages_exact chatroom_id w :
  (chatroom_id ∉ chatrooms w →
   fst (list_messages_by_chatroom chatroom_id w)
     = Raise (HTTPException 404 "Chatroom not found")) ∧
  (chatroom_id ∈ chatrooms w →
   ∃ listing, fst (list_messages_by_chatroom chatroom_id w) = Ok listing ∧
              lists_exactly w chatroom_id listing).
Proof.
  split.
  - intros Hc. unfold list_messages_by_chatroom, bind, db_query_chatroom, raise;
      simpl. by rewrite bool_decide_eq_false_2.
  - intros Hc. eexists. split; [by apply list_messages_found|].
    split_and!; simpl.
    + intros r. rewrite list_elem_of_fmap. split.
      * intros (row & -> & Hrow). apply list_elem_of_fmap in Hrow
          as ([key row'] & -> & Hin).
        apply elem_of_map_to_list, map_lookup_filter_Some in Hin as [Hk Hroom].
        by exists key, row'.
      * intros (key & row & Hk & Hroom & ->). exists row. split; [done|].
        apply list_elem_of_fmap. exists (key, row). split; [done|].
        by apply elem_of_map_to_list, map_lookup_filter_Some.
    + by rewrite !length_fmap, length_map_to_list.
    + done.
Qed.

Lemma list_messages_exact_witness :
  fst (list_messages_by_chatroom "R9" posted)
    = Raise (HTTPException 404 "Chatroom not found") ∧
  ∃ listing, fst (list_messages_by_chatroom "R1" posted) = Ok listing ∧
             lists_exactly posted "R1" listing.
Proof.
  split.
  - apply (proj1 (list_messages_exact "R9" posted)).
    vm_compute. intros H. discriminate H.
  - apply (proj2 (list_messages_exact "R1" posted)).
    vm_compute. reflexivity.
Defined.

Lemma rows_of_insert_same chatroom_id key row (ms : gmap string Message.t) :
  Message.chatroom_id row = chatroom_id →
  rows_of chatroom_id (<[key := row]> ms) = <[key := row]> (rows_of chatroom_id ms).
Proof. intros H. unfold rows_of. by rewrite map_filter_insert_True. Qed.

Lemma rows_of_insert_other chatroom_id key row (ms : gmap string Message.t) :
  Message.chatroom_id row ≠ chatroom_id →
  ms !! key = None →
  rows_of chatroom_id (<[key := row]> ms) = rows_of chatroom_id ms.
Proof.
  intros H Hkey. unfold rows_of.
  rewrite map_filter_insert_False by done. by rewrite delete_id.
Qed.

(** X3.  A message that has been posted shows in the listing of its
    chatroom, which grows by exactly that message; the listing of every
    other chatroom is what it was. *)
Theorem post_then_list b uuid4 utcnow w response w' chatroom_id :
  post_message b uuid4 utcnow w = (Ok response, w') →
  chatroom_id ∈ chatrooms w →
  ∃ before after,
    fst (list_messages_by_chatroom chatroom_id w) = Ok before ∧
    fst (list_messages_by_chatroom chatroom_id w') = Ok after ∧
    if decide (chatroom_id = Body.chatroom_id b) then
      (∀ r, r ∈ MessageListResponse.messages after ↔
            r = response ∨ r ∈ MessageListResponse.messages before) ∧
      MessageListResponse.total after = S (MessageListResponse.total before)
    else after = before.
Proof.
  intros Hrun Hc.
  destruct (post_message_Ok _ _ _ _ _ _ Hrun)
    as (md & Hparse & _ & -> & Hid & Hms & _ & Hcs).
  destruct (parse_request_Ok _ _ Hparse) as (_ & Hroom & _ & _).
  do 2 eexists. split; [by apply list_messages_found|].
  split; [apply list_messages_found; by rewrite Hcs|].
  rewrite Hms. destruct (decide (chatroom_id = Body.chatroom_id b)) as [->|Hne].
  - rewrite rows_of_insert_same by done. simpl.
    assert (rows_of (Body.chatroom_id b) (messages w) !! uuid4 = None) as Hfresh.
    { apply map_lookup_filter_None. by left. }
    split; [|by apply map_size_insert_None].
    intros r. rewrite !list_elem_of_fmap. split.
    + intros (row & -> & Hrow).
      apply list_elem_of_fmap in Hrow as ([key row'] & -> & Hin).
      apply elem_of_map_to_list in Hin. simpl.
      destruct (decide (key = uuid4)) as [->|Hk].
      * rewrite lookup_insert_eq in Hin. injection Hin as <-. by left.
      * rewrite lookup_insert_ne in Hin by done. right.
        exists row'. split; [done|]. apply list_elem_of_fmap.
        exists (key, row'). split; [done|]. by apply elem_of_map_to_list.
    + intros [->|(row & -> & Hrow)].
      * exists (new_row md uuid4 utcnow). split; [done|].
        apply list_elem_of_fmap. exists (uuid4, new_row md uuid4 utcnow).
        split; [done|]. apply elem_of_map_to_list, lookup_insert_eq.
      * exists row. split; [done|].
        apply list_elem_of_fmap in Hrow as ([key row'] & -> & Hin).
        apply elem_of_map_to_list in Hin.
        apply list_elem_of_fmap. exists (key, row'). split; [done|].
        apply elem_of_map_to_list. rewrite lookup_insert_ne; [done|].
        intros <-. congruence.
  - rewrite rows_of_insert_other; [done| |done]. simpl. congruence.
Qed.

Lemma post_then_list_witness :
  ∃ before after,
    fst (list_messages_by_chatroom "R1" scenario) = Ok before ∧
    fst (list_messages_by_chatroom "R1"
           (snd (post_message hello_body "m1" 0 scenario))) = Ok after ∧
    if decide ("R1" = Body.chatroom_id hello_body) then
      (∀ r, r ∈ MessageListResponse.messages after ↔
            r = MessageResponse.from_orm (new_row hello "m1" 0) ∨
            r ∈ MessageListResponse.messages before) ∧
      MessageListResponse.total after = S (MessageListResponse.total before)
    else after = before.
Proof.
  apply (post_then_list hello_body "m1" 0 scenario
           (MessageResponse.from_orm (new_row hello "m1" 0))
           (snd (post_message hello_body "m1" 0 scenario)) "R1").
  - vm_compute. reflexivity.
  - vm_compute. reflexivity.
Defined.

(** X4.  [delete_message] of an identifier that is not stored answers
    not-found and changes nothing.  For a stored one it removes that row
    and no other; afterwards the message can no longer be read, and
    deleting it again is answered not-found. *)
Theorem delete_then_get message_id w :
  let w' := snd (delete_message message_id w) in
  (messages w !! message_id = None →
   fst (delete_message message_id w) = Raise (HTTPException 404 "Message not found") ∧
   messages w' = messages w) ∧
  (is_Some (messages w !! message_id) →
   fst (delete_message message_id w) = Ok (DeleteResponse.Make true) ∧
   (∀ other, other ≠ message_id → messages w' !! other = messages w !! other) ∧
   fst (get_message message_id w') = Raise (HTTPException 404 "Message not found") ∧
   fst (delete_message message_id w') = Raise (HTTPException 404 "Message not found")).
Proof.
  cbv zeta. unfold delete_message, get_message, bind, db_query_message,
    db_delete_commit, raise, ret; simpl. split.
  - intros ->. by simpl.
  - intros [row ->]; simpl. split_and!; [done| |by rewrite lookup_delete_eq..].
    intros other Hne. by rewrite lookup_delete_ne.
Qed.

Lemma delete_then_get_witness :
  (fst (delete_message "m7" posted) = Raise (HTTPException 404 "Message not found") ∧
   messages (snd (delete_message "m7" posted)) = messages posted) ∧
  (fst (delete_message "m1" posted) = Ok (DeleteResponse.Make true) ∧
   (∀ other, other ≠ "m1" →
      messages (snd (delete_message "m1" posted)) !! other = messages posted !! other) ∧
   fst (get_message "m1" (snd (delete_message "m1" posted)))
     = Raise (HTTPException 404 "Message not found") ∧
   fst (delete_message "m1" (snd (delete_message "m1" posted)))
     = Raise (HTTPException 404 "Message not found")).
Proof.
  split.
  - apply (proj1 (delete_then_get "m7" posted)). vm_compute. reflexivity.
  - apply (proj2 (delete_then_get "m1" posted)). vm_compute. eauto.
Defined.

(** X5.  Deleting a message does nothing about its replies: a reply to the
    deleted message stays in the store and is read back unchanged, still
    flagged as a reply and still naming the parent, which no longer
    exists.  That a reply's parent exists is true when the reply is
    created, not of the store at large. *)
Theorem delete_keeps_replies parent_id reply_id reply w :
  is_Some (messages w !! parent_id) →
  messages w !! reply_id = Some reply →
  reply_id ≠ parent_id →
  Message.is_reply reply = true →
  Message.parent_message_id reply = PStr parent_id →
  let w' := snd (delete_message parent_id w) in
  fst (delete_message parent_id w) = Ok (DeleteResponse.Make true) ∧
  fst (get_message reply_id w') = Ok (MessageResponse.from_orm reply) ∧
  messages w' !! parent_id = None ∧
  ¬ reply_iff_parent (messages w') reply.
Proof.
  intros [parent Hparent] Hreply Hne Hflag Hpar. cbv zeta.
  unfold delete_message, get_message, bind, db_query_message,
    db_delete_commit, raise, ret; simpl.
  rewrite Hparent; simpl. rewrite lookup_delete_ne by done. rewrite Hreply.
  split_and!; try done.
  - apply lookup_delete_eq.
  - unfold reply_iff_parent. rewrite Hflag, Hpar; simpl.
    rewrite lookup_delete_eq. intros [H _]. destruct (H eq_refl) as [_ [x Hx]].
    done.
Qed.

Lemma delete_keeps_replies_witness :
  fst (delete_message "m1" replied) = Ok (DeleteResponse.Make true) ∧
  fst (get_message "m2" (snd (delete_message "m1" replied)))
    = Ok (MessageResponse.from_orm
            (new_row (MessageCreateRequest.Make "re: hello" "u2" "R2" true (PStr "m1"))
               "m2" 1)) ∧
  messages (snd (delete_message "m1" replied)) !! "m1" = None ∧
  ¬ reply_iff_parent (messages (snd (delete_message "m1" replied)))
      (new_row (MessageCreateRequest.Make "re: hello" "u2" "R2" true (PStr "m1"))
         "m2" 1).
Proof.
  apply (delete_keeps_replies "m1" "m2"
           (new_row (MessageCreateRequest.Make "re: hello" "u2" "R2" true (PStr "m1"))
              "m2" 1) replied).
  - vm_compute. eauto.
  - vm_compute. reflexivity.
  - intros H. discriminate H.
  - reflexivity.
  - reflexivity.
Defined.

(** *** What a request adds to the trace *)

Lemma quiet_is_quiet_or_burst w w' :
  only_adds not_delivery w w' → quiet_or_burst w w'.
Proof. intros (new & Hnew & Hq). exists new. split; [done|by left]. Qed.

Lemma not_delivery_query table key : not_delivery (ObsQuery table key).
Proof. by intros sid m. Qed.

Lemma create_outcome_shape message_data uuid4 utcnow w res w' :
  create_outcome message_data uuid4 utcnow w res w' → quiet_or_burst w w'.
Proof.
  intros Ho. pose proof (lookups_not_delivery message_data) as Hl.
  destruct Ho as [| | | | |db_message emitted fs ? ? ? ? ? Hem];
    unfold quiet_or_burst, added; simpl.
  - eexists [_]. split; [done|]. left. repeat constructor. by intros ??.
  - eexists [_; _]. split; [done|]. left. repeat constructor; by intros ??.
  - exists (lookups message_data). split; [done|]. by left.
  - exists (ObsRollback :: lookups message_data). split; [done|]. left.
    constructor; [by intros ??|done].
  - exists (lookups message_data). split; [done|]. by left.
  - exists (emitted ++ ObsCommit (new_row message_data uuid4 utcnow)
                      :: lookups message_data)%list.
    split; [by rewrite <- app_assoc|].
    destruct Hem; simpl.
    + left. constructor; [by intros ??|done].
    + right. eexists [_], _, _, _. split; [reflexivity|].
      split; [|done]. repeat constructor. by intros ??.
    + left. repeat constructor; try done; by intros ??.
Qed.

Lemma step_shape ev w : quiet_or_burst w (step ev w).
Proof.
  destruct ev as [sid|sid|sid data|sid data|b uuid4 utcnow|fs]; simpl.
  - apply quiet_is_quiet_or_burst. eexists [_]. split; [done|].
    repeat constructor. by intros ??.
  - apply quiet_is_quiet_or_burst. eexists [_]. split; [done|].
    repeat constructor. by intros ??.
  - apply quiet_is_quiet_or_burst, join_only_adds;
      auto using not_delivery_log, not_delivery_dict.
  - apply quiet_is_quiet_or_burst, leave_only_adds;
      auto using not_delivery_log, not_delivery_dict.
  - destruct (post_message_cases b uuid4 utcnow w) as [(e & _ & ->)|(md & _ & ->)].
    + apply quiet_is_quiet_or_burst. by exists [].
    + eapply create_outcome_shape, create_message_outcome.
  - apply quiet_is_quiet_or_burst. by exists [].
Qed.

Lemma serve_shape r w : quiet_or_burst w (serve r w).
Proof.
  destruct r as [ev|message_id|chatroom_id|message_id|server]; simpl.
  - apply step_shape.
  - apply quiet_is_quiet_or_burst. eexists [_].
    unfold get_message, bind, db_query_message, raise, ret; simpl.
    split; [by destruct (messages w !! message_id)|].
    repeat constructor. apply not_delivery_query.
  - apply quiet_is_quiet_or_burst.
    unfold list_messages_by_chatroom, bind, db_query_chatroom,
      db_query_messages_of, raise, ret; simpl.
    destruct (bool_decide (chatroom_id ∈ chatrooms w)); simpl.
    + eexists [_; _]. split; [done|]. repeat constructor; apply not_delivery_query.
    + eexists [_]. split; [done|]. repeat constructor; apply not_delivery_query.
  - apply quiet_is_quiet_or_burst. eexists [_].
    unfold delete_message, bind, db_query_message, db_delete_commit, raise, ret;
      simpl.
    split; [by destruct (messages w !! message_id)|].
    repeat constructor. apply not_delivery_query.
  - apply quiet_is_quiet_or_burst. by exists [].
Qed.

Lemma delivered_at_commit_quiet new tr :
  Forall not_delivery new → delivered_at_commit tr → delivered_at_commit (new ++ tr).
Proof.
  induction 1 as [|o new Ho _ IH]; intros Htr; simpl; [done|].
  split; [|by apply IH]. intros sid m ->. by destruct (Ho sid m).
Qed.

Lemma delivered_at_commit_burst row sids tr :
  delivered_at_commit tr →
  delivered_at_commit (burst row sids ++ ObsCommit row :: tr).
Proof.
  intros Htr. induction sids as [|sid sids IH]; simpl.
  - split; [by intros ??|done].
  - split; [|exact IH]. intros sid' m [= _ <-].
    destruct sids as [|sid'' sids]; simpl.
    + right. by eexists _, _.
    + left. by eexists _, _.
Qed.

Lemma delivered_at_commit_serve r w :
  delivered_at_commit (trace w) → delivered_at_commit (trace (serve r w)).
Proof.
  intros Htr.
  destruct (serve_shape r w) as (new & -> & [Hq|(top & row & sids & below & -> & Ht & Hb)]).
  - by apply delivered_at_commit_quiet.
  - rewrite <- !app_assoc. apply delivered_at_commit_quiet; [done|].
    rewrite <- app_comm_cons. apply delivered_at_commit_burst.
    by apply delivered_at_commit_quiet.
Qed.

Lemma delivered_at_commit_sound tr newer sid m older :
  delivered_at_commit tr →
  tr = (newer ++ ObsSend sid "new_message" (WMessage m) :: older)%list →
  directly_after_commit m older.
Proof.
  revert tr. induction newer as [|o newer IH]; intros tr H ->; simpl in H.
  - destruct H as [H _]. by apply (H sid m).
  - destruct H as [_ H]. by apply (IH _ H).
Qed.

Lemma serve_all_invariant (I : world → Prop) rs w :
  (∀ r w, I w → I (serve r w)) → I w → I (serve_all rs w).
Proof.
  intros Hserve. revert w. induction rs as [|r rs IH]; intros w Hw; simpl;
    [done|]. by apply IH, Hserve.
Qed.

(** X6.  Whatever requests the server has handled (Socket.IO events,
    posts, reads, listings, deletions, rewiring of the server object),
    every delivery of a [new_message] event in its trace sits directly on
    the commit of the message it carries, with only deliveries of the same
    message in between: a message is delivered by the execution that
    committed it and by no later request. *)
Theorem deliveries_follow_commit us cs ms rs newer sid m older :
  trace (serve_all rs (init us cs ms)) =
    (newer ++ ObsSend sid "new_message" (WMessage m) :: older)%list →
  directly_after_commit m older.
Proof.
  apply delivered_at_commit_sound.
  apply (serve_all_invariant (λ w, delivered_at_commit (trace w))); [|done].
  intros r w. apply delivered_at_commit_serve.
Qed.

Lemma deliveries_follow_commit_witness :
  directly_after_commit (MessageResponse.from_orm (new_row hello "m1" 0))
    (drop 2 (trace posted)).
Proof.
  apply (deliveries_follow_commit {["u1"; "u2"]} {["R1"; "R2"]} ∅
           [ReqEvent (EvConnect "A"); ReqEvent (EvConnect "B");
            ReqEvent (EvConnect "C");
            ReqEvent (EvJoin "A" (payload "u1" "R1"));
            ReqEvent (EvJoin "B" (payload "u2" "R1"));
            ReqEvent (EvJoin "C" (payload "u1" "R2"));
            ReqEvent (EvPostMessage hello_body "m1" 0)]
           (take 1 (trace posted)) "A"
           (MessageResponse.from_orm (new_row hello "m1" 0))
           (drop 2 (trace posted))).
  vm_compute. reflexivity.
Defined.

(** *** What stays true of the store *)

Lemma Message_init_text_ok text u c r p m :
  Message_init text u c r p = Ok m → _validate_message_text text = Ok tt.
Proof.
  unfold Message_init. by destruct (_validate_message_text text) as [[]|].
Qed.

Lemma create_outcome_row_ok message_data uuid4 utcnow w res w' :
  create_outcome message_data uuid4 utcnow w res w' →
  rows_ok w → rows_ok w'.
Proof.
  intros Ho Hw.
  destruct Ho as [| | | | |db_message emitted fs ? ? ? Hinit ? Hem]; try done.
  intros key row; simpl.
  destruct (decide (uuid4 = key)) as [->|Hne].
  - rewrite lookup_insert_eq. intros [= <-]. split_and!; simpl; [done| |].
    + by apply Message_init_Ok in Hinit as [_ ?].
    + by apply Message_init_text_ok in Hinit.
  - rewrite lookup_insert_ne by done. apply Hw.
Qed.

Lemma step_rows_ok ev w : rows_ok w → rows_ok (step ev w).
Proof.
  intros Hw. destruct ev as [sid|sid|sid data|sid data|b uuid4 utcnow|fs]; simpl;
    try done.
  - destruct (join_keeps_store sid data w) as (_ & _ & Hms).
    intros key row. rewrite Hms. apply Hw.
  - destruct (leave_keeps_store sid data w) as (_ & _ & Hms).
    intros key row. rewrite Hms. apply Hw.
  - destruct (post_message_cases b uuid4 utcnow w) as [(e & _ & ->)|(md & _ & ->)];
      [done|].
    eapply create_outcome_row_ok; [apply create_message_outcome | done].
Qed.

Lemma serve_rows_ok r w : rows_ok w → rows_ok (serve r w).
Proof.
  intros Hw. destruct r as [ev|message_id|chatroom_id|message_id|server]; simpl.
  - by apply step_rows_ok.
  - unfold get_message, bind, db_query_message, raise, ret; simpl.
    by destruct (messages w !! message_id).
  - unfold list_messages_by_chatroom, bind, db_query_chatroom,
      db_query_messages_of, raise, ret; simpl.
    by destruct (bool_decide (chatroom_id ∈ chatrooms w)).
  - unfold delete_message, bind, db_query_message, db_delete_commit, raise, ret;
      simpl.
    destruct (messages w !! message_id); simpl; [|done].
    intros key row Hrow. simpl in Hrow.
    apply lookup_delete_Some in Hrow as [_ Hrow]. by apply Hw.
  - done.
Qed.

(** X7.  Starting from an empty message table, whatever requests the
    server has handled, every stored message sits under its own
    identifier, is flagged as a reply exactly when it names a parent, and
    has a text that is not empty, not only whitespace and at most 1024
    characters long. *)
Theorem stored_rows_well_formed us cs rs key row :
  messages (serve_all rs (init us cs ∅)) !! key = Some row →
  row_ok key row.
Proof.
  revert key row.
  apply (serve_all_invariant rows_ok); [apply serve_rows_ok|].
  intros key row. simpl. by rewrite lookup_empty.
Qed.

Lemma stored_rows_well_formed_witness :
  row_ok "m1" (new_row hello "m1" 0).
Proof.
  apply (stored_rows_well_formed {["u1"; "u2"]} {["R1"; "R2"]}
           [ReqEvent (EvPostMessage hello_body "m1" 0);
            ReqDeleteMessage "m0"; ReqListMessages "R1"]).
  vm_compute. reflexivity.
Defined.

(** X8.  While the server object has not been handed to the messages
    module, a post persists its message and returns it, and that is all:
    nothing is delivered to the members of the room, nothing is logged and
    the transport is not called. *)
Theorem unwired_post_is_silent message_data uuid4 utcnow w response w' :
  create_message message_data uuid4 utcnow w = (Ok response, w') →
  sio w = false →
  messages w' !! uuid4 = Some (new_row message_data uuid4 utcnow) ∧
  added w w' (ObsCommit (new_row message_data uuid4 utcnow) :: lookups message_data) ∧
  faults w' = faults w.
Proof.
  intros Hrun Hsio. apply create_message_run in Hrun.
  inversion Hrun as [| | | | |db_message emitted fs ? ? ? ? ? Hem]; subst.
  inversion Hem; subst; try congruence.
  split_and!; try done. simpl. by rewrite lookup_insert_eq.
Qed.

Lemma unwired_post_is_silent_witness :
  messages (snd (create_message hello "m1" 0
                   (snd (set_socketio_server false scenario)))) !! "m1"
    = Some (new_row hello "m1" 0) ∧
  added (snd (set_socketio_server false scenario))
    (snd (create_message hello "m1" 0 (snd (set_socketio_server false scenario))))
    (ObsCommit (new_row hello "m1" 0) :: lookups hello) ∧
  faults (snd (create_message hello "m1" 0
                 (snd (set_socketio_server false scenario))))
    = faults (snd (set_socketio_server false scenario)).
Proof.
  apply (unwired_post_is_silent hello "m1" 0
           (snd (set_socketio_server false scenario))
           (MessageResponse.from_orm (new_row hello "m1" 0))).
  - vm_compute. reflexivity.
  - reflexivity.
Defined.

(** *** The 400 of create-message *)

Lemma parse_request_Ok_text b message_data :
  parse_request b = Ok message_data →
  text_accepted (Body.message_text b) ∧
  MessageCreateRequest.message_text message_data = strip (Body.message_text b) ∧
  (∀ v, Body.parent_message_id b = Supplied v → Body.is_reply b = truthy v).
Proof.
  unfold parse_request.
  destruct (negb _) eqn:Hlen; [done|].
  apply negb_false_iff, andb_true_iff in Hlen as [_ Hlen]. apply Nat.leb_le in Hlen.
  unfold validate_message_text.
  destruct (bool_decide (Body.message_text b = "") || _) eqn:E; [done|].
  apply orb_false_iff in E as [_ E]. apply bool_decide_eq_false in E.
  destruct (Body.parent_message_id b) as [|v].
  - intros [= <-]. by split_and!.
  - unfold validate_parent_message_id.
    destruct (Body.is_reply b) eqn:Hr, (truthy v) eqn:Ht; simpl; try done;
      intros [= <-]; split_and!; try done; intros ? [= <-]; by rewrite Ht.
Qed.

(** X9.  The create-message endpoint answers 400 in one case only: the
    body is flagged as a reply and leaves [parent_message_id] out, while
    its text passes the schema and its user and chatroom exist.  The
    schema has already stripped and checked the text, so the row
    constructor never refuses a text that reaches it through the
    endpoint. *)
Theorem post_message_400 b uuid4 utcnow w :
  (∃ detail, fst (post_message b uuid4 utcnow w) = Raise (HTTPException 400 detail)) ↔
  (Body.parent_message_id b = Omitted ∧
   Body.is_reply b = true ∧
   text_accepted (Body.message_text b) ∧
   Body.user_id b ∈ users w ∧
   Body.chatroom_id b ∈ chatrooms w).
Proof.
  split.
  - intros [detail Hres].
    destruct (post_message_cases b uuid4 utcnow w)
      as [(e & Hparse & He)|(md & Hparse & Hmd)].
    { rewrite He in Hres. simpl in Hres.
      destruct (parse_request_Raise _ _ Hparse) as [msg ->]. done. }
    rewrite Hmd in Hres.
    pose proof (create_message_outcome md uuid4 utcnow w) as Ho.
    rewrite Hres in Ho.
    destruct (parse_request_Ok _ _ Hparse) as (Hu & Hc & Hr & Hp).
    destruct (parse_request_Ok_text _ _ Hparse) as (Htext & Hmt & Hflag).
    inversion Ho as [| | |msg Hu' Hc' ? Hinit| |]; subst.
    rewrite Hmt, Hr, Hp in Hinit.
    destruct (decide (Body.is_reply b = truthy (body_parent b))) as [Heq|Hneq].
    { rewrite Message_init_accepted in Hinit by done. done. }
    unfold body_parent in Hneq.
    destruct (Body.parent_message_id b) as [|v] eqn:Hv.
    + simpl in Hneq. destruct (Body.is_reply b); [|done].
      split_and!; try done; congruence.
    + by destruct Hneq, (Hflag v).
  - intros (Hom & Hrep & Htext & Hu & Hc).
    assert (body_parent b = PNone) as Hbp by (unfold body_parent; by rewrite Hom).
    unfold post_message. rewrite parse_request_accepted; [|done|].
    2:{ intros v Hv. congruence. }
    rewrite Hbp, Hrep.
    set (md := MessageCreateRequest.Make _ _ _ _ _).
    pose proof (create_message_outcome md uuid4 utcnow w) as Ho.
    destruct (create_message md uuid4 utcnow w) as [res w']; simpl in *.
    assert (Message_init (strip (Body.message_text b)) (Body.user_id b)
              (Body.chatroom_id b) true PNone =
            Raise (ValueError "parent_message_id is required when is_reply is True"))
      as Hinit.
    { unfold Message_init. by rewrite _validate_message_text_strip. }
    inversion Ho; subst; simpl in *; try done; try congruence; eauto.
Qed.

Lemma post_message_400_witness :
  ∃ detail, fst (post_message flag_only_body "m1" 0 scenario)
              = Raise (HTTPException 400 detail).
Proof.
  apply (proj2 (post_message_400 flag_only_body "m1" 0 scenario)).
  split_and!.
  - reflexivity.
  - reflexivity.
  - split; [simpl; lia | vm_compute; intros H; discriminate H].
  - vm_compute. reflexivity.
  - vm_compute. reflexivity.
Defined.

End message_endpoints.

(** ** The join and leave handlers when the transport fails *)

Section handler_failures.
Import Registry.

Ltac run_handler :=
  unfold try_except, bind, ret, raise, observe, logger_info, logger_error,
    sio_emit, sio_enter_room, sio_leave_room, transport_call,
    set_mem, set_faults, set_trace, is_Exception in *; simpl in *.

(** X10.  When the room call of a well-formed join or leave request raises
    (and the transport then takes the next call), the handler does not
    fail: it logs the exception and emits the event saying that an error
    occurred to the room named after the issuing connection.  The
    membership is as it was and no acknowledgment is sent.  When that room
    holds the issuing connection alone, the error event reaches it and
    nobody else. *)
Theorem room_call_failure sid data w e fs :
  truthy (dict_get data "user_id") = true →
  truthy (dict_get data "chatroom_id") = true →
  faults w = Some e :: fs →
  next_fault (set_faults fs w) = None →
  (∃ w', join sid data w = (Ok tt, w') ∧
         mem w' = mem w ∧
         added w w' (deliveries (mem w) sid "error" error_occurred
                     ++ [ObsLog ERROR ("Error in join event: " +:+ exn_str e)]) ∧
         (alone_in_own_room sid (mem w) →
          added w w' [ObsSend sid "error" error_occurred;
                      ObsLog ERROR ("Error in join event: " +:+ exn_str e)])) ∧
  (∃ w', leave sid data w = (Ok tt, w') ∧
         mem w' = mem w ∧
         added w w' (deliveries (mem w) sid "error" error_occurred
                     ++ [ObsLog ERROR ("Error in leave event: " +:+ exn_str e)]) ∧
         (alone_in_own_room sid (mem w) →
          added w w' [ObsSend sid "error" error_occurred;
                      ObsLog ERROR ("Error in leave event: " +:+ exn_str e)])).
Proof.
  intros Hu Hc Hf Hnext. unfold join, leave, next_fault in *; cbv zeta.
  rewrite Hu, Hc; simpl.
  destruct w as [m us cs ms s fs0 tr]; simpl in *. subst fs0.
  run_handler. destruct fs as [|[e'|] fs]; simpl in *; try done;
    split; eexists; (split; [reflexivity|]); (split; [reflexivity|]);
    (split; [ unfold added; simpl; by rewrite <- app_assoc
            | intros Ha; unfold added; simpl; by rewrite fmap_elements_alone ]).
Qed.

Lemma room_call_failure_witness :
  ∃ w', join "A" (payload "u1" "R1")
          (set_faults [Some (TransportError "down")] scenario) = (Ok tt, w') ∧
        mem w' = mem (set_faults [Some (TransportError "down")] scenario) ∧
        added (set_faults [Some (TransportError "down")] scenario) w'
          (deliveries (mem (set_faults [Some (TransportError "down")] scenario))
             "A" "error" error_occurred
           ++ [ObsLog ERROR ("Error in join event: "
                             +:+ exn_str (TransportError "down"))]) ∧
        (alone_in_own_room "A"
           (mem (set_faults [Some (TransportError "down")] scenario)) →
         added (set_faults [Some (TransportError "down")] scenario) w'
           [ObsSend "A" "error" error_occurred;
            ObsLog ERROR ("Error in join event: "
                          +:+ exn_str (TransportError "down"))]).
Proof.
  apply (room_call_failure "A" (payload "u1" "R1")
           (set_faults [Some (TransportError "down")] scenario)
           (TransportError "down") []).
  - vm_compute. reflexivity.
  - vm_compute. reflexivity.
  - reflexivity.
  - reflexivity.
Defined.

(** X11.  When the room call of a join succeeds and the emission of its
    acknowledgment raises, the connection is in the room all the same: the
    join is not undone.  No [joined] event is delivered; the event saying
    that an error occurred is emitted to the room named after the issuing
    connection, and reaches the issuing connection and nobody else when
    that room held it alone.  Likewise a leave whose acknowledgment fails
    has left the room. *)
Theorem acknowledgment_failure sid data w e fs :
  truthy (dict_get data "user_id") = true →
  truthy (dict_get data "chatroom_id") = true →
  faults w = None :: Some e :: fs →
  next_fault (set_faults fs w) = None →
  (∃ w' text,
     join sid data w = (Ok tt, w') ∧
     mem w' = Join sid (str_of (dict_get data "chatroom_id")) (mem w) ∧
     added w w' (deliveries (mem w') sid "error" error_occurred
                 ++ [ObsLog ERROR ("Error in join event: " +:+ exn_str e);
                     ObsLog INFO text]) ∧
     (alone_in_own_room sid (mem w) →
      added w w' [ObsSend sid "error" error_occurred;
                  ObsLog ERROR ("Error in join event: " +:+ exn_str e);
                  ObsLog INFO text])) ∧
  (∃ w' text,
     leave sid data w = (Ok tt, w') ∧
     mem w' = Leave sid (str_of (dict_get data "chatroom_id")) (mem w) ∧
     added w w' (deliveries (mem w') sid "error" error_occurred
                 ++ [ObsLog ERROR ("Error in leave event: " +:+ exn_str e);
                     ObsLog INFO text]) ∧
     (alone_in_own_room sid (mem w) →
      str_of (dict_get data "chatroom_id") ≠ sid →
      added w w' [ObsSend sid "error" error_occurred;
                  ObsLog ERROR ("Error in leave event: " +:+ exn_str e);
                  ObsLog INFO text])).
Proof.
  intros Hu Hc Hf Hnext. unfold join, leave, next_fault in *; cbv zeta.
  rewrite Hu, Hc; simpl.
  destruct w as [m us cs ms s fs0 tr]; simpl in *. subst fs0.
  run_handler. destruct fs as [|[e'|] fs]; simpl in *; try done;
    split; eexists _, _; (split; [reflexivity|]); (split; [reflexivity|]);
    (split; [ unfold added; simpl; by rewrite <- app_assoc |]).
  - intros Ha. unfold added; simpl.
    rewrite fmap_elements_alone; [done|]. by apply alone_Join.
  - intros Ha Hne. unfold added; simpl.
    rewrite fmap_elements_alone; [done|]. by apply alone_Leave.
  - intros Ha. unfold added; simpl.
    rewrite fmap_elements_alone; [done|]. by apply alone_Join.
  - intros Ha Hne. unfold added; simpl.
    rewrite fmap_elements_alone; [done|]. by apply alone_Leave.
Qed.

Lemma acknowledgment_failure_witness :
  ∃ w' text,
    join "C" (payload "u1" "R1")
      (set_faults [None; Some (TransportError "down")] scenario) = (Ok tt, w') ∧
    mem w' = Join "C" (str_of (dict_get (payload "u1" "R1") "chatroom_id"))
               (mem (set_faults [None; Some (TransportError "down")] scenario)) ∧
    added (set_faults [None; Some (TransportError "down")] scenario) w'
      (deliveries (mem w') "C" "error" error_occurred
       ++ [ObsLog ERROR ("Error in join event: "
                         +:+ exn_str (TransportError "down"));
           ObsLog INFO text]) ∧
    (alone_in_own_room "C"
       (mem (set_faults [None; Some (TransportError "down")] scenario)) →
     added (set_faults [None; Some (TransportError "down")] scenario) w'
       [ObsSend "C" "error" error_occurred;
        ObsLog ERROR ("Error in join event: " +:+ exn_str (TransportError "down"));
        ObsLog INFO text]).
Proof.
  apply (acknowledgment_failure "C" (payload "u1" "R1")
           (set_faults [None; Some (TransportError "down")] scenario)
           (TransportError "down") []).
  - vm_compute. reflexivity.
  - vm_compute. reflexivity.
  - reflexivity.
  - reflexivity.
Defined.

(** X12.  An exception leaves the join or leave handler only when the
    emission of the error event in its [except] branch fails too: by then
    the first exception has been logged, and the handler has delivered
    nothing to anybody. *)
Theorem handler_escape sid data w e :
  (fst (join sid data w) = Raise e →
   escaped_after_logging "join" w (snd (join sid data w))) ∧
  (fst (leave sid data w) = Raise e →
   escaped_after_logging "leave" w (snd (leave sid data w))).
Proof.
  unfold join, leave, escaped_after_logging, added; cbv zeta.
  destruct (negb (truthy (dict_get data "user_id"))
            || negb (truthy (dict_get data "chatroom_id")));
    destruct w as [m us cs ms s fs tr]; run_handler;
    destruct fs as [|[e1|] [|[e2|] [|[e3|] fs]]]; simpl; split; intros He;
    try discriminate He;
    first [ eexists _, [_]; split; [reflexivity|]
          | eexists _, [_; _]; split; [reflexivity|] ];
    (split; [reflexivity|]);
    intros sid' event d; rewrite ?elem_of_cons, elem_of_nil;
    intros H; decompose [or] H; done.
Qed.

Lemma handler_escape_witness :
  escaped_after_logging "join"
    (set_faults [Some (TransportError "down"); Some (TransportError "still down")]
       scenario)
    (snd (join "A" (payload "u1" "R1")
            (set_faults [Some (TransportError "down");
                         Some (TransportError "still down")] scenario))).
Proof.
  apply (proj1 (handler_escape "A" (payload "u1" "R1")
                  (set_faults [Some (TransportError "down");
                               Some (TransportError "still down")] scenario)
                  (TransportError "still down"))).
  vm_compute. reflexivity.
Defined.

End handler_failures.

(** ** Users: handles and the users table *)

Section user_lemmas.

Lemma py_lower_length s : String.length (py_lower s) = String.length s.
Proof. induction s as [|a s IH]; simpl; [done|]. by rewrite IH. Qed.

Lemma handle_char_facts a :
  is_handle_char a = true →
  py_lower_char a = a ∧ py_isspace a = false ∧ Ascii.nat_of_ascii a ≠ 10.
Proof.
  unfold is_handle_char, py_lower_char, py_isspace.
  set (n := Ascii.nat_of_ascii a). intros H.
  repeat match goal with
         | |- context [(?x <=? ?y)%nat] => destruct (Nat.leb_spec x y)
         | H : context [(?x <=? ?y)%nat] |- _ => destruct (Nat.leb_spec x y)
         | H : context [(?x =? ?y)%nat] |- _ => destruct (Nat.eqb_spec x y)
         end; simpl in *; try done; split_and!; try done; lia.
Qed.

Lemma all_handle_chars_fixed s :
  all_chars is_handle_char s = true →
  py_lower s = s ∧ lstrip s = s ∧ rstrip s = s ∧ chomp s = s.
Proof.
  induction s as [|a s IH]; simpl; [done|].
  intros [Ha Hs]%andb_true_iff.
  destruct (handle_char_facts a Ha) as (Hl & Hsp & Hnl).
  destruct (IH Hs) as (IH1 & IH2 & IH3 & IH4).
  rewrite Hl, IH1, Hsp, IH3, andb_false_r. split_and!; try done.
  destruct s; [|by rewrite IH4].
  by destruct (Nat.eqb_spec (Ascii.nat_of_ascii a) 10).
Qed.

Lemma all_handle_chars_strip s :
  all_chars is_handle_char s = true → strip (py_lower s) = s.
Proof.
  intros H. destruct (all_handle_chars_fixed s H) as (H1 & H2 & H3 & _).
  unfold strip. by rewrite H1, H2, H3.
Qed.

Lemma newline_is_space a :
  Ascii.nat_of_ascii a = 10 → py_isspace a = true.
Proof. unfold py_isspace. by intros ->. Qed.

Lemma chomp_rstrip s : chomp (rstrip s) = rstrip s.
Proof.
  induction s as [|a s IH]; simpl; [done|].
  destruct (bool_decide (rstrip s = "") && py_isspace a) eqn:E; [done|].
  simpl. destruct (rstrip s) as [|b r] eqn:Hr.
  - simpl in E. destruct (Nat.eqb_spec (Ascii.nat_of_ascii a) 10) as [Hn|]; [|done].
    by rewrite (newline_is_space a Hn) in E.
  - by rewrite IH.
Qed.

Lemma chomp_strip s : chomp (strip s) = strip s.
Proof. apply chomp_rstrip. Qed.

(** What a match of the pattern on a stripped string says. *)
Lemma re_match_handle_strip s :
  re_match_handle (strip s) = true →
  strip s ≠ "" ∧ all_chars is_handle_char (strip s) = true.
Proof.
  unfold re_match_handle. rewrite chomp_strip.
  intros [H1 H2]%andb_true_iff. split; [|done].
  by apply negb_true_iff, bool_decide_eq_false in H1.
Qed.

Lemma re_match_handle_chars s :
  s ≠ "" → all_chars is_handle_char s = true → re_match_handle s = true.
Proof.
  intros Hne Hs. unfold re_match_handle.
  destruct (all_handle_chars_fixed s Hs) as (_ & _ & _ & ->).
  by rewrite Hs, bool_decide_eq_false_2.
Qed.

Lemma nonempty_length s : s ≠ "" → (1 ≤ String.length s)%nat.
Proof. destruct s; [done|simpl; lia]. Qed.

Lemma normalize_handle_shape h :
  handle_shape h → _validate_and_normalize_handle h = Ok h.
Proof.
  intros [[H1 H50] Hc]. unfold _validate_and_normalize_handle.
  assert (h ≠ "") as Hne by (intros ->; simpl in H1; lia).
  rewrite bool_decide_eq_false_2 by done.
  rewrite all_handle_chars_strip by done.
  rewrite re_match_handle_chars by done. simpl.
  destruct (Nat.ltb_spec 50 (String.length h)); [lia|].
  destruct (Nat.ltb_spec (String.length h) 1); [lia|done].
Qed.

Lemma normalize_handle_Ok h n :
  _validate_and_normalize_handle h = Ok n →
  n = strip (py_lower h) ∧ handle_shape n.
Proof.
  unfold _validate_and_normalize_handle.
  destruct (bool_decide (h = "")); [done|].
  destruct (re_match_handle (strip (py_lower h))) eqn:Hm; [|done]. simpl.
  destruct (Nat.ltb_spec 50 (String.length (strip (py_lower h)))); [done|].
  destruct (Nat.ltb_spec (String.length (strip (py_lower h))) 1); [done|].
  intros [= <-]. split; [done|].
  apply re_match_handle_strip in Hm as [Hne Hc]. split; [lia|done].
Qed.

(** X13.  A handle that [User._validate_and_normalize_handle] accepts comes
    out as one to fifty characters, each a lower-case letter, a digit or an
    underscore, and normalising it again gives it back unchanged.  The
    check for a handle shorter than one character never fires: no input
    produces its error. *)
Theorem handle_normal_form :
  (∀ h n, _validate_and_normalize_handle h = Ok n →
          handle_shape n ∧ _validate_and_normalize_handle n = Ok n) ∧
  (∀ h, _validate_and_normalize_handle h
          ≠ Raise (ValueError "Handle must be at least 1 character")).
Proof.
  split.
  - intros h n Hn. apply normalize_handle_Ok in Hn as [_ Hs].
    split; [done|]. by apply normalize_handle_shape.
  - intros h. unfold _validate_and_normalize_handle.
    destruct (bool_decide (h = "")); [done|].
    destruct (re_match_handle (strip (py_lower h))) eqn:Hm; [|done]. simpl.
    destruct (Nat.ltb_spec 50 (String.length (strip (py_lower h)))); [done|].
    apply re_match_handle_strip in Hm as [Hne _].
    apply nonempty_length in Hne.
    by destruct (Nat.ltb_spec (String.length (strip (py_lower h))) 1); [lia|].
Qed.

Lemma handle_normal_form_witness :
  handle_shape "bob_42" ∧ _validate_and_normalize_handle "bob_42" = Ok "bob_42".
Proof.
  apply (proj1 handle_normal_form "  Bob_42 " "bob_42").
  vm_compute. reflexivity.
Defined.

Lemma validate_handle_Ok v h :
  validate_handle v = Ok h →
  h = strip (py_lower v) ∧ h ≠ "" ∧ all_chars is_handle_char h = true.
Proof.
  unfold validate_handle. destruct (_ || _); [done|].
  destruct (re_match_handle (strip (py_lower v))) eqn:Hm; [|done]. simpl.
  intros [= <-]. split; [done|]. by apply re_match_handle_strip.
Qed.

Lemma parse_user_create_Ok name handle user_data :
  parse_user_create name handle = Ok user_data →
  validate_handle handle = Ok (UserCreateRequest.handle user_data) ∧
  handle_shape (UserCreateRequest.handle user_data).
Proof.
  unfold parse_user_create. destruct (negb _); [done|].
  destruct (validate_name name); [|done].
  destruct (negb _) eqn:Hlen; [done|].
  apply negb_false_iff, andb_true_iff in Hlen as [_ Hlen]. apply Nat.leb_le in Hlen.
  destruct (validate_handle handle) as [h|] eqn:Hh; [|done].
  intros [= <-]. simpl. split; [done|].
  apply validate_handle_Ok in Hh as (-> & Hne & Hc).
  split; [|done]. split; [by apply nonempty_length|].
  pose proof (strip_length (py_lower handle)). rewrite py_lower_length in *. lia.
Qed.

Lemma parse_user_create_Raise name handle e :
  parse_user_create name handle = Raise e → ∃ msg, e = RequestValidationError msg.
Proof.
  unfold parse_user_create. repeat case_match; intros; simplify_eq; eauto.
Qed.

(** What [create_user] does with a request whose handle is in stored
    form. *)
Lemma create_user_shaped user_data uuid4 utcnow (users : gmap string User.t) :
  handle_shape (UserCreateRequest.handle user_data) →
  create_user user_data uuid4 utcnow users =
    if decide (is_Some (users !! uuid4)
               ∨ handle_taken (UserCreateRequest.handle user_data) uuid4 users)
    then (Raise handle_conflict, users)
    else
      let row := User.Make uuid4 (UserCreateRequest.name user_data)
                   (UserCreateRequest.handle user_data) utcnow utcnow in
      (Ok (UserResponse.from_orm row), <[uuid4 := row]> users).
Proof.
  intros Hs. unfold create_user, User_init.
  rewrite normalize_handle_shape by done.
  unfold users_add_commit_refresh; simpl.
  destruct (decide (is_Some (users !! uuid4))) as [Hid|Hid].
  - rewrite bool_decide_eq_true_2 by done. by rewrite decide_True by auto.
  - rewrite bool_decide_eq_false_2 by done.
    destruct (decide (handle_taken (UserCreateRequest.handle user_data) uuid4 users))
      as [Ht|Ht].
    + rewrite bool_decide_eq_true_2 by done. by rewrite decide_True by auto.
    + rewrite bool_decide_eq_false_2 by done. rewrite decide_False; [done|].
      by intros [?|?].
Qed.

(** X14.  The user that [POST /users/] creates is never answered 400: a
    body the schema lets through carries a handle the row constructor
    accepts as it is, so the endpoint answers 422 (the schema), 409 (the
    handle or identifier is taken) or the created user. *)
Theorem post_user_never_400 name handle uuid4 utcnow (users : gmap string User.t) :
  (∀ detail, fst (post_user name handle uuid4 utcnow users)
               ≠ Raise (HTTPException 400 detail)) ∧
  ((∃ msg, fst (post_user name handle uuid4 utcnow users)
             = Raise (RequestValidationError msg)) ∨
   fst (post_user name handle uuid4 utcnow users) = Raise handle_conflict ∨
   (∃ user, fst (post_user name handle uuid4 utcnow users) = Ok user)).
Proof.
  unfold post_user.
  destruct (parse_user_create name handle) as [ud|e] eqn:Hparse.
  - destruct (parse_user_create_Ok _ _ _ Hparse) as [_ Hs].
    rewrite create_user_shaped by done.
    destruct (decide _); simpl; split; eauto; done.
  - destruct (parse_user_create_Raise _ _ _ Hparse) as [msg ->]. simpl.
    split; [done|]. eauto.
Qed.

Lemma post_user_never_400_witness :
  fst (post_user "Bob" "b b" "u1" 0 ∅) ≠ Raise (HTTPException 400 "Handle cannot be empty").
Proof. apply (proj1 (post_user_never_400 "Bob" "b b" "u1" 0 ∅)). Defined.

(** X15.  Handles are unique whatever the case and the surrounding
    whitespace they are typed with: once a user has been created, every
    later creation whose handle normalises to that user's handle is
    answered 409 and leaves the table as it is. *)
Theorem registered_handle_is_taken
    name1 handle1 uuid1 utcnow1 (users users' : gmap string User.t) user
    name2 handle2 user_data2 uuid2 utcnow2 :
  post_user name1 handle1 uuid1 utcnow1 users = (Ok user, users') →
  parse_user_create name2 handle2 = Ok user_data2 →
  UserCreateRequest.handle user_data2 = UserResponse.handle user →
  post_user name2 handle2 uuid2 utcnow2 users' = (Raise handle_conflict, users').
Proof.
  intros Hpost Hparse2 Hsame. unfold post_user in *.
  destruct (parse_user_create name1 handle1) as [ud1|] eqn:Hparse1; [|done].
  destruct (parse_user_create_Ok _ _ _ Hparse1) as [_ Hs1].
  rewrite create_user_shaped in Hpost by done.
  destruct (decide _) as [|Hfree] in Hpost; [done|].
  cbv zeta in Hpost. injection Hpost as <- <-.
  rewrite Hparse2.
  destruct (parse_user_create_Ok _ _ _ Hparse2) as [_ Hs2].
  rewrite create_user_shaped by done.
  rewrite decide_True; [done|].
  destruct (decide (uuid2 = uuid1)) as [->|Hne].
  - left. rewrite lookup_insert_eq. eauto.
  - right. eexists uuid1, _. rewrite lookup_insert_eq.
    split_and!; [done|done|]. by rewrite Hsame.
Qed.

Lemma registered_handle_is_taken_witness :
  post_user "Robert" "BOB " "u2" 1
    (snd (post_user "Bob" "bob" "u1" 0 ∅))
  = (Raise handle_conflict, snd (post_user "Bob" "bob" "u1" 0 ∅)).
Proof.
  apply (registered_handle_is_taken "Bob" "bob" "u1" 0 ∅
           (snd (post_user "Bob" "bob" "u1" 0 ∅))
           (UserResponse.Make "u1" "Bob" "bob" 0 0)
           "Robert" "BOB " (UserCreateRequest.Make "Robert" "bob") "u2" 1).
  - vm_compute. reflexivity.
  - vm_compute. reflexivity.
  - reflexivity.
Defined.

(** What a served request can do to the table: nothing, take one row
    out, or put one row under a key with a handle in stored form that no
    other row holds. *)
Lemma post_user_cases name handle uuid4 utcnow (users : gmap string User.t) :
  snd (post_user name handle uuid4 utcnow users) = users ∨
  ∃ row, snd (post_user name handle uuid4 utcnow users) = <[uuid4 := row]> users ∧
         User.id row = uuid4 ∧ handle_shape (User.handle row) ∧
         ¬ handle_taken (User.handle row) uuid4 users.
Proof.
  unfold post_user.
  destruct (parse_user_create name handle) as [ud|e] eqn:Hparse; [|by left].
  destruct (parse_user_create_Ok _ _ _ Hparse) as [_ Hs].
  rewrite create_user_shaped by done.
  destruct (decide _) as [|Hfree]; [by left|]. right.
  eexists. split; [reflexivity|]. simpl. split_and!; [done|done|]. tauto.
Qed.

Lemma update_user_cases user_id user_data utcnow (users : gmap string User.t) :
  users_ok users →
  snd (update_user user_id user_data utcnow users) = users ∨
  ∃ row, snd (update_user user_id user_data utcnow users) = <[user_id := row]> users ∧
         User.id row = user_id ∧ handle_shape (User.handle row) ∧
         ¬ handle_taken (User.handle row) user_id users.
Proof.
  intros [Hrows _]. unfold update_user.
  destruct (users !! user_id) as [user|] eqn:Huser; [|by left].
  destruct (Hrows _ _ Huser) as [Hid Hshape].
  set (named := match UserUpdateRequest.name user_data with
                | Some name => _ | None => user end).
  assert (User.id named = user_id ∧ User.handle named = User.handle user) as [Hnid Hnh]
    by (subst named; by destruct (UserUpdateRequest.name user_data)).
  assert (∀ changed,
            User.id changed = user_id → handle_shape (User.handle changed) →
            snd (if bool_decide (handle_taken (User.handle changed) user_id users)
                 then (Raise handle_conflict, users)
                 else
                   let row :=
                     if bool_decide (User.name changed = User.name user
                                     ∧ User.handle changed = User.handle user)
                     then user
                     else User.Make (User.id changed) (User.name changed)
                            (User.handle changed) (User.created_date changed) utcnow in
                   (Ok (UserResponse.from_orm row), <[user_id := row]> users)) = users ∨
            ∃ row,
              snd (if bool_decide (handle_taken (User.handle changed) user_id users)
                   then (Raise handle_conflict, users)
                   else
                     let row :=
                       if bool_decide (User.name changed = User.name user
                                       ∧ User.handle changed = User.handle user)
                       then user
                       else User.Make (User.id changed) (User.name changed)
                              (User.handle changed) (User.created_date changed) utcnow in
                     (Ok (UserResponse.from_orm row), <[user_id := row]> users))
              = <[user_id := row]> users ∧
              User.id row = user_id ∧ handle_shape (User.handle row) ∧
              ¬ handle_taken (User.handle row) user_id users) as Hcommit.
  { intros changed Hcid Hcs.
    destruct (bool_decide (handle_taken _ _ _)) eqn:Ht; [by left|].
    apply bool_decide_eq_false in Ht. right. cbv zeta.
    destruct (bool_decide (_ ∧ _)) eqn:Hsame.
    - apply bool_decide_eq_true in Hsame as [_ Hsame].
      exists user. simpl. split_and!; [done..|]. by rewrite <- Hsame.
    - eexists. simpl. split; [reflexivity|]. simpl. by split_and!. }
  destruct (UserUpdateRequest.handle user_data) as [h|].
  - unfold update_handle.
    destruct (_validate_and_normalize_handle h) as [n|e] eqn:Hn.
    + apply normalize_handle_Ok in Hn as [_ Hn]. by apply Hcommit.
    + left. by destruct e.
  - apply Hcommit; [done|]. by rewrite Hnh.
Qed.

Lemma users_ok_insert key row (users : gmap string User.t) :
  users_ok users → User.id row = key → handle_shape (User.handle row) →
  ¬ handle_taken (User.handle row) key users →
  users_ok (<[key := row]> users).
Proof.
  intros [Hrows Huniq] Hid Hshape Hfree. split.
  - intros k r. destruct (decide (k = key)) as [->|Hne].
    + rewrite lookup_insert_eq. by intros [= <-].
    + rewrite lookup_insert_ne by done. apply Hrows.
  - intros k1 k2 r1 r2.
    destruct (decide (k1 = key)) as [->|Hne1], (decide (k2 = key)) as [->|Hne2];
      rewrite ?lookup_insert_eq, ?lookup_insert_ne by done; try done.
    + intros [= <-] H2 Hh. destruct Hfree. by exists k2, r2.
    + intros H1 [= <-] Hh. destruct Hfree. by exists k1, r1.
    + apply Huniq.
Qed.

Lemma users_ok_delete key (users : gmap string User.t) :
  users_ok users → users_ok (delete key users).
Proof.
  intros [Hrows Huniq]. split.
  - intros k r [_ Hk]%lookup_delete_Some. by apply Hrows.
  - intros k1 k2 r1 r2 [_ H1]%lookup_delete_Some [_ H2]%lookup_delete_Some.
    by apply Huniq.
Qed.

Lemma user_serve_ok r (users : gmap string User.t) :
  users_ok users → users_ok (user_serve r users).
Proof.
  intros Hok.
  destruct r as [name handle uuid4 utcnow|user_id user_data utcnow|user_id commit];
    simpl.
  - destruct (post_user_cases name handle uuid4 utcnow users)
      as [->|(row & -> & ? & ? & ?)]; [done|]. by apply users_ok_insert.
  - destruct (update_user_cases user_id user_data utcnow users Hok)
      as [->|(row & -> & ? & ? & ?)]; [done|]. by apply users_ok_insert.
  - unfold delete_user. destruct (users !! user_id), commit; try done.
    by apply users_ok_delete.
Qed.

Lemma user_serve_all_ok rs (users : gmap string User.t) :
  users_ok users → users_ok (user_serve_all rs users).
Proof.
  unfold user_serve_all. revert users.
  induction rs as [|r rs IH]; intros users Hok; simpl; [done|].
  by apply IH, user_serve_ok.
Qed.

(** X16.  Whatever creations, updates and deletions the users endpoints
    have served since the table was empty, no two users hold the same
    handle, and every stored handle is in normal form (one to fifty
    characters, each a lower-case letter, a digit or an underscore) under
    the identifier of its row. *)
Theorem users_table_invariant rs :
  handles_unique (user_serve_all rs ∅) ∧
  ∀ key row, user_serve_all rs ∅ !! key = Some row →
             User.id row = key ∧ handle_shape (User.handle row).
Proof.
  assert (users_ok (user_serve_all rs ∅)) as [Hrows Huniq].
  { apply user_serve_all_ok. split; [|intros k1 k2 r1 r2]; by setoid_rewrite lookup_empty. }
  done.
Qed.

Lemma users_table_invariant_witness :
  handles_unique
    (user_serve_all [UPost "Bob" "bob" "u1" 0; UPost "Robert" " BOB" "u2" 1;
                     UPut "u1" (UserUpdateRequest.Make None (Some "Rob")) 2;
                     UDelete "u2" None] ∅).
Proof.
  apply (proj1 (users_table_invariant
                  [UPost "Bob" "bob" "u1" 0; UPost "Robert" " BOB" "u2" 1;
                   UPut "u1" (UserUpdateRequest.Make None (Some "Rob")) 2;
                   UDelete "u2" None])).
Defined.

(** A handle the update schema lets through is in stored form. *)
Lemma parse_user_update_handle name handle user_data normalized :
  parse_user_update name handle = Ok user_data →
  UserUpdateRequest.handle user_data = Some normalized →
  handle_shape normalized.
Proof.
  unfold parse_user_update.
  destruct name as [n|]; [destruct (negb _); [done|];
                          destruct (UserUpdateRequest.validate_name _); [|done]|];
    (destruct handle as [h|]; [|by intros [= <-]]);
    (destruct (negb _) eqn:Hlen; [done|]);
    apply negb_false_iff, andb_true_iff in Hlen as [_ Hlen];
    apply Nat.leb_le in Hlen;
    unfold UserUpdateRequest.validate_handle;
    (destruct (_ || _); [done|]);
    (destruct (re_match_handle (strip (py_lower h))) eqn:Hm; [|done]); simpl;
    intros [= <-]; simpl; intros [= <-];
    apply re_match_handle_strip in Hm as [Hne Hc];
    (split; [|done]); (split; [by apply nonempty_length|]);
    pose proof (strip_length (py_lower h)); rewrite py_lower_length in *; lia.
Qed.

(** The handler, given the handle the row already holds. *)
Lemma update_user_own_handle user_id user_data utcnow
    (users : gmap string User.t) user :
  users_ok users →
  users !! user_id = Some user →
  UserUpdateRequest.handle user_data = Some (User.handle user) →
  ∃ response row,
    update_user user_id user_data utcnow users
      = (Ok response, <[user_id := row]> users) ∧
    UserResponse.id response = user_id ∧
    UserResponse.handle response = User.handle user ∧
    User.handle row = User.handle user.
Proof.
  intros [Hrows Huniq] Huser Hh. unfold update_user. rewrite Huser, Hh. simpl.
  destruct (Hrows _ _ Huser) as [Hid Hshape].
  unfold update_handle. rewrite (normalize_handle_shape _ Hshape). simpl.
  rewrite bool_decide_eq_false_2.
  2:{ intros (k & r & Hk & Hne & Hr). destruct Hne. by eapply Huniq. }
  destruct (bool_decide (_ ∧ _)).
  - by exists (UserResponse.from_orm user), user.
  - eexists _, _. split; [reflexivity|]. simpl.
    by destruct (UserUpdateRequest.name user_data).
Qed.

(** X17.  A user may be given the handle they already hold, in any
    spelling the update schema lets through: when the handle of the body
    normalises to the stored one, the update of a well-formed table is not
    a conflict, and the stored handle stays what it was. *)
Theorem update_to_own_handle user_id name handle utcnow
    (users : gmap string User.t) user user_data :
  users_ok users →
  users !! user_id = Some user →
  parse_user_update name (Some handle) = Ok user_data →
  UserUpdateRequest.handle user_data = Some (User.handle user) →
  ∃ response row,
    put_user user_id name (Some handle) utcnow users
      = (Ok response, <[user_id := row]> users) ∧
    UserResponse.id response = user_id ∧
    UserResponse.handle response = User.handle user ∧
    User.handle row = User.handle user.
Proof.
  intros Hok Huser Hparse Hh. unfold put_user. rewrite Hparse.
  by apply update_user_own_handle.
Qed.

Lemma update_to_own_handle_witness :
  ∃ response row,
    put_user "u1" None (Some " BOB ") 5 (snd (post_user "Bob" "bob" "u1" 0 ∅))
    = (Ok response, <["u1" := row]> (snd (post_user "Bob" "bob" "u1" 0 ∅))) ∧
    UserResponse.id response = "u1" ∧
    UserResponse.handle response = "bob" ∧
    User.handle row = "bob".
Proof.
  apply (update_to_own_handle "u1" None " BOB " 5
           (snd (post_user "Bob" "bob" "u1" 0 ∅)) (User.Make "u1" "Bob" "bob" 0 0)
           (UserUpdateRequest.Make None (Some "bob"))).
  - apply user_serve_all_ok with (rs := [UPost "Bob" "bob" "u1" 0]).
    split; [|intros k1 k2 r1 r2]; by setoid_rewrite lookup_empty.
  - vm_compute. reflexivity.
  - vm_compute. reflexivity.
  - reflexivity.
Defined.

(** X18.  An update that the schema lets through and that asks for a
    handle another user holds is answered 409 and changes nothing: the
    name sent with it is not stored either. *)
Theorem update_user_conflict user_id name handle utcnow
    (users : gmap string User.t) user user_data normalized :
  users !! user_id = Some user →
  parse_user_update name handle = Ok user_data →
  UserUpdateRequest.handle user_data = Some normalized →
  handle_taken normalized user_id users →
  put_user user_id name handle utcnow users = (Raise handle_conflict, users) ∧
  get_user user_id (snd (put_user user_id name handle utcnow users))
    = Ok (UserResponse.from_orm user).
Proof.
  intros Huser Hparse Hh Htaken.
  assert (put_user user_id name handle utcnow users = (Raise handle_conflict, users))
    as ->.
  { unfold put_user. rewrite Hparse. unfold update_user. rewrite Huser, Hh. simpl.
    unfold update_handle.
    rewrite (normalize_handle_shape normalized)
      by (by eapply parse_user_update_handle).
    simpl. by rewrite bool_decide_eq_true_2. }
  split; [done|]. simpl. unfold get_user. by rewrite Huser.
Qed.

Lemma update_user_conflict_witness :
  put_user "u2" (Some "Bobby") (Some "Bob") 5
    (user_serve_all [UPost "Bob" "bob" "u1" 0; UPost "Ann" "ann" "u2" 1] ∅)
  = (Raise handle_conflict,
     user_serve_all [UPost "Bob" "bob" "u1" 0; UPost "Ann" "ann" "u2" 1] ∅) ∧
  get_user "u2"
    (snd (put_user "u2" (Some "Bobby") (Some "Bob") 5
            (user_serve_all [UPost "Bob" "bob" "u1" 0; UPost "Ann" "ann" "u2" 1] ∅)))
  = Ok (UserResponse.from_orm (User.Make "u2" "Ann" "ann" 1 1)).
Proof.
  apply (update_user_conflict "u2" (Some "Bobby") (Some "Bob") 5
           (user_serve_all [UPost "Bob" "bob" "u1" 0; UPost "Ann" "ann" "u2" 1] ∅)
           (User.Make "u2" "Ann" "ann" 1 1)
           (UserUpdateRequest.Make (Some "Bobby") (Some "bob")) "bob").
  - vm_compute. reflexivity.
  - vm_compute. reflexivity.
  - reflexivity.
  - exists "u1", (User.Make "u1" "Bob" "bob" 0 0). split_and!.
    + vm_compute. reflexivity.
    + discriminate.
    + reflexivity.
Defined.

(** X19.  Deleting a user frees the handle: in a well-formed table, once
    the deletion of the user has been committed, the deleted identifier is
    answered 404 and a creation under a fresh identifier with a handle
    that normalises to the deleted user's handle succeeds. *)
Theorem deleted_handle_is_free user_id (users : gmap string User.t) user
    name handle user_data uuid4 utcnow :
  users_ok users →
  users !! user_id = Some user →
  parse_user_create name handle = Ok user_data →
  UserCreateRequest.handle user_data = User.handle user →
  users !! uuid4 = None →
  get_user user_id (snd (delete_user user_id None users))
    = Raise (HTTPException 404 "User not found") ∧
  ∃ response,
    fst (post_user name handle uuid4 utcnow (snd (delete_user user_id None users)))
      = Ok response ∧
    UserResponse.id response = uuid4 ∧
    UserResponse.handle response = User.handle user.
Proof.
  intros [Hrows Huniq] Huser Hparse Hsame Hfresh.
  unfold delete_user. rewrite Huser. simpl. split.
  - unfold get_user. by rewrite lookup_delete_eq.
  - unfold post_user. rewrite Hparse.
    destruct (parse_user_create_Ok _ _ _ Hparse) as [_ Hs].
    rewrite create_user_shaped by done.
    rewrite decide_False.
    + eexists. simpl. split; [reflexivity|]. by simpl.
    + intros [[r Hr]|(k & r & Hk & Hne & Hh)].
      * apply lookup_delete_Some in Hr as [_ Hr]. congruence.
      * apply lookup_delete_Some in Hk as [Hk' Hk]. destruct Hk'.
        symmetry. eapply Huniq; [exact Hk|exact Huser|]. congruence.
Qed.

Lemma deleted_handle_is_free_witness :
  get_user "u1" (snd (delete_user "u1" None (snd (post_user "Bob" "bob" "u1" 0 ∅))))
    = Raise (HTTPException 404 "User not found") ∧
  ∃ response,
    fst (post_user "Robert" "Bob" "u2" 7
           (snd (delete_user "u1" None (snd (post_user "Bob" "bob" "u1" 0 ∅)))))
      = Ok response ∧
    UserResponse.id response = "u2" ∧
    UserResponse.handle response = "bob".
Proof.
  apply (deleted_handle_is_free "u1" (snd (post_user "Bob" "bob" "u1" 0 ∅))
           (User.Make "u1" "Bob" "bob" 0 0) "Robert" "Bob"
           (UserCreateRequest.Make "Robert" "bob") "u2" 7).
  - apply user_serve_all_ok with (rs := [UPost "Bob" "bob" "u1" 0]).
    split; [|intros k1 k2 r1 r2]; by setoid_rewrite lookup_empty.
  - vm_compute. reflexivity.
  - vm_compute. reflexivity.
  - reflexivity.
  - vm_compute. reflexivity.
Defined.

End user_lemmas.

(** ** The text of a message *)

Section message_text.

(** X20.  The text a post stores and returns is the text of the body
    without the whitespace around it: it is trimmed, between 1 and 1024
    characters long, and it is what [get_message] shows afterwards. *)
Theorem posted_text_is_trimmed b uuid4 utcnow w response w' :
  post_message b uuid4 utcnow w = (Ok response, w') →
  MessageResponse.message_text response = strip (Body.message_text b) ∧
  trimmed (MessageResponse.message_text response) ∧
  (1 ≤ String.length (MessageResponse.message_text response) ≤ 1024)%nat ∧
  ∃ row, messages w' !! uuid4 = Some row ∧
         Message.message_text row = strip (Body.message_text b).
Proof.
  intros Hrun.
  destruct (post_message_Ok _ _ _ _ _ _ Hrun)
    as (md & Hparse & _ & -> & _ & Hms & _).
  destruct (parse_request_Ok_text _ _ Hparse) as ([Hlen Hne] & Htext & _).
  simpl. rewrite Htext. split_and!; [done|apply strip_idemp| | |].
  - by apply nonempty_length.
  - pose proof (strip_length (Body.message_text b)). lia.
  - eexists. rewrite Hms, lookup_insert_eq. split; [reflexivity|]. by simpl.
Qed.

Lemma posted_text_is_trimmed_witness :
  MessageResponse.message_text (MessageResponse.from_orm (new_row hello "m1" 0))
    = strip (Body.message_text hello_body) ∧
  trimmed (MessageResponse.message_text
             (MessageResponse.from_orm (new_row hello "m1" 0))) ∧
  (1 ≤ String.length (MessageResponse.message_text
                        (MessageResponse.from_orm (new_row hello "m1" 0))) ≤ 1024)%nat ∧
  ∃ row, messages (snd (post_message hello_body "m1" 0 scenario)) !! "m1" = Some row ∧
         Message.message_text row = strip (Body.message_text hello_body).
Proof.
  apply (posted_text_is_trimmed hello_body "m1" 0 scenario
           (MessageResponse.from_orm (new_row hello "m1" 0))
           (snd (post_message hello_body "m1" 0 scenario))).
  vm_compute. reflexivity.
Defined.

(** X21.  [update_message_text] takes exactly the texts the row
    constructor takes, keeps a well-formed row well formed and changes its
    text only; unlike a post it stores the text as given, with the
    whitespace around it. *)
Theorem update_message_text_keeps_row key row new_text :
  row_ok key row →
  (new_text ≠ "" ∧ strip new_text ≠ "" ∧ (String.length new_text ≤ 1024)%nat →
   ∃ row', update_message_text row new_text = Ok row' ∧
           row_ok key row' ∧
           Message.message_text row' = new_text ∧
           MessageResponse.from_orm row'
             = MessageResponse.Make (Message.id row) new_text (Message.user_id row)
                 (Message.chatroom_id row) (Message.is_reply row)
                 (Message.parent_message_id row) (Message.created_date row)
                 (Message.last_updated_date row)) ∧
  (¬ (new_text ≠ "" ∧ strip new_text ≠ "" ∧ (String.length new_text ≤ 1024)%nat) →
   ∃ msg, update_message_text row new_text = Raise (ValueError msg)).
Proof.
  intros (Hid & Hflag & _). unfold update_message_text, _validate_message_text. split.
  - intros (H1 & H2 & H3). rewrite !bool_decide_eq_false_2 by done.
    destruct (Nat.ltb_spec 1024 (String.length new_text)); [lia|].
    eexists. split; [reflexivity|]. split_and!; try done.
    unfold row_ok, _validate_message_text; simpl.
    rewrite !bool_decide_eq_false_2 by done.
    destruct (Nat.ltb_spec 1024 (String.length new_text)); [lia|done].
  - intros Hnot.
    destruct (bool_decide (new_text = "")) eqn:E1; [eauto|].
    destruct (bool_decide (strip new_text = "")) eqn:E2; [eauto|].
    destruct (Nat.ltb_spec 1024 (String.length new_text)); [eauto|].
    apply bool_decide_eq_false in E1, E2. destruct Hnot. split_and!; [done|done|lia].
Qed.

Lemma update_message_text_keeps_row_witness :
  ∃ row', update_message_text (new_row hello "m1" 0) "  edited  " = Ok row' ∧
          row_ok "m1" row' ∧
          Message.message_text row' = "  edited  " ∧
          MessageResponse.from_orm row'
            = MessageResponse.Make "m1" "  edited  " (Message.user_id (new_row hello "m1" 0))
                (Message.chatroom_id (new_row hello "m1" 0)) false PNone 0 0.
Proof.
  apply (proj1 (update_message_text_keeps_row "m1" (new_row hello "m1" 0) "  edited  "
                  ltac:(vm_compute; split_and!; reflexivity))).
  split_and!; [discriminate|vm_compute; discriminate|vm_compute; lia].
Defined.

End message_text.

(** ** The chatrooms table *)

Section chatroom_lemmas.

Lemma normalize_name_shape n :
  name_shape n → _validate_and_normalize_name n = Ok n.
Proof.
  intros [[H1 H100] Hc]. unfold _validate_and_normalize_name.
  assert (n ≠ "") as Hne by (intros ->; simpl in H1; lia).
  rewrite bool_decide_eq_false_2 by done.
  rewrite all_handle_chars_strip by done.
  rewrite re_match_handle_chars by done. simpl.
  destruct (Nat.ltb_spec 100 (String.length n)); [lia|].
  destruct (Nat.ltb_spec (String.length n) 1); [lia|done].
Qed.

Lemma normalize_name_Ok name n :
  _validate_and_normalize_name name = Ok n →
  n = strip (py_lower name) ∧ name_shape n.
Proof.
  unfold _validate_and_normalize_name.
  destruct (bool_decide (name = "")); [done|].
  destruct (re_match_handle (strip (py_lower name))) eqn:Hm; [|done]. simpl.
  destruct (Nat.ltb_spec 100 (String.length (strip (py_lower name)))); [done|].
  destruct (Nat.ltb_spec (String.length (strip (py_lower name))) 1); [done|].
  intros [= <-]. split; [done|].
  apply re_match_handle_strip in Hm as [_ Hc]. split; [lia|done].
Qed.

Lemma parse_chatroom_create_Ok name chatroom_data :
  parse_chatroom_create name = Ok chatroom_data →
  ChatroomCreateRequest.name chatroom_data = strip (py_lower name) ∧
  name_shape (ChatroomCreateRequest.name chatroom_data).
Proof.
  unfold parse_chatroom_create. destruct (negb _) eqn:Hlen; [done|].
  apply negb_false_iff, andb_true_iff in Hlen as [_ Hlen]. apply Nat.leb_le in Hlen.
  unfold ChatroomCreateRequest.validate_name. destruct (_ || _); [done|].
  destruct (re_match_handle (strip (py_lower name))) eqn:Hm; [|done]. simpl.
  intros [= <-]. simpl. split; [done|].
  apply re_match_handle_strip in Hm as [Hne Hc].
  split; [|done]. split; [by apply nonempty_length|].
  pose proof (strip_length (py_lower name)). rewrite py_lower_length in *. lia.
Qed.

Lemma parse_chatroom_create_Raise name e :
  parse_chatroom_create name = Raise e → ∃ msg, e = RequestValidationError msg.
Proof.
  unfold parse_chatroom_create, ChatroomCreateRequest.validate_name.
  repeat case_match; intros; simplify_eq; eauto.
Qed.

Lemma create_chatroom_shaped chatroom_data uuid4 utcnow
    (rooms : gmap string Chatroom.t) :
  name_shape (ChatroomCreateRequest.name chatroom_data) →
  create_chatroom chatroom_data uuid4 utcnow rooms =
    if decide (is_Some (rooms !! uuid4)
               ∨ name_taken (ChatroomCreateRequest.name chatroom_data) uuid4 rooms)
    then (Raise name_conflict, rooms)
    else
      let row := Chatroom.Make uuid4 (ChatroomCreateRequest.name chatroom_data)
                   utcnow utcnow in
      (Ok (ChatroomResponse.from_orm row), <[uuid4 := row]> rooms).
Proof.
  intros Hs. unfold create_chatroom, Chatroom_init.
  rewrite normalize_name_shape by done.
  unfold chatrooms_add_commit_refresh; simpl.
  destruct (decide (is_Some (rooms !! uuid4))) as [Hid|Hid].
  - rewrite bool_decide_eq_true_2 by done. by rewrite decide_True by auto.
  - rewrite bool_decide_eq_false_2 by done.
    destruct (decide (name_taken (ChatroomCreateRequest.name chatroom_data) uuid4 rooms))
      as [Ht|Ht].
    + rewrite bool_decide_eq_true_2 by done. by rewrite decide_True by auto.
    + rewrite bool_decide_eq_false_2 by done. rewrite decide_False; [done|].
      by intros [?|?].
Qed.

(** X22.  What [POST /chatrooms/] answers: 422 from the schema, 409 when
    the name (or the identifier drawn) is taken, or the created chatroom,
    whose name is the name of the body lower-cased and trimmed, in stored
    form, and which [get_chatroom] then shows.  It never answers 400: the
    row constructor accepts every name the schema lets through. *)
Theorem post_chatroom_outcomes name uuid4 utcnow (rooms : gmap string Chatroom.t) :
  (∀ detail, fst (post_chatroom name uuid4 utcnow rooms)
               ≠ Raise (HTTPException 400 detail)) ∧
  ((∃ msg, post_chatroom name uuid4 utcnow rooms
             = (Raise (RequestValidationError msg), rooms)) ∨
   post_chatroom name uuid4 utcnow rooms = (Raise name_conflict, rooms) ∨
   (∃ response,
      fst (post_chatroom name uuid4 utcnow rooms) = Ok response ∧
      ChatroomResponse.id response = uuid4 ∧
      ChatroomResponse.name response = strip (py_lower name) ∧
      name_shape (ChatroomResponse.name response) ∧
      get_chatroom uuid4 (snd (post_chatroom name uuid4 utcnow rooms)) = Ok response)).
Proof.
  unfold post_chatroom.
  destruct (parse_chatroom_create name) as [cd|e] eqn:Hparse.
  - destruct (parse_chatroom_create_Ok _ _ Hparse) as [Hname Hs].
    rewrite create_chatroom_shaped by done.
    destruct (decide _); simpl; (split; [done|]); [by auto|].
    right; right. eexists. split; [reflexivity|]. simpl. split_and!; try done.
    unfold get_chatroom. by rewrite lookup_insert_eq.
  - destruct (parse_chatroom_create_Raise _ _ Hparse) as [msg ->]. simpl.
    split; [done|]. eauto.
Qed.

Lemma post_chatroom_outcomes_witness :
  fst (post_chatroom " General" "c1" 0 ∅) ≠ Raise (HTTPException 400 "Name cannot be empty").
Proof. apply (proj1 (post_chatroom_outcomes " General" "c1" 0 ∅)). Defined.

Lemma post_chatroom_cases name uuid4 utcnow (rooms : gmap string Chatroom.t) :
  snd (post_chatroom name uuid4 utcnow rooms) = rooms ∨
  ∃ row, snd (post_chatroom name uuid4 utcnow rooms) = <[uuid4 := row]> rooms ∧
         Chatroom.id row = uuid4 ∧ name_shape (Chatroom.name row) ∧
         ¬ name_taken (Chatroom.name row) uuid4 rooms.
Proof.
  unfold post_chatroom.
  destruct (parse_chatroom_create name) as [cd|e] eqn:Hparse; [|by left].
  destruct (parse_chatroom_create_Ok _ _ Hparse) as [_ Hs].
  rewrite create_chatroom_shaped by done.
  destruct (decide _) as [|Hfree]; [by left|]. right.
  eexists. split; [reflexivity|]. simpl. split_and!; [done|done|]. tauto.
Qed.

Lemma update_chatroom_cases chatroom_id chatroom_data utcnow
    (rooms : gmap string Chatroom.t) :
  chatrooms_ok rooms →
  snd (update_chatroom chatroom_id chatroom_data utcnow rooms) = rooms ∨
  ∃ row, snd (update_chatroom chatroom_id chatroom_data utcnow rooms)
           = <[chatroom_id := row]> rooms ∧
         Chatroom.id row = chatroom_id ∧ name_shape (Chatroom.name row) ∧
         ¬ name_taken (Chatroom.name row) chatroom_id rooms.
Proof.
  intros [Hrows _]. unfold update_chatroom.
  destruct (rooms !! chatroom_id) as [chatroom|] eqn:Hroom; [|by left].
  destruct (Hrows _ _ Hroom) as [Hid Hshape].
  assert (∀ changed,
            Chatroom.id changed = chatroom_id → name_shape (Chatroom.name changed) →
            let res :=
              if bool_decide (name_taken (Chatroom.name changed) chatroom_id rooms)
              then (Raise name_conflict, rooms)
              else
                let row :=
                  if bool_decide (Chatroom.name changed = Chatroom.name chatroom)
                  then chatroom
                  else Chatroom.Make (Chatroom.id changed) (Chatroom.name changed)
                         (Chatroom.created_date changed) utcnow in
                (Ok (ChatroomResponse.from_orm row), <[chatroom_id := row]> rooms) in
            snd res = rooms ∨
            ∃ row, snd res = <[chatroom_id := row]> rooms ∧
                   Chatroom.id row = chatroom_id ∧ name_shape (Chatroom.name row) ∧
                   ¬ name_taken (Chatroom.name row) chatroom_id rooms) as Hcommit.
  { intros changed Hcid Hcs. cbv zeta.
    destruct (bool_decide (name_taken _ _ _)) eqn:Ht; [by left|].
    apply bool_decide_eq_false in Ht. right.
    destruct (bool_decide (_ = _)) eqn:Hsame.
    - apply bool_decide_eq_true in Hsame.
      exists chatroom. simpl. split_and!; [done..|]. by rewrite <- Hsame.
    - eexists. simpl. split; [reflexivity|]. simpl. by split_and!. }
  destruct (ChatroomUpdateRequest.name chatroom_data) as [name|].
  - unfold update_name.
    destruct (_validate_and_normalize_name name) as [n|e] eqn:Hn.
    + apply normalize_name_Ok in Hn as [_ Hn]. by apply Hcommit.
    + left. by destruct e.
  - by apply Hcommit.
Qed.

Lemma chatrooms_ok_insert key row (rooms : gmap string Chatroom.t) :
  chatrooms_ok rooms → Chatroom.id row = key → name_shape (Chatroom.name row) →
  ¬ name_taken (Chatroom.name row) key rooms →
  chatrooms_ok (<[key := row]> rooms).
Proof.
  intros [Hrows Huniq] Hid Hshape Hfree. split.
  - intros k r. destruct (decide (k = key)) as [->|Hne].
    + rewrite lookup_insert_eq. by intros [= <-].
    + rewrite lookup_insert_ne by done. apply Hrows.
  - intros k1 k2 r1 r2.
    destruct (decide (k1 = key)) as [->|Hne1], (decide (k2 = key)) as [->|Hne2];
      rewrite ?lookup_insert_eq, ?lookup_insert_ne by done; try done.
    + intros [= <-] H2 Hh. destruct Hfree. by exists k2, r2.
    + intros H1 [= <-] Hh. destruct Hfree. by exists k1, r1.
    + apply Huniq.
Qed.

Lemma chatroom_serve_ok r (rooms : gmap string Chatroom.t) :
  chatrooms_ok rooms → chatrooms_ok (chatroom_serve r rooms).
Proof.
  intros Hok.
  destruct r as [name uuid4 utcnow|chatroom_id chatroom_data utcnow|chatroom_id commit];
    simpl.
  - destruct (post_chatroom_cases name uuid4 utcnow rooms)
      as [->|(row & -> & ? & ? & ?)]; [done|]. by apply chatrooms_ok_insert.
  - destruct (update_chatroom_cases chatroom_id chatroom_data utcnow rooms Hok)
      as [->|(row & -> & ? & ? & ?)]; [done|]. by apply chatrooms_ok_insert.
  - unfold delete_chatroom. destruct (rooms !! chatroom_id), commit; try done.
    destruct Hok as [Hrows Huniq]. simpl. split.
    + intros k r [_ Hk]%lookup_delete_Some. by apply Hrows.
    + intros k1 k2 r1 r2 [_ H1]%lookup_delete_Some [_ H2]%lookup_delete_Some.
      by apply Huniq.
Qed.

(** X23.  Whatever creations, renamings and deletions the chatroom
    endpoints have served since the table was empty, no two chatrooms
    hold the same name, and every stored name is in normal form (one to a
    hundred characters, each a lower-case letter, a digit or an
    underscore) under the identifier of its row. *)
Theorem chatrooms_table_invariant rs :
  chatrooms_ok (chatroom_serve_all rs ∅).
Proof.
  assert (chatrooms_ok (∅ : gmap string Chatroom.t)) as Hempty.
  { split; [|intros k1 k2 r1 r2]; by setoid_rewrite lookup_empty. }
  unfold chatroom_serve_all. revert Hempty.
  generalize (∅ : gmap string Chatroom.t).
  induction rs as [|r rs IH]; intros rooms Hok; simpl; [done|].
  by apply IH, chatroom_serve_ok.
Qed.

Lemma chatrooms_table_invariant_witness :
  chatrooms_ok
    (chatroom_serve_all [CPost "General" "c1" 0; CPost " general" "c2" 1;
                         CPut "c1" (ChatroomUpdateRequest.Make (Some "Lobby")) 2;
                         CDelete "c1" None] ∅).
Proof.
  apply (chatrooms_table_invariant
           [CPost "General" "c1" 0; CPost " general" "c2" 1;
            CPut "c1" (ChatroomUpdateRequest.Make (Some "Lobby")) 2;
            CDelete "c1" None]).
Defined.

End chatroom_lemmas.

(** ** Start-up *)

Section startup.

(** X24.  What a start of the application does to the store, for every
    environment name the settings accept: in [development], which is also
    the default, every row is dropped, so that each message identifier is
    answered 404 and each post is refused for want of its user; in
    [staging] and [production] the store is kept.  The name is compared as
    it is: the settings refuse any other spelling.  In no case is the live
    membership touched or anything sent. *)
Theorem startup_store v settings w :
  Settings.load v = Ok settings →
  let w' := snd (startup_event settings w) in
  fst (startup_event settings w) = Ok tt ∧
  mem w' = mem w ∧
  (∃ new, added w w' new ∧ ∀ sid event data, ObsSend sid event data ∉ new) ∧
  (v = None ∨ v = Some "development" →
   empty_store w' ∧
   (∀ message_id,
      fst (get_message message_id w') = Raise (HTTPException 404 "Message not found")) ∧
   (∀ message_data uuid4 utcnow,
      fst (create_message message_data uuid4 utcnow w')
        = Raise (HTTPException 404 "User not found"))) ∧
  (v = Some "staging" ∨ v = Some "production" → same_store w w') ∧
  (v = None ∨ v = Some "development" ∨ v = Some "staging" ∨ v = Some "production").
Proof.
  intros Hload. cbv zeta.
  assert (settings = Settings.Make "development" ∧ (v = None ∨ v = Some "development")
          ∨ settings = Settings.Make "staging" ∧ v = Some "staging"
          ∨ settings = Settings.Make "production" ∧ v = Some "production")
    as Hcases.
  { destruct v as [v|]; simpl in Hload; [|left; split; [congruence|by left]].
    unfold Settings.validate_app_env in Hload.
    destruct (bool_decide _) eqn:Hin; [|done].
    apply bool_decide_eq_true in Hin. injection Hload as <-.
    rewrite !elem_of_cons, elem_of_nil in Hin.
    destruct Hin as [->|[->|[->|[]]]]; auto. }
  destruct Hcases as [[-> Hv]|[[-> ->]|[-> ->]]].
  - split_and!; try done.
    + eexists [_; _; _]. split; [reflexivity|].
      intros sid event data. rewrite !elem_of_cons, elem_of_nil.
      intros H; decompose [or] H; done.
    + intros [-> | ->]; by destruct Hv.
    + tauto.
  - split_and!; try done.
    + eexists [_; _]. split; [reflexivity|].
      intros sid event data. rewrite !elem_of_cons, elem_of_nil.
      intros H; decompose [or] H; done.
    + intros [?|?]; done.
    + auto.
  - split_and!; try done.
    + eexists [_; _]. split; [reflexivity|].
      intros sid event data. rewrite !elem_of_cons, elem_of_nil.
      intros H; decompose [or] H; done.
    + intros [?|?]; done.
    + auto.
Qed.

Lemma startup_store_witness :
  empty_store (snd (startup_event (Settings.Make "development") posted)) ∧
  same_store posted (snd (startup_event (Settings.Make "production") posted)).
Proof.
  split.
  - apply (startup_store None (Settings.Make "development") posted eq_refl).
    by left.
  - apply (startup_store (Some "production") (Settings.Make "production") posted).
    + vm_compute. reflexivity.
    + by right.
Defined.

End startup.

(** ** Identifiers of participants *)

Section uuid_lemmas.

Lemma not_space_fixed s :
  all_chars not_space s = true → lstrip s = s ∧ rstrip s = s ∧ chomp s = s.
Proof.
  unfold not_space.
  induction s as [|a s IH]; simpl; [done|].
  intros [Ha%negb_true_iff Hs]%andb_true_iff.
  destruct (IH Hs) as (IH1 & IH2 & IH3).
  rewrite Ha, IH2, andb_false_r. split_and!; try done.
  destruct s; [|by rewrite IH3].
  destruct (Nat.eqb_spec (Ascii.nat_of_ascii a) 10) as [Hn|]; [|done].
  by rewrite (newline_is_space a Hn) in Ha.
Qed.

Lemma rstrip_newline s :
  all_chars not_space s = true → rstrip (s +:+ newline) = s.
Proof.
  unfold not_space.
  induction s as [|a s IH]; simpl; [done|].
  intros [Ha%negb_true_iff Hs]%andb_true_iff.
  rewrite (IH Hs), Ha, andb_false_r. done.
Qed.

Lemma strip_newline s :
  all_chars not_space s = true → strip (s +:+ newline) = s.
Proof.
  intros Hs. unfold strip. destruct s as [|a s]; [done|].
  assert (lstrip (String a s +:+ newline) = String a s +:+ newline) as ->.
  { simpl in *. unfold not_space in Hs.
    apply andb_true_iff in Hs as [Ha%negb_true_iff _]. by rewrite Ha. }
  by apply rstrip_newline.
Qed.

Lemma chomp_newline s : chomp (s +:+ newline) = s.
Proof.
  induction s as [|a s IH]; simpl; [done|].
  rewrite IH. by destruct s.
Qed.

Lemma chomp_cases s : s = chomp s ∨ s = chomp s +:+ newline.
Proof.
  induction s as [|a s IH]; [by left|].
  destruct s as [|b s].
  - simpl. destruct (Nat.eqb_spec (Ascii.nat_of_ascii a) 10) as [Hn|]; [|by left].
    right. simpl. unfold newline. by rewrite <- Hn, Ascii.ascii_nat_embedding.
  - change (chomp (String a (String b s))) with (String a (chomp (String b s))).
    destruct IH as [IH|IH]; [left|right].
    + by rewrite <- IH.
    + change (String a (String b s) = String a (chomp (String b s) +:+ newline)).
      by rewrite <- IH.
Qed.

Lemma py_lower_char_newline a :
  Ascii.nat_of_ascii (py_lower_char a) = 10 ↔ Ascii.nat_of_ascii a = 10.
Proof.
  unfold py_lower_char.
  destruct (Nat.leb_spec 65 (Ascii.nat_of_ascii a)),
    (Nat.leb_spec (Ascii.nat_of_ascii a) 90); simpl; try done.
  rewrite Ascii.nat_ascii_embedding by lia. lia.
Qed.

Lemma chomp_py_lower s : chomp (py_lower s) = py_lower (chomp s).
Proof.
  induction s as [|a s IH]; simpl; [done|].
  destruct s as [|b s]; simpl in *.
  - pose proof (py_lower_char_newline a) as Hnl.
    destruct (Nat.eqb_spec (Ascii.nat_of_ascii (py_lower_char a)) 10) as [H|H],
      (Nat.eqb_spec (Ascii.nat_of_ascii a) 10) as [H'|H']; try done; tauto.
  - by rewrite IH.
Qed.

Lemma py_lower_app s t : py_lower (s +:+ t) = py_lower s +:+ py_lower t.
Proof. induction s as [|a s IH]; simpl; [done|]. by rewrite IH. Qed.

(** A character that lower-cases to a digit of the class or to a dash is
    no whitespace. *)
Lemma uuid_char_not_space a :
  is_dash (py_lower_char a) || is_hex_char (py_lower_char a) = true →
  not_space a = true.
Proof.
  unfold is_dash, is_hex_char, py_lower_char, not_space, py_isspace.
  set (n := Ascii.nat_of_ascii a).
  destruct (Nat.leb_spec 65 n), (Nat.leb_spec n 90); cbn [andb]; fold n.
  1: rewrite Ascii.nat_ascii_embedding by lia.
  all: repeat match goal with
         | |- context [(?x <=? ?y)%nat] => destruct (Nat.leb_spec x y)
         | |- context [(?x =? ?y)%nat] => destruct (Nat.eqb_spec x y)
         end; cbn [andb orb negb]; try done; lia.
Qed.

Lemma uuid_chars_not_space i s :
  uuid_chars i (py_lower s) = true → all_chars not_space s = true.
Proof.
  revert i. induction s as [|a s IH]; intros i; simpl; [done|].
  intros [[_ Ha]%andb_true_iff Hs]%andb_true_iff.
  apply andb_true_iff. split; [|by eapply IH].
  apply uuid_char_not_space. destruct (bool_decide _); rewrite Ha; by rewrite ?orb_true_r.
Qed.

Lemma uuid_chars_length i s :
  uuid_chars i s = true → (i + String.length s = 36)%nat.
Proof.
  revert i. induction s as [|a s IH]; intros i; simpl.
  - intros H%Nat.eqb_eq. lia.
  - intros [_ Hs]%andb_true_iff. apply IH in Hs. lia.
Qed.

(** X25.  The identifiers [validate_uuids] accepts, and what it makes of
    them: a value passes exactly when it is thirty-six characters that
    lower-case to the canonical form of a UUID, alone or followed by one
    line feed, and the result is those thirty-six characters as they were
    typed.  The case is checked on a lower-cased copy and is not
    normalised; whitespace before the identifier, or any other whitespace
    after it, is refused although the result is stripped. *)
Theorem validate_uuids_accepts v r :
  validate_uuids v = Ok r ↔
  uuid_chars 0 (py_lower r) = true ∧ (v = r ∨ v = r +:+ newline).
Proof.
  unfold validate_uuids, re_match_uuid. split.
  - destruct (_ || _); [done|].
    destruct (uuid_chars 0 (chomp (py_lower v))) eqn:Hform; [|done]. simpl.
    intros [= <-]. rewrite chomp_py_lower in Hform.
    pose proof (uuid_chars_not_space _ _ Hform) as Hns.
    destruct (not_space_fixed _ Hns) as (Hl & Hr & _).
    assert (strip v = chomp v) as ->.
    { destruct (chomp_cases v) as [Hv|Hv]; rewrite Hv at 1.
      - unfold strip. by rewrite Hl, Hr.
      - by apply strip_newline. }
    split; [done|]. apply chomp_cases.
  - intros [Hform Hv].
    pose proof (uuid_chars_not_space _ _ Hform) as Hns.
    destruct (not_space_fixed _ Hns) as (Hl & Hr & Hc).
    assert (r ≠ "") as Hne.
    { intros ->. by apply uuid_chars_length in Hform. }
    assert (strip v = r ∧ chomp v = r) as [Hs Hch].
    { destruct Hv as [->| ->].
      - unfold strip. by rewrite Hl, Hr.
      - split; [by apply strip_newline|apply chomp_newline]. }
    rewrite Hs, chomp_py_lower, Hch, Hform. simpl.
    rewrite (bool_decide_eq_false_2 (r = "")) by done.
    rewrite orb_false_r, bool_decide_eq_false_2; [done|].
    intros ->. destruct Hv as [?|Hv]; [done|]. by destruct r.
Qed.

Lemma validate_uuids_accepts_witness :
  validate_uuids ("0A1B2C3D-0000-4000-8000-00000000ABCD" +:+ newline)
    = Ok "0A1B2C3D-0000-4000-8000-00000000ABCD".
Proof.
  apply (proj2 (validate_uuids_accepts
                  ("0A1B2C3D-0000-4000-8000-00000000ABCD" +:+ newline)
                  "0A1B2C3D-0000-4000-8000-00000000ABCD")).
  split; [vm_compute; reflexivity|]. right. reflexivity.
Defined.

End uuid_lemmas.
